(** * playwright-mcp: the tool layer, embedded and checked against its specification

    The development follows the TypeScript sources of the tool modules
    ([src/tools.ts], [src/tools/networkInterception.ts],
    [src/tools/frameManagement.ts], [src/tools/storage.ts] and the advanced
    waiting and script injection tools).  Calls into the browser driver
    (Playwright) are not part of the repository; where a tool needs a result
    of the driver, that result is an argument of the embedded function.  So
    is what the JavaScript engine makes of a regular expression that uses
    more than ordinary characters, [.] and [*].

    Conventions.
    - A JavaScript string is a [string]; the embedding covers strings of
      7-bit code units, which is what serialised URLs, HTTP method tokens and
      header names are.
    - An optional field of a zod object is an [option]; the JavaScript test
      [if (x)] on an optional string is [truthy_str], on an optional number
      [truthy_num].
    - A JavaScript object used as a dictionary is a [gmap string _].
    - A function that may throw returns an [option] or a sum. *)

From Stdlib Require Import ZArith Ascii String List.
From stdpp Require Import gmap strings list pretty.

Local Open Scope string_scope.
Local Open Scope stdpp_scope.
Local Open Scope list_scope.

(** ** JavaScript helpers *)

Module JS.

(** [if (s)] for [s : string | undefined]: the empty string is falsy. *)
Definition truthy_str (o : option string) : option string :=
  match o with
  | Some s => if decide (s = EmptyString) then None else Some s
  | None => None
  end.

(** [if (n)] for [n : number | undefined]: zero is falsy. *)
Definition truthy_num (o : option Z) : option Z :=
  match o with
  | Some n => if decide (n = 0%Z) then None else Some n
  | None => None
  end.

(** [if (b)] for [b : boolean | undefined]. *)
Definition truthy_bool (o : option bool) : bool :=
  match o with
  | Some b => b
  | None => false
  end.

(** [x || d] on an optional number. *)
Definition num_or (o : option Z) (d : Z) : Z :=
  match truthy_num o with
  | Some n => n
  | None => d
  end.

(** [x || d] on an optional string. *)
Definition str_or (o : option string) (d : string) : string :=
  match truthy_str o with
  | Some s => s
  | None => d
  end.

(** [hay.includes(needle)]. *)
Fixpoint includes (hay needle : string) : bool :=
  String.prefix needle hay ||
  match hay with
  | EmptyString => false
  | String _ hay' => includes hay' needle
  end.

Definition upper_char (c : ascii) : ascii :=
  let n := nat_of_ascii c in
  if (97 <=? n)%nat && (n <=? 122)%nat then ascii_of_nat (n - 32) else c.

(** [s.toUpperCase()]. *)
Fixpoint toUpperCase (s : string) : string :=
  match s with
  | EmptyString => EmptyString
  | String c s' => String (upper_char c) (toUpperCase s')
  end.

(** [s.replace(/\*/g, '.*')], on the code units of [s]. *)
Fixpoint replace_star (s : list ascii) : list ascii :=
  match s with
  | [] => []
  | c :: s' =>
      if Ascii.eqb c "*" then "."%char :: "*"%char :: replace_star s'
      else c :: replace_star s'
  end.

(** [String(n)] for an integer [n]. *)
Definition num_to_string (n : Z) : string := pretty n.

(** What a [catch] clause receives: an [Error] with its message, or a value
    that is not an instance of [Error]. *)
Inductive Thrown : Type :=
| ErrorWith (message : string)
| OtherValue (shown : string).

(** The settlement of a promise returned by the driver. *)
Inductive Settled (A : Type) : Type :=
| Resolves (a : A)
| Rejects (e : Thrown).
Arguments Resolves {A} a.
Arguments Rejects {A} e.

(** The [catch] block shared by the wait tools:
    [if (error instanceof Error && error.message.includes('Timeout'))
       throw new Error(msg); throw error;]. *)
Definition rethrow_timeout (msg : string) (error : Thrown) : Thrown :=
  match error with
  | ErrorWith m => if includes m "Timeout" then ErrorWith msg else error
  | OtherValue _ => error
  end.

(** [error instanceof Error ? error.message : String(error)]. *)
Definition error_text (error : Thrown) : string :=
  match error with
  | ErrorWith m => m
  | OtherValue shown => shown
  end.


End JS.

(** ** Regular expressions

    [new RegExp(src)] followed by [pattern.test(s)].  The regular expressions
    belong to the JavaScript engine, not to the repository.  For the sources
    built from ordinary characters, [.] and a [*] quantifier (the fragment)
    their meaning is written out here: [parse] reads such a source and
    [test] runs it.  [parse] answers [None] for every other source, which
    only says that the source is outside the fragment; what the engine does
    with such a source is an argument of [new_RegExp]. *)

Module RegExp.

Inductive atom : Type :=
| Lit (c : ascii)
| Dot.

Inductive term : Type :=
| One (a : atom)
| Star (a : atom).

Definition regex : Type := list term.

Definition is_star (c : ascii) : bool := Ascii.eqb c "*".
Definition is_dot (c : ascii) : bool := Ascii.eqb c ".".

(** The syntax characters other than [.] and [*]. *)
Definition other_syntax : list ascii :=
  list_ascii_of_string "\^$+?()[]{}|".

Definition is_other_syntax (c : ascii) : bool :=
  existsb (Ascii.eqb c) other_syntax.

(** [.] matches any code unit but a line terminator. *)
Definition line_terminator (c : ascii) : bool :=
  Ascii.eqb c "010" || Ascii.eqb c "013".

Definition atom_matches (a : atom) (c : ascii) : bool :=
  match a with
  | Lit d => Ascii.eqb d c
  | Dot => negb (line_terminator c)
  end.

Definition atom_of (c : ascii) : atom :=
  if is_dot c then Dot else Lit c.

Fixpoint parse (src : list ascii) : option regex :=
  match src with
  | [] => Some []
  | c :: rest =>
      if is_star c || is_other_syntax c then None
      else
        match rest with
        | q :: rest' =>
            if is_star q
            then option_map (cons (Star (atom_of c))) (parse rest')
            else option_map (cons (One (atom_of c))) (parse rest)
        | [] => Some [One (atom_of c)]
        end
  end.

(** Does [re] match a prefix of [s]? *)
Fixpoint match_here (re : regex) (s : list ascii) : bool :=
  match re with
  | [] => true
  | One a :: re' =>
      match s with
      | c :: s' => atom_matches a c && match_here re' s'
      | [] => false
      end
  | Star a :: re' =>
      (fix star (s : list ascii) : bool :=
         match_here re' s ||
         match s with
         | c :: s' => atom_matches a c && star s'
         | [] => false
         end) s
  end.

(** [pattern.test(s)] without the [g] and [y] flags: a match may start at
    any index. *)
Fixpoint test_list (re : regex) (s : list ascii) : bool :=
  match_here re s ||
  match s with
  | _ :: s' => test_list re s'
  | [] => false
  end.

Definition test (re : regex) (s : string) : bool :=
  test_list re (list_ascii_of_string s).

(** The engine on the sources outside the fragment: [None] when the
    constructor throws a [SyntaxError], and otherwise the function
    [s => pattern.test(s)] of the expression it builds. *)
Definition Beyond : Type := list ascii -> option (string -> bool).

(** [new RegExp(src)], as the function [s => pattern.test(s)]; [None] when
    the constructor throws. *)
Definition new_RegExp (beyond : Beyond) (src : list ascii)
    : option (string -> bool) :=
  match parse src with
  | Some re => Some (test re)
  | None => beyond src
  end.

(** No answer beyond the fragment: with it, [new_RegExp] says what the
    fragment alone decides. *)
Definition fragment_only : Beyond := fun _ => None.

End RegExp.

(** ** Network tools ([src/tools/networkInterception.ts]) *)

Module Network.

Record Request : Type := mkRequest {
  req_url : string;
  req_method : string;
  req_headers : gmap string string;
  req_postData : option string;
  req_resourceType : string;
  req_isNavigationRequest : bool
}.

Record Response : Type := mkResponse {
  resp_url : string;
  resp_status : Z;
  resp_statusText : string;
  resp_headers : gmap string string;
  resp_ok : bool;
  resp_text : JS.Settled string
}.

(** [tab.requests()] is a [Map<Request, Response | null>] keyed by the
    identity of the request object and iterated in insertion order: a list
    of entries, each request paired with its response. *)
Definition RequestLog : Type := list (Request * option Response).

Record RequestFilter : Type := mkRequestFilter {
  filter_url : option string;
  filter_method : option string;
  filter_resourceType : option string
}.

Record RequestData : Type := mkRequestData {
  rd_url : string;
  rd_method : string;
  rd_headers : gmap string string;
  rd_postData : option string;
  rd_resourceType : string;
  rd_response : option (Z * string)
}.

(** [new RegExp(u.replace(/\*/g, '.*'))], as the function
    [s => pattern.test(s)]; [None] when the constructor throws. *)
Definition url_pattern (beyond : RegExp.Beyond) (u : string)
    : option (string -> bool) :=
  RegExp.new_RegExp beyond (JS.replace_star (list_ascii_of_string u)).

Definition request_data (e : Request * option Response) : RequestData :=
  {| rd_url := req_url e.1;
     rd_method := req_method e.1;
     rd_headers := req_headers e.1;
     rd_postData := req_postData e.1;
     rd_resourceType := req_resourceType e.1;
     rd_response :=
       match e.2 with
       | Some r => Some (resp_status r, resp_statusText r)
       | None => None
       end |}.

(** The three [if (params.filter?.x) requests = requests.filter(...)]
    steps of [getRequests], on the entries of the log.  [None] when the
    constructor of the URL pattern throws. *)
Definition getRequests_entries (beyond : RegExp.Beyond)
    (filter : option RequestFilter) (allRequests : RequestLog)
    : option RequestLog :=
  let requests := allRequests in
  match
    match JS.truthy_str (filter ≫= filter_url) with
    | Some u =>
        match url_pattern beyond u with
        | Some pattern =>
            Some (List.filter (fun r => pattern (req_url r.1)) requests)
        | None => None
        end
    | None => Some requests
    end
  with
  | None => None
  | Some requests =>
      let requests :=
        match JS.truthy_str (filter ≫= filter_method) with
        | Some m =>
            List.filter
              (fun r => bool_decide
                 (JS.toUpperCase (req_method r.1) = JS.toUpperCase m))
              requests
        | None => requests
        end in
      let requests :=
        match JS.truthy_str (filter ≫= filter_resourceType) with
        | Some t =>
            List.filter (fun r => bool_decide (req_resourceType r.1 = t))
              requests
        | None => requests
        end in
      Some requests
  end.

Definition getRequests (beyond : RegExp.Beyond)
    (filter : option RequestFilter) (allRequests : RequestLog)
    : option (list RequestData) :=
  option_map (List.map request_data)
    (getRequests_entries beyond filter allRequests).

(** The URL clause of a filter after [new RegExp]: [Some None] when the
    filter has no URL to test, [None] when the constructor throws. *)
Definition compiled_url_clause (beyond : RegExp.Beyond)
    (filter : option RequestFilter) : option (option (string -> bool)) :=
  match JS.truthy_str (filter ≫= filter_url) with
  | Some u => option_map Some (url_pattern beyond u)
  | None => Some None
  end.

(** The three callbacks given to [requests.filter], taken together. *)
Definition entry_passes (filter : option RequestFilter)
    (pattern : option (string -> bool)) (r : Request * option Response) : bool :=
  match pattern with
  | Some test => test (req_url r.1)
  | None => true
  end
  && match JS.truthy_str (filter ≫= filter_method) with
     | Some m =>
         bool_decide (JS.toUpperCase (req_method r.1) = JS.toUpperCase m)
     | None => true
     end
  && match JS.truthy_str (filter ≫= filter_resourceType) with
     | Some t => bool_decide (req_resourceType r.1 = t)
     | None => true
     end.


Record StatusRange : Type := mkStatusRange {
  range_min : Z;
  range_max : Z
}.

Record ResponseFilter : Type := mkResponseFilter {
  rfilter_url : option string;
  rfilter_status : option Z;
  rfilter_statusRange : option StatusRange
}.

(** [for (const [request, response] of allRequests.entries())
      if (response) responses.push(response);]. *)
Fixpoint collect_responses (allRequests : RequestLog) : list Response :=
  match allRequests with
  | [] => []
  | (_, Some response) :: rest => response :: collect_responses rest
  | (_, None) :: rest => collect_responses rest
  end.

(** [getResponses], up to the filtered list of responses; the data returned
    for each of them needs its body from the driver.  [None] when the
    constructor of the URL pattern throws. *)
Definition getResponses (beyond : RegExp.Beyond)
    (filter : option ResponseFilter) (allRequests : RequestLog)
    : option (list Response) :=
  let responses := collect_responses allRequests in
  match
    match JS.truthy_str (filter ≫= rfilter_url) with
    | Some u =>
        match url_pattern beyond u with
        | Some pattern =>
            Some (List.filter (fun r => pattern (resp_url r)) responses)
        | None => None
        end
    | None => Some responses
    end
  with
  | None => None
  | Some responses =>
      let responses :=
        match JS.truthy_num (filter ≫= rfilter_status) with
        | Some s => List.filter (fun r => bool_decide (resp_status r = s)) responses
        | None => responses
        end in
      let responses :=
        match filter ≫= rfilter_statusRange with
        | Some rg =>
            List.filter
              (fun r => (range_min rg <=? resp_status r)%Z
                        && (resp_status r <=? range_max rg)%Z)
              responses
        | None => responses
        end in
      Some responses
  end.

(** *** Routes *)

Record FulfillParams : Type := mkFulfill {
  ful_status : option Z;
  ful_body : option string;
  ful_headers : option (gmap string string);
  ful_contentType : option string
}.

Record ContinueParams : Type := mkContinue {
  cont_url : option string;
  cont_method : option string;
  cont_headers : option (gmap string string);
  cont_postData : option string
}.

Record RouteHandler : Type := mkHandler {
  h_abort : option bool;
  h_fulfill : option FulfillParams;
  h_continue : option ContinueParams
}.

(** The call the route callback makes on the driver's [route] object. *)
Inductive RouteCall : Type :=
| RouteAbort
| RouteFulfill (options : FulfillParams)
| RouteContinue (overrides : option ContinueParams).

(** The body of the [fulfill] branch.  [fulfillOptions] is a shallow copy of
    [params.handler.fulfill], so its [headers] is the very object the handler
    holds: writing the [content-type] entry also changes the handler, unless
    [headers] was absent and a fresh object took its place.  The result is
    the options given to [route.fulfill] and the handler's [fulfill] object
    after the call. *)
Definition fulfill_step (f : FulfillParams) : FulfillParams * FulfillParams :=
  match JS.truthy_str (ful_contentType f) with
  | Some ct =>
      match ful_headers f with
      | Some hs =>
          let hs' := <["content-type" := ct]> hs in
          ({| ful_status := ful_status f; ful_body := ful_body f;
              ful_headers := Some hs'; ful_contentType := None |},
           {| ful_status := ful_status f; ful_body := ful_body f;
              ful_headers := Some hs'; ful_contentType := ful_contentType f |})
      | None =>
          ({| ful_status := ful_status f; ful_body := ful_body f;
              ful_headers := Some (<["content-type" := ct]> ∅);
              ful_contentType := None |},
           f)
      end
  | None => (f, f)
  end.

(** The callback registered by [tab.page.route(params.pattern, ...)], run by
    the driver on every intercepted request that matches the pattern. *)
Definition route_callback (h : RouteHandler) : RouteCall * RouteHandler :=
  if JS.truthy_bool (h_abort h) then (RouteAbort, h)
  else
    match h_fulfill h with
    | Some f =>
        let '(options, f') := fulfill_step f in
        (RouteFulfill options,
         {| h_abort := h_abort h; h_fulfill := Some f'; h_continue := h_continue h |})
    | None =>
        match h_continue h with
        | Some c => (RouteContinue (Some c), h)
        | None => (RouteContinue None, h)
        end
    end.

(** The action of [route]: what it hands to the driver's [page.route], the
    pattern as it came and the handler behind the callback, and the text it
    returns.  Matching URLs against the pattern is the driver's work. *)
Definition route (pattern : string) (handler : RouteHandler)
    : (string * RouteHandler) * string :=
  ((pattern, handler), "Route handler added for pattern: " +:+ pattern).

(** The action of [unroute]: the pattern handed to [page.unroute] and the
    text returned. *)
Definition unroute (pattern : string) : string * string :=
  (pattern, "Route handler removed for pattern: " +:+ pattern).

(** The callback run on [n] intercepted requests in a row. *)
Fixpoint route_calls (n : nat) (h : RouteHandler) : list RouteCall :=
  match n with
  | O => []
  | S n' => let '(c, h') := route_callback h in c :: route_calls n' h'
  end.

(** *** Waiting for a request or a response *)

Record WaitParams : Type := mkWaitParams {
  wait_urlPattern : string;
  wait_timeout : option Z
}.


Record ResponseInfo : Type := mkResponseInfo {
  rsi_url : string;
  rsi_status : Z;
  rsi_statusText : string;
  rsi_headers : gmap string string;
  rsi_body : option string;
  rsi_bodyError : option string;
  rsi_ok : bool
}.


Definition waitForResponse
    (page_waitForResponse : string -> Z -> JS.Settled Response)
    (params : WaitParams) : JS.Thrown + ResponseInfo :=
  match page_waitForResponse (wait_urlPattern params)
          (JS.num_or (wait_timeout params) 30000) with
  | JS.Resolves response =>
      let '(body, bodyError) :=
        match resp_text response with
        | JS.Resolves t => (Some t, None)
        | JS.Rejects (JS.ErrorWith m) => (None, Some m)
        | JS.Rejects (JS.OtherValue _) => (None, Some "Failed to get response body")
        end in
      inr {| rsi_url := resp_url response;
             rsi_status := resp_status response;
             rsi_statusText := resp_statusText response;
             rsi_headers := resp_headers response;
             rsi_body := body;
             rsi_bodyError := bodyError;
             rsi_ok := resp_ok response |}
  | JS.Rejects error =>
      inl (JS.rethrow_timeout
             ("Timeout waiting for response matching: " +:+ wait_urlPattern params)
             error)
  end.

End Network.

(** ** Frame tools ([src/tools/frameManagement.ts]) *)

Module Frames.

Record Frame : Type := mkFrame {
  frame_id : nat;
  frame_name : string;
  frame_url : string;
  frame_parent : option nat
}.

(** What the tools ask of the driver's page: [page.frames()],
    [page.mainFrame()], [page.frame({ name })], [page.frame({ url })], and
    [page.locator(sel).first().elementHandle()] followed by
    [contentFrame()] (outer [None]: no element handle; inner [None]: the
    element has no content frame). *)
Record Page : Type := mkPage {
  page_frames : list Frame;
  page_mainFrame : Frame;
  page_frame_by_name : string -> option Frame;
  page_frame_by_url : string -> option Frame;
  page_content_frame : string -> option (option Frame)
}.

(** A tab with the property the frame tools keep on it,
    [(tab as any).currentFrame]; [None] when the property is absent. *)
Record Tab : Type := mkTab {
  tab_page : Page;
  tab_currentFrame : option Frame
}.

Record SwitchParams : Type := mkSwitchParams {
  sw_frameSelector : option string;
  sw_frameName : option string;
  sw_frameUrl : option string;
  sw_frameIndex : option Z
}.

Record EvaluateParams : Type := mkEvaluateParams {
  fe_code : string;
  fe_frameSelector : option string;
  fe_frameName : option string;
  fe_frameIndex : option Z;
  fe_args : option (list string)
}.

(** [frames[i] || null] for an integer [i]. *)
Definition frame_at (frames : list Frame) (i : Z) : option Frame :=
  if (i <? 0)%Z then None else frames !! Z.to_nat i.

Definition by_selector (page : Page) (sel : string) : JS.Thrown + option Frame :=
  match page_content_frame page sel with
  | None => inl (JS.ErrorWith ("Frame element not found: " +:+ sel))
  | Some target => inr target
  end.

Definition frame_not_found : JS.Thrown :=
  JS.ErrorWith "Frame not found with the specified criteria".

(** The frame the arguments of [switchToFrame] name, in the order the action
    tries them. *)
Definition switch_target (page : Page) (params : SwitchParams)
    : JS.Thrown + option Frame :=
  match JS.truthy_str (sw_frameSelector params) with
  | Some sel => by_selector page sel
  | None =>
      match JS.truthy_str (sw_frameName params) with
      | Some n => inr (page_frame_by_name page n)
      | None =>
          match JS.truthy_str (sw_frameUrl params) with
          | Some u => inr (page_frame_by_url page u)
          | None =>
              match sw_frameIndex params with
              | Some i => inr (frame_at (page_frames page) i)
              | None => inr None
              end
          end
      end
  end.

(** [switchToFrame]: the check of [handle] and then its action.  The result
    is the thrown error, or the tab after the call with the text returned. *)
Definition switchToFrame (tab : Tab) (params : SwitchParams)
    : JS.Thrown + (Tab * string) :=
  match JS.truthy_str (sw_frameSelector params),
        JS.truthy_str (sw_frameName params),
        JS.truthy_str (sw_frameUrl params),
        sw_frameIndex params with
  | None, None, None, None =>
      inl (JS.ErrorWith "Must provide frameSelector, frameName, frameUrl, or frameIndex")
  | _, _, _, _ =>
      match switch_target (tab_page tab) params with
      | inl e => inl e
      | inr None => inl frame_not_found
      | inr (Some targetFrame) =>
          (* (tab as any).currentFrame = targetFrame *)
          inr ({| tab_page := tab_page tab; tab_currentFrame := Some targetFrame |},
               "Switched to frame: " +:+ frame_url targetFrame)
      end
  end.

(** [switchToMainFrame]: [delete (tab as any).currentFrame]. *)
Definition switchToMainFrame (tab : Tab) : Tab * string :=
  ({| tab_page := tab_page tab; tab_currentFrame := None |},
   "Switched to main frame: " +:+ frame_url (page_mainFrame (tab_page tab))).

(** The frame [frameEvaluate] runs the code in. *)
Definition frameEvaluate_target (tab : Tab) (params : EvaluateParams)
    : JS.Thrown + Frame :=
  let target : JS.Thrown + option Frame :=
    match JS.truthy_str (fe_frameSelector params) with
    | Some sel => by_selector (tab_page tab) sel
    | None =>
        match JS.truthy_str (fe_frameName params) with
        | Some n => inr (page_frame_by_name (tab_page tab) n)
        | None =>
            match fe_frameIndex params with
            | Some i => inr (frame_at (page_frames (tab_page tab)) i)
            | None =>
                (* (tab as any).currentFrame || tab.page.mainFrame() *)
                match tab_currentFrame tab with
                | Some f => inr (Some f)
                | None => inr (Some (page_mainFrame (tab_page tab)))
                end
            end
        end
    end in
  match target with
  | inl e => inl e
  | inr None => inl frame_not_found
  | inr (Some f) => inr f
  end.

(** [frameEvaluate]; [frame_evaluate] is the driver's [targetFrame.evaluate]
    applied to the code and its arguments. *)
Definition frameEvaluate
    (frame_evaluate : Frame -> string -> list string -> JS.Settled string)
    (tab : Tab) (params : EvaluateParams) : JS.Thrown + string :=
  match frameEvaluate_target tab params with
  | inl e => inl e
  | inr targetFrame =>
      match frame_evaluate targetFrame (fe_code params)
              (default [] (fe_args params)) with
      | JS.Resolves result => inr result
      | JS.Rejects error =>
          inl (JS.ErrorWith
                 ("Frame JavaScript execution failed: " +:+ JS.error_text error))
      end
  end.

(** A call of [frameEvaluate] that names no frame: no selector, no name (an
    empty string counts as none) and no index. *)
Definition no_frame_argument (params : EvaluateParams) : Prop :=
  JS.truthy_str (fe_frameSelector params) = None /\
  JS.truthy_str (fe_frameName params) = None /\
  fe_frameIndex params = None.

Definition is_top_level (frame : Frame) : bool :=
  match frame_parent frame with
  | None => true
  | Some _ => false
  end.

(** Modelled from the spec: [Tab.onNavigated], the subscription of the tab
    to the driver's navigation event.  The [Tab] class is not among the
    sources; the specification says that [onNavigated(frame)] "must reset
    FrameContext to main frame whenever [frame] is the top-level frame".
    [page'] is the page as the driver presents it after the navigation. *)
Definition onNavigated (page' : Page) (frame : Frame) (tab : Tab) : Tab :=
  if is_top_level frame
  then {| tab_page := page'; tab_currentFrame := None |}
  else {| tab_page := page'; tab_currentFrame := tab_currentFrame tab |}.

(** What may happen to a tab between two evaluations. *)
Inductive TabEvent : Type :=
| EvSwitchToFrame (params : SwitchParams)
| EvSwitchToMainFrame
| EvNavigated (page' : Page) (frame : Frame).

Definition tab_step (tab : Tab) (ev : TabEvent) : Tab :=
  match ev with
  | EvSwitchToFrame params =>
      match switchToFrame tab params with
      | inr (tab', _) => tab'
      | inl _ => tab
      end
  | EvSwitchToMainFrame => (switchToMainFrame tab).1
  | EvNavigated page' frame => onNavigated page' frame tab
  end.

Definition tab_run (tab : Tab) (evs : list TabEvent) : Tab :=
  fold_left tab_step evs tab.

End Frames.

(** ** Storage tools ([src/tools/storage.ts]) *)

Module Storage.

(** A Web Storage area ([localStorage] or [sessionStorage]): its entries in
    the order [key(i)] enumerates them, no key twice. *)
Definition Area : Type := list (string * string).

Definition area_length (st : Area) : nat := length st.

(** [storage.key(i)]: [null] out of range. *)
Definition key (st : Area) (i : nat) : option string := fst <$> st !! i.

(** [storage.getItem(k)]: [null] when absent. *)
Fixpoint getItem (st : Area) (k : string) : option string :=
  match st with
  | [] => None
  | (k', v) :: rest => if decide (k' = k) then Some v else getItem rest k
  end.

(** [storage.setItem(k, v)]: the value is replaced in place, a new key goes
    to the end. *)
Fixpoint setItem (st : Area) (k v : string) : Area :=
  match st with
  | [] => [(k, v)]
  | (k', v') :: rest =>
      if decide (k' = k) then (k', v) :: rest else (k', v') :: setItem rest k v
  end.

(** [storage.removeItem(k)]. *)
Fixpoint removeItem (st : Area) (k : string) : Area :=
  match st with
  | [] => []
  | (k', v') :: rest =>
      if decide (k' = k) then rest else (k', v') :: removeItem rest k
  end.

(** [storage.clear()]. *)
Definition clear (st : Area) : Area := [].

Inductive StorageType : Type := local | session.

Inductive ClearType : Type := clear_local | clear_session | clear_all.

(** The two areas of the page the tools evaluate in. *)
Record PageStorage : Type := mkPageStorage {
  localStorage : Area;
  sessionStorage : Area
}.

(** [type === 'local' ? localStorage : sessionStorage]. *)
Definition area_of (type : StorageType) (ps : PageStorage) : Area :=
  match type with
  | local => localStorage ps
  | session => sessionStorage ps
  end.

Definition with_area (type : StorageType) (st : Area) (ps : PageStorage)
    : PageStorage :=
  match type with
  | local => {| localStorage := st; sessionStorage := sessionStorage ps |}
  | session => {| localStorage := localStorage ps; sessionStorage := st |}
  end.

(** One turn of the loop of [getStorage]:
    [const key = storage.key(i);
     if (key) { const value = storage.getItem(key);
                if (value !== null) data[key] = value; }].
    [data] is a plain object, and [data[key] = value] makes an entry for
    every key but [__proto__]: that name is the prototype accessor of the
    object, which ignores a string, so nothing is stored. *)
Definition read_step (storage : Area) (data : gmap string string) (i : nat)
    : gmap string string :=
  match JS.truthy_str (key storage i) with
  | Some k =>
      match getItem storage k with
      | Some value =>
          if decide (k = "__proto__") then data else <[k := value]> data
      | None => data
      end
  | None => data
  end.

(** [for (let i = 0; i < storage.length; i++) ...] from [data = {}]. *)
Definition read_area (storage : Area) : gmap string string :=
  fold_left (read_step storage) (seq 0 (area_length storage)) ∅.

Definition getStorage (type : StorageType) (ps : PageStorage)
    : gmap string string :=
  read_area (area_of type ps).

(** [Object.entries(data).forEach(([key, value]) => storage.setItem(key, value))]. *)
Definition write_entries (entries : list (string * string)) (storage : Area)
    : Area :=
  fold_left (fun st kv => setItem st kv.1 kv.2) entries storage.

(** [setStorage]: the page after the call and the text returned. *)
Definition setStorage (type : StorageType) (data : gmap string string)
    (clear_first : option bool) (ps : PageStorage) : PageStorage * string :=
  let storage := area_of type ps in
  let storage := if JS.truthy_bool clear_first then clear storage else storage in
  let storage := write_entries (map_to_list data) storage in
  let count := Z.of_nat (length (map_to_list data)) in
  (with_area type storage ps,
   "Set " +:+ JS.num_to_string count +:+ " item(s) in "
     +:+ match type with local => "local" | session => "session" end
     +:+ "Storage"
     +:+ (if JS.truthy_bool clear_first then " (cleared existing data)" else EmptyString)).

(** [removeKeys(storage)]: the area after the removals and their count. *)
Definition removeKeys (keys : list string) (storage : Area) : Area * nat :=
  fold_left
    (fun '(st, count) k =>
       match getItem st k with
       | Some _ => (removeItem st k, S count)
       | None => (st, count)
       end)
    keys (storage, 0).

Definition touches_local (type : ClearType) : bool :=
  match type with clear_local | clear_all => true | clear_session => false end.

Definition touches_session (type : ClearType) : bool :=
  match type with clear_session | clear_all => true | clear_local => false end.

(** [clearStorage]: the page after the call and the text returned. *)
Definition clearStorage (type_opt : option ClearType)
    (keys_opt : option (list string)) (ps : PageStorage) : PageStorage * string :=
  let type := default clear_all type_opt in
  let show n := JS.num_to_string (Z.of_nat n) in
  match keys_opt with
  | Some keys =>
      let '(l, clearedLocal) :=
        if touches_local type then removeKeys keys (localStorage ps)
        else (localStorage ps, 0) in
      let '(s, clearedSession) :=
        if touches_session type then removeKeys keys (sessionStorage ps)
        else (sessionStorage ps, 0) in
      ({| localStorage := l; sessionStorage := s |},
       "Removed " +:+ show (clearedLocal + clearedSession) +:+ " item(s)"
         +:+ match type with
             | clear_all =>
                 " (localStorage: " +:+ show clearedLocal
                   +:+ ", sessionStorage: " +:+ show clearedSession +:+ ")"
             | _ => EmptyString
             end)
  | None =>
      let '(l, clearedLocal) :=
        if touches_local type
        then (clear (localStorage ps), area_length (localStorage ps))
        else (localStorage ps, 0) in
      let '(s, clearedSession) :=
        if touches_session type
        then (clear (sessionStorage ps), area_length (sessionStorage ps))
        else (sessionStorage ps, 0) in
      ({| localStorage := l; sessionStorage := s |},
       match type with
       | clear_all =>
           "Cleared all storage (localStorage: " +:+ show clearedLocal
             +:+ " items, sessionStorage: " +:+ show clearedSession +:+ " items)"
       | clear_local => "Cleared localStorage (" +:+ show clearedLocal +:+ " items)"
       | clear_session => "Cleared sessionStorage (" +:+ show clearedSession +:+ " items)"
       end)
  end.

(** The type argument of [clearStorage] that names one area. *)
Definition clear_type_of (type : StorageType) : ClearType :=
  match type with
  | local => clear_local
  | session => clear_session
  end.

Definition empty_page : PageStorage :=
  {| localStorage := []; sessionStorage := [] |}.

End Storage.

(** ** Waiting tools (advanced waiting, and [waitForFrame] of the frame tools) *)

Module Waiting.

Inductive SelectorState : Type := attached | detached | visible | hidden.


Inductive LoadState : Type := load | domcontentloaded | networkidle.

#[global] Instance LoadState_eq_dec : EqDecision LoadState.
Proof. solve_decision. Defined.


Record SelectorParams : Type := mkSelectorParams {
  sel_selector : string;
  sel_state : option SelectorState;
  sel_timeout : option Z
}.

Record FunctionParams : Type := mkFunctionParams {
  fn_code : string;
  fn_args : option (list string);
  fn_timeout : option Z;
  fn_polling : option string
}.

Record LoadStateParams : Type := mkLoadStateParams {
  ls_state : option LoadState;
  ls_timeout : option Z
}.

(** The [event] field is one of the seventeen names the schema lists; the
    schema has checked it, the action only copies it. *)
Record EventParams : Type := mkEventParams {
  ev_event : string;
  ev_predicate : option string;
  ev_timeout : option Z
}.

Record FrameParams : Type := mkFrameParams {
  wf_frameUrl : option string;
  wf_frameName : option string;
  wf_timeout : option Z
}.









End Waiting.

(** ** What a handler tells the dispatcher to do after the action *)

Module Dispatch.

(** The [captureSnapshot] and [waitForNetwork] fields of the object that
    [handle] returns. *)
Record SyncFlags : Type := mkSyncFlags {
  captureSnapshot : bool;
  waitForNetwork : bool
}.

Record ScriptTagParams : Type := mkScriptTagParams {
  tag_url : option string;
  tag_path : option string;
  tag_content : option string;
  tag_type : option string
}.

(** A call of one of the embedded tools, with its validated arguments. *)
Inductive ToolCall : Type :=
| CallRoute (pattern : string) (handler : Network.RouteHandler)
| CallUnroute (pattern : string)
| CallWaitForRequest (params : Network.WaitParams)
| CallWaitForResponse (params : Network.WaitParams)
| CallGetRequests (filter : option Network.RequestFilter)
| CallGetResponses (filter : option Network.ResponseFilter)
| CallGetStorage (type : Storage.StorageType)
| CallSetStorage (type : Storage.StorageType) (data : gmap string string)
    (clear : option bool)
| CallClearStorage (type : option Storage.ClearType) (keys : option (list string))
| CallListFrames
| CallSwitchToFrame (params : Frames.SwitchParams)
| CallSwitchToMainFrame
| CallWaitForFrame (params : Waiting.FrameParams)
| CallFrameEvaluate (params : Frames.EvaluateParams)
| CallWaitForSelector (params : Waiting.SelectorParams)
| CallWaitForFunction (params : Waiting.FunctionParams)
| CallWaitForLoadState (params : Waiting.LoadStateParams)
| CallWaitForEvent (params : Waiting.EventParams)
| CallAddScriptTag (params : ScriptTagParams)
| CallAddStyleTag (params : ScriptTagParams).

(** The name in the schema of the tool that is called. *)
Definition tool_of (call : ToolCall) : string :=
  match call with
  | CallRoute _ _ => "mcp__playwright__browser_route"
  | CallUnroute _ => "mcp__playwright__browser_unroute"
  | CallWaitForRequest _ => "mcp__playwright__browser_wait_for_request"
  | CallWaitForResponse _ => "mcp__playwright__browser_wait_for_response"
  | CallGetRequests _ => "mcp__playwright__browser_get_requests"
  | CallGetResponses _ => "mcp__playwright__browser_get_responses"
  | CallGetStorage _ => "mcp__playwright__browser_get_storage"
  | CallSetStorage _ _ _ => "mcp__playwright__browser_set_storage"
  | CallClearStorage _ _ => "mcp__playwright__browser_clear_storage"
  | CallListFrames => "mcp__playwright__browser_list_frames"
  | CallSwitchToFrame _ => "mcp__playwright__browser_switch_to_frame"
  | CallSwitchToMainFrame => "mcp__playwright__browser_switch_to_main_frame"
  | CallWaitForFrame _ => "mcp__playwright__browser_wait_for_frame"
  | CallFrameEvaluate _ => "mcp__playwright__browser_frame_evaluate"
  | CallWaitForSelector _ => "mcp__playwright__browser_wait_for_selector"
  | CallWaitForFunction _ => "mcp__playwright__browser_wait_for_function"
  | CallWaitForLoadState _ => "mcp__playwright__browser_wait_for_load_state"
  | CallWaitForEvent _ => "mcp__playwright__browser_wait_for_event"
  | CallAddScriptTag _ => "mcp__playwright__browser_add_script_tag"
  | CallAddStyleTag _ => "mcp__playwright__browser_add_style_tag"
  end.

(** [!params.url && !params.path && !params.content]. *)
Definition no_source (params : ScriptTagParams) : bool :=
  match JS.truthy_str (tag_url params), JS.truthy_str (tag_path params),
        JS.truthy_str (tag_content params) with
  | None, None, None => true
  | _, _, _ => false
  end.

(** [!!params.url]. *)
Definition has_url (params : ScriptTagParams) : bool :=
  match JS.truthy_str (tag_url params) with
  | Some _ => true
  | None => false
  end.

(** The flags in the object returned by [handle], for a tool built by its
    factory with the argument [captureSnapshot]; [None] when [handle] throws
    before it returns. *)
Definition handle_flags (captureSnapshot : bool) (call : ToolCall)
    : option SyncFlags :=
  match call with
  | CallRoute _ _ | CallUnroute _
  | CallWaitForRequest _ | CallWaitForResponse _
  | CallGetRequests _ | CallGetResponses _ =>
      Some (mkSyncFlags false false)
  | CallGetStorage _ => Some (mkSyncFlags false false)
  | CallSetStorage _ _ _ | CallClearStorage _ _ =>
      Some (mkSyncFlags captureSnapshot false)
  | CallListFrames | CallSwitchToMainFrame | CallFrameEvaluate _ =>
      Some (mkSyncFlags captureSnapshot false)
  | CallSwitchToFrame params =>
      match JS.truthy_str (Frames.sw_frameSelector params),
            JS.truthy_str (Frames.sw_frameName params),
            JS.truthy_str (Frames.sw_frameUrl params),
            Frames.sw_frameIndex params with
      | None, None, None, None => None
      | _, _, _, _ => Some (mkSyncFlags captureSnapshot false)
      end
  | CallWaitForFrame params =>
      match JS.truthy_str (Waiting.wf_frameUrl params),
            JS.truthy_str (Waiting.wf_frameName params) with
      | None, None => None
      | _, _ => Some (mkSyncFlags captureSnapshot false)
      end
  | CallWaitForSelector _ | CallWaitForFunction _ | CallWaitForEvent _ =>
      Some (mkSyncFlags false false)
  | CallWaitForLoadState params =>
      (* waitForNetwork: params.state === 'networkidle' *)
      Some (mkSyncFlags false
              match Waiting.ls_state params with
              | Some Waiting.networkidle => true
              | _ => false
              end)
  | CallAddScriptTag params | CallAddStyleTag params =>
      if no_source params then None
      else Some (mkSyncFlags captureSnapshot (has_url params))
  end.

(** The tools whose handler computes a flag from the arguments of the call. *)
Definition input_dependent (name : string) : bool :=
  bool_decide (name = "mcp__playwright__browser_wait_for_load_state")
  || bool_decide (name = "mcp__playwright__browser_add_script_tag")
  || bool_decide (name = "mcp__playwright__browser_add_style_tag").

End Dispatch.

(** ** The tool registry ([src/tools.ts]) *)

Module Tools.

Inductive ToolType : Type := readOnly | destructive.

#[global] Instance ToolType_eq_dec : EqDecision ToolType.
Proof. solve_decision. Defined.

(** A tool as far as the registry is concerned: the [capability] it needs,
    the [name] and [type] of its schema, and the argument its factory was
    applied to ([None] for a tool defined without a factory). *)
Record Tool : Type := mkTool {
  tool_name : string;
  tool_capability : string;
  tool_type : ToolType;
  tool_factory_arg : option bool
}.

#[global] Instance Tool_eq_dec : EqDecision Tool.
Proof. solve_decision. Defined.

Definition accessibility (captureSnapshot : bool) : list Tool :=
  [mkTool "mcp__playwright__browser_get_accessibility_tree" "accessibility" readOnly (Some captureSnapshot);
   mkTool "mcp__playwright__browser_check_accessibility" "accessibility" readOnly (Some captureSnapshot)].

Definition advancedWaiting (captureSnapshot : bool) : list Tool :=
  [mkTool "mcp__playwright__browser_wait_for_selector" "wait" readOnly (Some captureSnapshot);
   mkTool "mcp__playwright__browser_wait_for_function" "wait" readOnly (Some captureSnapshot);
   mkTool "mcp__playwright__browser_wait_for_load_state" "wait" readOnly (Some captureSnapshot);
   mkTool "mcp__playwright__browser_wait_for_event" "wait" readOnly (Some captureSnapshot)].

Definition domManipulation (captureSnapshot : bool) : list Tool :=
  [mkTool "mcp__playwright__browser_query_selector" "dom" readOnly (Some captureSnapshot);
   mkTool "mcp__playwright__browser_query_selector_all" "dom" readOnly (Some captureSnapshot);
   mkTool "mcp__playwright__browser_get_attribute" "dom" readOnly (Some captureSnapshot);
   mkTool "mcp__playwright__browser_set_attribute" "dom" destructive (Some captureSnapshot);
   mkTool "mcp__playwright__browser_get_text_content" "dom" readOnly (Some captureSnapshot)].

Definition frameManagement (captureSnapshot : bool) : list Tool :=
  [mkTool "mcp__playwright__browser_list_frames" "frames" readOnly (Some captureSnapshot);
   mkTool "mcp__playwright__browser_switch_to_frame" "frames" destructive (Some captureSnapshot);
   mkTool "mcp__playwright__browser_switch_to_main_frame" "frames" destructive (Some captureSnapshot);
   mkTool "mcp__playwright__browser_wait_for_frame" "frames" readOnly (Some captureSnapshot);
   mkTool "mcp__playwright__browser_frame_evaluate" "frames" destructive (Some captureSnapshot)].

Definition javascript (captureSnapshot : bool) : list Tool :=
  [mkTool "mcp__playwright__browser_evaluate" "javascript" destructive (Some captureSnapshot);
   mkTool "mcp__playwright__browser_evaluate_handle" "javascript" destructive (Some captureSnapshot);
   mkTool "mcp__playwright__browser_eval_on_selector" "javascript" destructive (Some captureSnapshot);
   mkTool "mcp__playwright__browser_eval_on_selector_all" "javascript" destructive (Some captureSnapshot)].

Definition networkInterception (captureSnapshot : bool) : list Tool :=
  [mkTool "mcp__playwright__browser_route" "network" destructive (Some captureSnapshot);
   mkTool "mcp__playwright__browser_unroute" "network" destructive (Some captureSnapshot);
   mkTool "mcp__playwright__browser_wait_for_request" "network" readOnly (Some captureSnapshot);
   mkTool "mcp__playwright__browser_wait_for_response" "network" readOnly (Some captureSnapshot);
   mkTool "mcp__playwright__browser_get_requests" "network" readOnly (Some captureSnapshot);
   mkTool "mcp__playwright__browser_get_responses" "network" readOnly (Some captureSnapshot)].

Definition pageInformation (captureSnapshot : bool) : list Tool :=
  [mkTool "mcp__playwright__browser_get_title" "info" readOnly (Some captureSnapshot);
   mkTool "mcp__playwright__browser_get_url" "info" readOnly (Some captureSnapshot);
   mkTool "mcp__playwright__browser_get_html" "info" readOnly (Some captureSnapshot);
   mkTool "mcp__playwright__browser_get_metrics" "info" readOnly (Some captureSnapshot)].

Definition scriptInjection (captureSnapshot : bool) : list Tool :=
  [mkTool "mcp__playwright__browser_add_script_tag" "javascript" destructive (Some captureSnapshot);
   mkTool "mcp__playwright__browser_add_style_tag" "javascript" destructive (Some captureSnapshot);
   mkTool "mcp__playwright__browser_add_init_script" "javascript" destructive (Some captureSnapshot);
   mkTool "mcp__playwright__browser_remove_scripts" "javascript" destructive (Some captureSnapshot)].

Definition storage (captureSnapshot : bool) : list Tool :=
  [mkTool "mcp__playwright__browser_get_storage" "storage" readOnly (Some captureSnapshot);
   mkTool "mcp__playwright__browser_set_storage" "storage" destructive (Some captureSnapshot);
   mkTool "mcp__playwright__browser_clear_storage" "storage" destructive (Some captureSnapshot);
   mkTool "mcp__playwright__browser_get_cookies" "storage" readOnly (Some captureSnapshot);
   mkTool "mcp__playwright__browser_set_cookies" "storage" destructive (Some captureSnapshot);
   mkTool "mcp__playwright__browser_delete_cookies" "storage" destructive (Some captureSnapshot)].

Definition pdf : list Tool :=
  [mkTool "browser_pdf_save" "pdf" readOnly None].

(** The tool modules that [src/tools.ts] imports and that are not among the
    sources. *)
Record OtherModules : Type := mkOtherModules {
  common : bool -> list Tool;
  console : list Tool;
  dialogs : bool -> list Tool;
  files : bool -> list Tool;
  install : list Tool;
  keyboard : bool -> list Tool;
  navigate : bool -> list Tool;
  network : list Tool;
  screenshot : list Tool;
  snapshot : list Tool;
  tabs : bool -> list Tool;
  testing : list Tool;
  vision : list Tool;
  wait : bool -> list Tool
}.

Definition snapshotTools (o : OtherModules) : list Tool :=
  accessibility true ++
  advancedWaiting true ++
  common o true ++
  console o ++
  dialogs o true ++
  domManipulation true ++
  files o true ++
  frameManagement true ++
  install o ++
  javascript true ++
  keyboard o true ++
  navigate o true ++
  network o ++
  networkInterception true ++
  pageInformation true ++
  pdf ++
  scriptInjection true ++
  screenshot o ++
  snapshot o ++
  storage true ++
  tabs o true ++
  testing o ++
  wait o true.

Definition visionTools (o : OtherModules) : list Tool :=
  accessibility false ++
  advancedWaiting false ++
  common o false ++
  console o ++
  dialogs o false ++
  domManipulation false ++
  files o false ++
  frameManagement false ++
  install o ++
  javascript false ++
  keyboard o false ++
  navigate o false ++
  network o ++
  networkInterception false ++
  pageInformation false ++
  pdf ++
  scriptInjection false ++
  storage false ++
  tabs o false ++
  testing o ++
  vision o ++
  wait o false.

(** Modelled from the spec: [buildActiveSet], the capability filter of the
    registry.  The module that filters the tool lists by the configured
    capabilities is not among the sources; the specification says that
    [buildActiveSet(capabilitySet)] "returns the subset of descriptors whose
    [requiredCapability] is in [capabilitySet ∪ {core}], preserving
    declaration order". *)
Fixpoint buildActiveSet (capabilitySet : gset string) (registry : list Tool)
    : list Tool :=
  match registry with
  | [] => []
  | t :: rest =>
      if decide (tool_capability t ∈ capabilitySet ∪ {["core"]})
      then t :: buildActiveSet capabilitySet rest
      else buildActiveSet capabilitySet rest
  end.

(** Modelled from the spec: the answer to the "list tools" query.  The
    server module is not among the sources; the specification says that "the
    set of tool names visible to a given session is exactly
    [ToolRegistry.buildActiveSet(capabilitySet)]". *)
Definition listTools (capabilitySet : gset string) (registry : list Tool)
    : list string :=
  tool_name <$> buildActiveSet capabilitySet registry.

(** Modelled from the spec: the lookup of [dispatch].  The specification says
    that it "fails with [UnknownTool] if [name] is not in the active set". *)
Definition dispatch_lookup (capabilitySet : gset string) (registry : list Tool)
    (name : string) : option Tool :=
  List.find (fun t => bool_decide (tool_name t = name))
    (buildActiveSet capabilitySet registry).

End Tools.

(** ** What the URL filters accept, as a relation

    [filter_glob p body]: the pattern [p] of a URL filter, read character by
    character, describes [body] when every [*] stands for a run of code units
    free of line terminators, every [.] for one such code unit, and any other
    character for itself. *)

Module UrlFilter.

Definition not_terminator (c : ascii) : Prop :=
  RegExp.line_terminator c = false.

Inductive filter_glob : list ascii -> list ascii -> Prop :=
| fg_end : filter_glob [] []
| fg_star p run s :
    Forall not_terminator run -> filter_glob p s ->
    filter_glob ("*"%char :: p) (run ++ s)
| fg_dot p c s :
    not_terminator c -> filter_glob p s ->
    filter_glob ("."%char :: p) (c :: s)
| fg_char p c s :
    RegExp.is_star c = false -> RegExp.is_dot c = false ->
    filter_glob p s -> filter_glob (c :: p) (c :: s).

(** The pattern occurs somewhere in the URL. *)
Definition occurs_in (p : list ascii) (u : list ascii) : Prop :=
  exists before body after, u = before ++ body ++ after /\ filter_glob p body.

(** The patterns inside the embedded fragment of the regular expressions. *)
Definition in_fragment (p : list ascii) : Prop :=
  Forall (fun c => RegExp.is_other_syntax c = false) p.

(** The regular expression a pattern of the fragment becomes. *)
Definition compile (p : list ascii) : RegExp.regex :=
  List.map
    (fun c =>
       if RegExp.is_star c then RegExp.Star RegExp.Dot
       else RegExp.One (RegExp.atom_of c))
    p.

(** The test of the URL clause of both [getRequests] and [getResponses],
    [new RegExp(u.replace(/\*/g, '.*')).test(url)], as far as the fragment
    decides it: [None] for a pattern that the rewriting does not take into
    the fragment, whose test is the engine's. *)
Definition url_clause (pattern url : string) : option bool :=
  option_map (fun test => test url)
    (Network.url_pattern RegExp.fragment_only pattern).

End UrlFilter.

(** ** The pending wait behind [waitForResponse]

    [waitForResponse] hands the pattern and a timeout to the driver's
    [page.waitForResponse] and takes what comes back.  The race between the
    response events and the timer is the driver's; it is described here as
    the specification describes a pending wait. *)

Module PendingWait.

(** A response event of the page, with the time of its arrival in
    milliseconds after the wait was registered.  Events are listed in the
    order of their arrival. *)
Definition Event : Type := (Z * Network.Response)%type.

(** Modelled from the spec: the events that may resolve a pending wait.
    The driver is not among the sources; the specification says that a
    pending wait is "resolved by the first RequestLog event matching the
    predicate at or before the deadline".  [matches] is the reading of the
    URL pattern, which is the driver's too. *)
Definition in_time (matches : string -> string -> bool) (pattern : string)
    (deadline : Z) (e : Event) : bool :=
  matches pattern (Network.resp_url e.2) && (e.1 <=? deadline)%Z.

(** Modelled from the spec: the settlement of [page.waitForResponse].  The
    driver is not among the sources; the specification says that a pending
    wait is "resolved by the first RequestLog event matching the predicate
    at or before the deadline; otherwise rejects with a timeout at the
    deadline".  [timeout_error] is the value of that rejection. *)
Definition page_waitForResponse (matches : string -> string -> bool)
    (timeout_error : JS.Thrown) (events : list Event)
    (pattern : string) (deadline : Z) : JS.Settled Network.Response :=
  match List.find (in_time matches pattern deadline) events with
  | Some e => JS.Resolves e.2
  | None => JS.Rejects timeout_error
  end.

End PendingWait.

(** ** The statements of the specification, in its own words

    The definitions of this module follow the text of the specification, not
    the code; the theorems compare them with the code. *)

Module Spec.

(** "glob string where [*] matches within a path segment and [**] matches
    across segments". *)
Inductive glob_token : Type :=
| GChar (c : ascii)
| GSegment
| GAcross.

Fixpoint glob_tokens (p : list ascii) : list glob_token :=
  match p with
  | [] => []
  | c :: rest =>
      if Ascii.eqb c "*" then
        match rest with
        | d :: rest' =>
            if Ascii.eqb d "*" then GAcross :: glob_tokens rest'
            else GSegment :: glob_tokens rest
        | [] => [GSegment]
        end
      else GChar c :: glob_tokens rest
  end.

(** Do the tokens describe a prefix of [s]? With [whole], all of [s]. *)
Fixpoint glob_here (whole : bool) (ts : list glob_token) (s : list ascii) : bool :=
  match ts with
  | [] => if whole then match s with [] => true | _ => false end else true
  | GChar c :: ts' =>
      match s with
      | d :: s' => Ascii.eqb c d && glob_here whole ts' s'
      | [] => false
      end
  | GSegment :: ts' =>
      (fix run (s : list ascii) : bool :=
         glob_here whole ts' s ||
         match s with
         | d :: s' => negb (Ascii.eqb d "/") && run s'
         | [] => false
         end) s
  | GAcross :: ts' =>
      (fix run (s : list ascii) : bool :=
         glob_here whole ts' s ||
         match s with
         | d :: s' => run s'
         | [] => false
         end) s
  end.

(** The glob describes the whole URL. *)
Definition glob_match (pattern url : string) : bool :=
  glob_here true (glob_tokens (list_ascii_of_string pattern))
    (list_ascii_of_string url).

(** The glob describes some part of the URL. *)
Fixpoint glob_search_list (ts : list glob_token) (s : list ascii) : bool :=
  glob_here false ts s ||
  match s with
  | _ :: s' => glob_search_list ts s'
  | [] => false
  end.

Definition glob_search (pattern url : string) : bool :=
  glob_search_list (glob_tokens (list_ascii_of_string pattern))
    (list_ascii_of_string url).

(** The sentence on the pattern syntax, for the URL filters: what the
    filter accepts, the glob finds. *)
Definition star_stays_in_segment : Prop :=
  forall pattern url,
    UrlFilter.url_clause pattern url = Some true ->
    glob_search pattern url = true.

(** "the entries satisfying every filter clause (URL glob AND method AND
    resourceType)": a clause that the filter supplies has to hold.  The URL
    clause is a parameter, the other two are comparisons of strings. *)
Definition satisfies_every_clause (url_ok : string -> string -> bool)
    (f : Network.RequestFilter) (r : Network.Request) : bool :=
  match Network.filter_url f with
  | Some u => url_ok u (Network.req_url r)
  | None => true
  end
  && match Network.filter_method f with
     | Some m =>
         bool_decide (JS.toUpperCase (Network.req_method r) = JS.toUpperCase m)
     | None => true
     end
  && match Network.filter_resourceType f with
     | Some t => bool_decide (Network.req_resourceType r = t)
     | None => true
     end.

(** "fulfill short-circuits with a synthetic response (status, body,
    headers, optional content-type merged into headers)": whenever the
    decision carries a [contentType], the headers of the response have it
    as their [content-type] entry. *)
Definition content_type_merged : Prop :=
  forall h f ct,
    JS.truthy_bool (Network.h_abort h) = false ->
    Network.h_fulfill h = Some f ->
    Network.ful_contentType f = Some ct ->
    exists options,
      (Network.route_callback h).1 = Network.RouteFulfill options /\
      Network.ful_headers options
      = Some (<["content-type" := ct]> (default ∅ (Network.ful_headers f))).


(** "dispatch applies the descriptor's declared policy uniformly ...
    regardless of handler internals": what follows the action of a tool does
    not depend on the arguments of the call. *)
Definition policy_fixed_per_tool : Prop :=
  forall captureSnapshot c1 c2 f1 f2,
    Dispatch.tool_of c1 = Dispatch.tool_of c2 ->
    Dispatch.handle_flags captureSnapshot c1 = Some f1 ->
    Dispatch.handle_flags captureSnapshot c2 = Some f2 ->
    f1 = f2.

(** What the specification promises of a wait. *)
Inductive WaitOutcome : Type :=
| Matched (response : Network.Response)
| TimedOut.

(** "[waitFor('response', pattern, timeout)] resolves with the first response
    whose URL matches [pattern] arriving before [timeout] elapses, and
    rejects with [TimeoutError] if none arrives in time". *)
Definition waitFor (matches : string -> string -> bool) (pattern : string)
    (timeout : Z) (events : list PendingWait.Event) : WaitOutcome :=
  match List.find (PendingWait.in_time matches pattern timeout) events with
  | Some e => Matched e.2
  | None => TimedOut
  end.

(** The sentence of the specification, for the tool: for every pattern and
    every timeout, the tool resolves with the response the specification
    names and fails when the specification says the wait timed out. *)
Definition wait_honours_every_timeout : Prop :=
  forall matches message events pattern timeout,
    JS.includes message "Timeout" = true ->
    match waitFor matches pattern timeout events with
    | Matched response =>
        exists info,
          Network.waitForResponse
            (PendingWait.page_waitForResponse matches (JS.ErrorWith message) events)
            (Network.mkWaitParams pattern (Some timeout))
          = inr info /\
          Network.rsi_url info = Network.resp_url response
    | TimedOut =>
        exists error,
          Network.waitForResponse
            (PendingWait.page_waitForResponse matches (JS.ErrorWith message) events)
            (Network.mkWaitParams pattern (Some timeout))
          = inl error
    end.

End Spec.

(** ** Concrete inputs used in the examples *)

Module Examples.

(** A log in the shape of the one the repository's test of [getRequests]
    produces: two GET requests under [/api/] and a POST elsewhere. *)
Definition get_request (url : string) : Network.Request * option Network.Response :=
  (Network.mkRequest url "GET" ∅ None "fetch" false, None).

Definition post_request (url body : string)
    : Network.Request * option Network.Response :=
  (Network.mkRequest url "POST" ∅ (Some body) "fetch" false, None).

Definition api_log : Network.RequestLog :=
  [get_request "http://h/api/endpoint1";
   post_request "http://h/other/endpoint" "test";
   get_request "http://h/api/endpoint2"].

Definition one_get_log : Network.RequestLog := [get_request "http://h/a"].

(** The filter [{ url: '*/api/*', method: 'get' }]. *)
Definition api_get_filter : option Network.RequestFilter :=
  Some (Network.mkRequestFilter (Some "*/api/*") (Some "get") None).

Definition nested_log : Network.RequestLog :=
  [get_request "http://h/api/x/y/items"].

(** The filter [{ url: '/api/*/items' }]. *)
Definition segment_filter : Network.RequestFilter :=
  Network.mkRequestFilter (Some "/api/*/items") None None.

(** The filter [{ method: '' }]. *)
Definition empty_method_filter : Network.RequestFilter :=
  Network.mkRequestFilter None (Some EmptyString) None.

(** [{ status: 200, body: '{}', contentType: 'application/json' }]. *)
Definition json_fulfill : Network.FulfillParams :=
  Network.mkFulfill (Some 200%Z) (Some "{}") None (Some "application/json").

(** [{ status: 200, body: '{}', contentType: '' }]. *)
Definition blank_type_fulfill : Network.FulfillParams :=
  Network.mkFulfill (Some 200%Z) (Some "{}") None (Some EmptyString).

Definition not_found_fulfill : Network.FulfillParams :=
  Network.mkFulfill (Some 404%Z) None None None.

Definition redirect_continue : Network.ContinueParams :=
  Network.mkContinue (Some "http://h/other") None None None.

(** A page with a main frame and one named child frame. *)
Definition main_frame : Frames.Frame := Frames.mkFrame 0 EmptyString "http://h/" None.

Definition inner_frame : Frames.Frame :=
  Frames.mkFrame 1 "inner" "http://h/inner" (Some 0%nat).

Definition two_frame_page : Frames.Page :=
  Frames.mkPage [main_frame; inner_frame] main_frame
    (fun n =>
       List.find (fun f => bool_decide (Frames.frame_name f = n))
         [main_frame; inner_frame])
    (fun _ => None)
    (fun _ => None).

Definition fresh_tab : Frames.Tab := Frames.mkTab two_frame_page None.

Definition switch_by_name : Frames.SwitchParams :=
  Frames.mkSwitchParams None (Some "inner") None None.

Definition evaluate_no_frame : Frames.EvaluateParams :=
  Frames.mkEvaluateParams "return document.title" None None None None.


Definition delayed_wait : Network.WaitParams :=
  Network.mkWaitParams "**/api/delayed" (Some 5000%Z).

(** No tools in the modules that are not among the sources. *)
Definition no_other_modules : Tools.OtherModules :=
  Tools.mkOtherModules (fun _ => []) [] (fun _ => []) (fun _ => []) []
    (fun _ => []) (fun _ => []) [] [] [] (fun _ => []) [] [] (fun _ => []).

Definition wait_networkidle : Dispatch.ToolCall :=
  Dispatch.CallWaitForLoadState
    (Waiting.mkLoadStateParams (Some Waiting.networkidle) None).

Definition wait_load : Dispatch.ToolCall :=
  Dispatch.CallWaitForLoadState
    (Waiting.mkLoadStateParams (Some Waiting.load) None).

Definition script_from_url : Dispatch.ScriptTagParams :=
  Dispatch.mkScriptTagParams (Some "http://h/a.js") None None None.

(** The test of the regular expression [search?q=1]: the letters [searc],
    an optional [h], then [q=1]. *)
Definition query_test (s : string) : bool :=
  JS.includes s "searchq=1" || JS.includes s "searcq=1".

(** What the engine makes of the one source outside the fragment that the
    examples use, [search?q=1]; the examples ask it for no other source. *)
Definition sample_engine : RegExp.Beyond :=
  fun src =>
    if bool_decide (src = list_ascii_of_string "search?q=1")
    then Some query_test
    else None.

(** The filter [{ url: 'search?q=1', method: 'get' }]. *)
Definition query_filter : option Network.RequestFilter :=
  Some (Network.mkRequestFilter (Some "search?q=1") (Some "get") None).

Definition query_log : Network.RequestLog :=
  [get_request "http://h/search?q=1";
   get_request "http://h/searchq=1";
   post_request "http://h/searcq=1" "test"].

End Examples.

(** ** Cookie tools ([src/tools/storage.ts]) *)

Module Cookies.

Inductive SameSite : Type := Strict | Lax | NoSameSite.

(** A cookie as the driver's [context.cookies()] returns it. *)
Record Cookie : Type := mkCookie {
  c_name : string;
  c_value : string;
  c_domain : string;
  c_path : string;
  c_expires : Z;
  c_httpOnly : bool;
  c_secure : bool;
  c_sameSite : SameSite
}.

(** A cookie as [setCookies] takes it. *)
Record CookieParam : Type := mkCookieParam {
  cp_name : string;
  cp_value : string;
  cp_domain : option string;
  cp_path : option string;
  cp_expires : option Z;
  cp_httpOnly : option bool;
  cp_secure : option bool;
  cp_sameSite : option SameSite
}.

Record GetParams : Type := mkGetParams {
  get_urls : option (list string);
  get_name : option string;
  get_domain : option string
}.

Record DeleteParams : Type := mkDeleteParams {
  del_name : option string;
  del_domain : option string;
  del_path : option string;
  del_all : option bool
}.

(** [c.domain === d || c.domain === `.${d}`]. *)
Definition domain_matches (d : string) (c : Cookie) : bool :=
  bool_decide (c_domain c = d) || bool_decide (c_domain c = "." +:+ d).

(** [if (x) cookies = cookies.filter(pred)] for an optional string [x]. *)
Definition filter_if {A : Type} (o : option string)
    (pred : string -> A -> bool) (l : list A) : list A :=
  match JS.truthy_str o with
  | Some x => List.filter (pred x) l
  | None => l
  end.

(** The action of [getCookies]; [context_cookies] is the driver's
    [context().cookies(urls)]. *)
Definition getCookies (context_cookies : option (list string) -> list Cookie)
    (params : GetParams) : list Cookie :=
  let cookies := context_cookies (get_urls params) in
  let cookies :=
    filter_if (get_name params)
      (fun n c => bool_decide (c_name c = n)) cookies in
  let cookies := filter_if (get_domain params) domain_matches cookies in
  cookies.

(** The calls a tool makes on the driver's browser context. *)
Inductive ContextCall : Type :=
| ClearCookies
| AddCookies (cookies : list Cookie).

(** The action of [setCookies]: the cookies handed to [addCookies] and the
    text returned. *)
Definition setCookies (cookies : list CookieParam) : list CookieParam * string :=
  (cookies,
   "Set " +:+ JS.num_to_string (Z.of_nat (length cookies)) +:+ " cookie(s)").

(** The cookie objects of one [context().cookies()] answer, each with its
    place in the answer for identity: [toDelete.includes(c)] compares
    objects, not their contents. *)
Definition objects (allCookies : list Cookie) : list (nat * Cookie) :=
  imap pair allCookies.

(** [toDelete.includes(c)]. *)
Definition includes_object (toDelete : list (nat * Cookie)) (c : nat * Cookie)
    : bool :=
  existsb (fun d => Nat.eqb d.1 c.1) toDelete.

(** The cookies [deleteCookies] selects when [all] is not set. *)
Definition to_delete (params : DeleteParams) (allCookies : list Cookie)
    : list (nat * Cookie) :=
  let toDelete := objects allCookies in
  let toDelete :=
    filter_if (del_name params)
      (fun n c => bool_decide (c_name c.2 = n)) toDelete in
  let toDelete :=
    filter_if (del_domain params) (fun d c => domain_matches d c.2) toDelete in
  let toDelete :=
    filter_if (del_path params)
      (fun p c => bool_decide (c_path c.2 = p)) toDelete in
  toDelete.

(** The action of [deleteCookies]; [allCookies] is what the driver's
    [context().cookies()] answers.  The result is the calls made on the
    context, in order, and the text returned. *)
Definition deleteCookies (allCookies : list Cookie) (params : DeleteParams)
    : list ContextCall * string :=
  if JS.truthy_bool (del_all params) then ([ClearCookies], "Deleted all cookies")
  else
    let toDelete := to_delete params allCookies in
    let calls :=
      if (0 <? length toDelete)%nat then
        let toKeep :=
          List.filter (fun c => negb (includes_object toDelete c))
            (objects allCookies) in
        ClearCookies ::
        (if (0 <? length toKeep)%nat then [AddCookies (snd <$> toKeep)] else [])
      else [] in
    (calls,
     "Deleted " +:+ JS.num_to_string (Z.of_nat (length toDelete)) +:+ " cookie(s)").

(** Does a cookie meet every criterion that [deleteCookies] was given? *)
Definition selected (params : DeleteParams) (c : Cookie) : bool :=
  match JS.truthy_str (del_name params) with
  | Some n => bool_decide (c_name c = n)
  | None => true
  end
  && match JS.truthy_str (del_domain params) with
     | Some d => domain_matches d c
     | None => true
     end
  && match JS.truthy_str (del_path params) with
     | Some p => bool_decide (c_path c = p)
     | None => true
     end.

End Cookies.

(** ** [listFrames] ([src/tools/frameManagement.ts]) *)

Module FrameListing.

(** One element of the array [listFrames] returns.  [frame_id] stands for
    the identity of a frame object and [frame_parent] holds the identity of
    the parent frame. *)
Record FrameInfo : Type := mkFrameInfo {
  fi_index : nat;
  fi_url : string;
  fi_name : string;
  fi_isMain : bool;
  fi_isDetached : bool;
  fi_parentFrame : option Z
}.

(** [frames.indexOf(parent)]: the first place of the object, or [-1]. *)
Fixpoint index_of (frames : list Frames.Frame) (id : nat) : Z :=
  match frames with
  | [] => (-1)%Z
  | f :: rest =>
      if Nat.eqb (Frames.frame_id f) id then 0%Z
      else
        let r := index_of rest id in
        if (r <? 0)%Z then (-1)%Z else (r + 1)%Z
  end.

(** The action of [listFrames]; [is_detached] is the driver's
    [frame.isDetached()]. *)
Definition listFrames (is_detached : Frames.Frame -> bool) (tab : Frames.Tab)
    : list FrameInfo :=
  let frames := Frames.page_frames (Frames.tab_page tab) in
  imap
    (fun index frame =>
       {| fi_index := index;
          fi_url := Frames.frame_url frame;
          fi_name := JS.str_or (Some (Frames.frame_name frame)) EmptyString;
          fi_isMain :=
            Nat.eqb (Frames.frame_id frame)
              (Frames.frame_id (Frames.page_mainFrame (Frames.tab_page tab)));
          fi_isDetached := is_detached frame;
          fi_parentFrame :=
            match Frames.frame_parent frame with
            | Some parent => Some (index_of frames parent)
            | None => None
            end |})
    frames.

(** The arguments of [switchToFrame] that name a frame by its index only. *)
Definition by_index (i : Z) : Frames.SwitchParams :=
  Frames.mkSwitchParams None None None (Some i).

End FrameListing.

(** ** The clauses of [getResponses], taken together *)

Module Responses.

(** The URL clause of a response filter after [new RegExp]: [Some None] when
    the filter has no URL to test, [None] when the constructor throws. *)
Definition compiled_url_clause (beyond : RegExp.Beyond)
    (filter : option Network.ResponseFilter) : option (option (string -> bool)) :=
  match JS.truthy_str (filter ≫= Network.rfilter_url) with
  | Some u => option_map Some (Network.url_pattern beyond u)
  | None => Some None
  end.

(** [status >= min && status <= max]. *)
Definition in_range (rg : Network.StatusRange) (r : Network.Response) : bool :=
  (Network.range_min rg <=? Network.resp_status r)%Z
  && (Network.resp_status r <=? Network.range_max rg)%Z.

(** The three callbacks given to [responses.filter], taken together. *)
Definition response_passes (filter : option Network.ResponseFilter)
    (pattern : option (string -> bool)) (r : Network.Response) : bool :=
  match pattern with
  | Some test => test (Network.resp_url r)
  | None => true
  end
  && match JS.truthy_num (filter ≫= Network.rfilter_status) with
     | Some s => bool_decide (Network.resp_status r = s)
     | None => true
     end
  && match filter ≫= Network.rfilter_statusRange with
     | Some rg => in_range rg r
     | None => true
     end.

End Responses.

(** ** One turn of the loop of [removeKeys] *)

Module StorageSteps.

(** [if (storage.getItem(key) !== null) { storage.removeItem(key); count++; }]
    on the area and the count so far. *)
Definition remove_step (acc : Storage.Area * nat) (k : string)
    : Storage.Area * nat :=
  let '(st, count) := acc in
  match Storage.getItem st k with
  | Some _ => (Storage.removeItem st k, S count)
  | None => (st, count)
  end.

End StorageSteps.

(** ** Further concrete inputs *)

Module Samples.

Definition cookie (name domain path : string) : Cookies.Cookie :=
  Cookies.mkCookie name "v" domain path (-1) false false Cookies.Lax.

Definition jar : list Cookies.Cookie :=
  [cookie "keep_this" "h" "/"; cookie "delete_this" "h" "/";
   cookie "delete_this" ".h" "/app"].

Definition delete_by_name : Cookies.DeleteParams :=
  Cookies.mkDeleteParams (Some "delete_this") None None None.

Definition delete_by_name_and_domain : Cookies.DeleteParams :=
  Cookies.mkDeleteParams (Some "delete_this") (Some "h") None None.

Definition delete_nothing_named : Cookies.DeleteParams :=
  Cookies.mkDeleteParams None None None None.

(** [frameEvaluate] with an index and nothing else. *)
Definition evaluate_at (i : Z) : Frames.EvaluateParams :=
  Frames.mkEvaluateParams "return 1" None None (Some i) None.

Definition never_detached (f : Frames.Frame) : bool := false.

Definition selector_and_name : Frames.SwitchParams :=
  Frames.mkSwitchParams (Some "iframe") (Some "inner") None (Some 0%Z).

Definition response (url : string) (status : Z) : Network.Response :=
  Network.mkResponse url status EmptyString ∅ (bool_decide (200 <= status < 300)%Z)
    (JS.Resolves "body").

(** A response whose body cannot be read. *)
Definition unread_response (url : string) (status : Z) : Network.Response :=
  Network.mkResponse url status EmptyString ∅ (bool_decide (200 <= status < 300)%Z)
    (JS.Rejects (JS.ErrorWith "Response body is unavailable")).

Definition answered_log : Network.RequestLog :=
  [(Network.mkRequest "http://h/success" "GET" ∅ None "fetch" false,
    Some (response "http://h/success" 200));
   (Network.mkRequest "http://h/pending" "GET" ∅ None "fetch" false, None);
   (Network.mkRequest "http://h/notfound" "GET" ∅ None "fetch" false,
    Some (response "http://h/notfound" 404));
   (Network.mkRequest "http://h/error" "GET" ∅ None "fetch" false,
    Some (response "http://h/error" 500))].

(** The filter [{ statusRange: { min: 400, max: 599 } }]. *)
Definition error_range_filter : option Network.ResponseFilter :=
  Some (Network.mkResponseFilter None None (Some (Network.mkStatusRange 400 599))).

(** The filter [{ statusRange: { min: 599, max: 400 } }]. *)
Definition inverted_range_filter : Network.ResponseFilter :=
  Network.mkResponseFilter None None (Some (Network.mkStatusRange 599 400)).

Definition post_filter (method : string) : Network.RequestFilter :=
  Network.mkRequestFilter None (Some method) None.

Definition stocked_page : Storage.PageStorage :=
  Storage.mkPageStorage [("a", "1"); ("b", "2"); ("c", "3")] [("s", "0")].

(** A driver that takes a pattern for matched when the URL contains what
    follows the first two characters of the pattern, which is how the glob
    [**/x] reads on the URLs of the samples. *)
Definition matches_tail (pattern url : string) : bool :=
  JS.includes url (String.substring 2 (String.length pattern - 2) pattern).

(** Responses arriving 10 ms, 40 ms and 6000 ms after a wait was
    registered. *)
Definition arrivals : list PendingWait.Event :=
  [(10%Z, response "http://h/other" 200);
   (40%Z, response "http://h/x" 200);
   (6000%Z, response "http://h/x" 404)].

(** [waitForResponse] with the pattern [**/x]. *)
Definition wait_for_x (timeout : option Z) : Network.WaitParams :=
  Network.mkWaitParams "**/x" timeout.

End Samples.

(** * Theorems *)

(** ** Strings *)


Lemma includes_prefix (hay needle : string) :
  String.prefix needle hay = true -> JS.includes hay needle = true.
Proof. intros H. destruct hay; simpl in *; rewrite H; reflexivity. Qed.

Lemma includes_skip (pre hay needle : string) :
  JS.includes hay needle = true -> JS.includes (pre +:+ hay) needle = true.
Proof.
  intros H. induction pre as [|c pre IH]; simpl; [exact H|].
  rewrite IH. apply orb_true_r.
Qed.


Lemma includes_suffix (pre s : string) : JS.includes (pre +:+ s) s = true.
Proof.
  apply includes_skip, includes_prefix.
  induction s as [|c s IH]; simpl; [reflexivity|].
  destruct (ascii_dec c c) as [_|Hne]; [exact IH | by destruct Hne].
Qed.

Lemma rethrow_timeout_hit (msg m : string) :
  JS.includes m "Timeout" = true ->
  JS.rethrow_timeout msg (JS.ErrorWith m) = JS.ErrorWith msg.
Proof. intros H. unfold JS.rethrow_timeout. by rewrite H. Qed.

(** ** Regular expressions of the URL filters *)

Section RegExpFacts.

Import RegExp UrlFilter.

Lemma match_here_star (a : atom) (re : regex) (s : list ascii) :
  match_here (Star a :: re) s
  = match_here re s
    || match s with
       | c :: s' => atom_matches a c && match_here (Star a :: re) s'
       | [] => false
       end.
Proof. destruct s; reflexivity. Qed.

Lemma match_here_star_spec (a : atom) (re : regex) (s : list ascii) :
  match_here (Star a :: re) s = true <->
  exists run rest,
    s = run ++ rest /\ Forall (fun c => atom_matches a c = true) run /\
    match_here re rest = true.
Proof.
  induction s as [|c s IH]; rewrite match_here_star.
  - rewrite orb_false_r. split.
    + intros H. exists [], []. auto.
    + intros (run & rest & Hs & _ & H).
      symmetry in Hs. apply app_eq_nil in Hs as [_ ->]. exact H.
  - rewrite orb_true_iff, andb_true_iff, IH. split.
    + intros [H | [Hc (run & rest & -> & Hrun & H)]].
      * exists [], (c :: s). auto.
      * exists (c :: run), rest. auto.
    + intros (run & rest & Hs & Hrun & H). destruct run as [|d run].
      * left. simpl in Hs. by subst rest.
      * right. simpl in Hs. injection Hs as -> ->.
        apply Forall_cons in Hrun as [Hd Hrun]. eauto 6.
  Qed.

Lemma test_list_spec (re : regex) (s : list ascii) :
  test_list re s = true <->
  exists before rest, s = before ++ rest /\ match_here re rest = true.
Proof.
  induction s as [|c s IH]; simpl.
  - rewrite orb_false_r. split.
    + intros H. by exists [], [].
    + intros (before & rest & Hs & H).
      symmetry in Hs. apply app_eq_nil in Hs as [_ ->]. exact H.
  - rewrite orb_true_iff, IH. split.
    + intros [H | (before & rest & -> & H)].
      * by exists [], (c :: s).
      * by exists (c :: before), rest.
    + intros (before & rest & Hs & H). destruct before as [|d before].
      * left. simpl in Hs. by subst rest.
      * right. simpl in Hs. injection Hs as -> ->. eauto.
Qed.

Lemma is_star_true (c : ascii) : is_star c = true -> c = "*"%char.
Proof. unfold is_star. apply Ascii.eqb_eq. Qed.

Lemma is_dot_true (c : ascii) : is_dot c = true -> c = "."%char.
Proof. unfold is_dot. apply Ascii.eqb_eq. Qed.

Lemma replace_star_head (p : list ascii) :
  match JS.replace_star p with
  | q :: _ => is_star q = false
  | [] => True
  end.
Proof.
  destruct p as [|c p]; simpl; [exact I|].
  destruct (Ascii.eqb c "*") eqn:E; [reflexivity | exact E].
Qed.

Lemma parse_replace_star (p : list ascii) :
  in_fragment p -> parse (JS.replace_star p) = Some (compile p).
Proof.
  induction 1 as [|c p Hc Hp IH]; [reflexivity|].
  simpl. fold (is_star c). destruct (is_star c) eqn:Estar.
  - simpl. fold (JS.replace_star p). rewrite IH. reflexivity.
  - pose proof (replace_star_head p) as Hhead.
    cbn [parse]. rewrite Estar, Hc. simpl.
    destruct (JS.replace_star p) as [|q rest] eqn:Erep.
    + destruct p as [|d p']; [reflexivity|].
      simpl in Erep. destruct (Ascii.eqb d "*"); discriminate.
    + rewrite Hhead, IH. reflexivity.
Qed.

Lemma match_here_compile (p s : list ascii) :
  match_here (compile p) s = true <->
  exists body rest, s = body ++ rest /\ filter_glob p body.
Proof.
  revert s. induction p as [|c p IH]; intros s.
  - simpl. split; [|done]. intros _. exists [], s. split; [done | constructor].
  - cbn [compile List.map]. fold (compile p).
    destruct (is_star c) eqn:Estar.
    + apply is_star_true in Estar as ->.
      rewrite match_here_star_spec. split.
      * intros (run & rest & -> & Hrun & H).
        apply IH in H as (body & rest' & -> & Hbody).
        exists (run ++ body), rest'. rewrite <- app_assoc. split; [done|].
        constructor; [|done]. eapply Forall_impl; [exact Hrun|].
        intros d Hd. unfold not_terminator. simpl in Hd.
        by apply negb_true_iff in Hd.
      * intros (body & rest & -> & Hbody).
        inversion Hbody as [|p' run s' Hrun Hs'|p' d s' Hd Hs'|p' d s' H1 H2 Hs']; subst.
        -- exists run, (s' ++ rest). rewrite <- app_assoc. split; [done|]. split.
           ++ eapply Forall_impl; [exact Hrun|]. intros d Hd. simpl.
              by apply negb_true_iff.
           ++ apply IH. eauto.
        -- discriminate H1.
    + unfold atom_of. destruct (is_dot c) eqn:Edot.
      * apply is_dot_true in Edot as ->. simpl. split.
        -- destruct s as [|d s]; [done|]. rewrite andb_true_iff.
           intros [Hd H]. apply IH in H as (body & rest & -> & Hbody).
           exists (d :: body), rest. split; [done|].
           apply fg_dot; [|done]. by apply negb_true_iff in Hd.
        -- intros (body & rest & -> & Hbody).
           inversion Hbody as [|p' run s' Hrun Hs'|p' d s' Hd Hs'|p' d s' H1 H2 Hs']; subst.
           ++ simpl. rewrite andb_true_iff. split.
              ** by apply negb_true_iff.
              ** apply IH. eauto.
           ++ discriminate H2.
      * simpl. split.
        -- destruct s as [|d s]; [done|]. rewrite andb_true_iff.
           intros [Hd H]. apply Ascii.eqb_eq in Hd as <-.
           apply IH in H as (body & rest & -> & Hbody).
           exists (c :: body), rest. split; [done|]. by apply fg_char.
        -- intros (body & rest & -> & Hbody).
           inversion Hbody as [|p' run s' Hrun Hs'|p' d s' Hd Hs'|p' d s' H1 H2 Hs']; subst.
           ++ discriminate Estar.
           ++ discriminate Edot.
           ++ simpl. rewrite Ascii.eqb_refl. simpl. apply IH. eauto.
Qed.

Lemma test_compile (p u : list ascii) :
  test_list (compile p) u = true <-> occurs_in p u.
Proof.
  rewrite test_list_spec. unfold occurs_in. split.
  - intros (before & rest & -> & H).
    apply match_here_compile in H as (body & after & -> & Hbody). eauto.
  - intros (before & body & after & -> & Hbody).
    exists before, (body ++ after). split; [done|].
    apply match_here_compile. eauto.
Qed.

End RegExpFacts.

(** ** URL filters: what [*] matches (C6) *)

Lemma double_star_is_star (p body : list ascii) :
  UrlFilter.filter_glob ("*"%char :: "*"%char :: p) body <->
  UrlFilter.filter_glob ("*"%char :: p) body.
Proof.
  split; intros H.
  - inversion H as [|p1 run1 s1 Hrun1 H1| |]; subst; [|discriminate].
    inversion H1 as [|p2 run2 s2 Hrun2 H2| |]; subst; [|discriminate].
    rewrite app_assoc. constructor; [|done]. by apply Forall_app.
  - inversion H as [|p1 run1 s1 Hrun1 H1| |]; subst; [|discriminate].
    constructor; [done|]. apply (UrlFilter.fg_star _ [] _); [constructor | done].
Qed.

Lemma url_clause_fragment (pattern url : string) :
  UrlFilter.in_fragment (list_ascii_of_string pattern) ->
  UrlFilter.url_clause pattern url
  = Some (RegExp.test (UrlFilter.compile (list_ascii_of_string pattern)) url).
Proof.
  intros H. unfold UrlFilter.url_clause, Network.url_pattern, RegExp.new_RegExp.
  by rewrite parse_replace_star.
Qed.

(** Inside the fragment the rest of the engine is not asked. *)
Lemma url_pattern_fragment (beyond : RegExp.Beyond) (pattern : string) :
  UrlFilter.in_fragment (list_ascii_of_string pattern) ->
  Network.url_pattern beyond pattern
  = Some (RegExp.test (UrlFilter.compile (list_ascii_of_string pattern))).
Proof.
  intros H. unfold Network.url_pattern, RegExp.new_RegExp.
  by rewrite parse_replace_star.
Qed.

(** What the fragment decides holds with every engine. *)
Lemma url_clause_any_engine (beyond : RegExp.Beyond) (pattern url : string)
    (b : bool) :
  UrlFilter.url_clause pattern url = Some b ->
  exists test, Network.url_pattern beyond pattern = Some test /\ test url = b.
Proof.
  unfold UrlFilter.url_clause, Network.url_pattern, RegExp.new_RegExp,
    RegExp.fragment_only.
  destruct (RegExp.parse _) as [re|]; [|discriminate].
  simpl. intros [= <-]. eauto.
Qed.

Lemma bool_decide_Some_true (b : bool) : bool_decide (Some b = Some true) = b.
Proof. destruct b; reflexivity. Qed.

Lemma bool_filter_ext {A : Type} (p q : A -> bool) (l : list A) :
  (forall x, p x = q x) -> List.filter p l = List.filter q l.
Proof.
  intros H. induction l as [|x l IH]; [reflexivity|]. simpl. by rewrite H, IH.
Qed.

Lemma bool_filter_all {A : Type} (p : A -> bool) (l : list A) :
  (forall x, p x = true) -> List.filter p l = l.
Proof.
  intros H. induction l as [|x l IH]; [reflexivity|]. simpl. by rewrite H, IH.
Qed.

Lemma url_clause_empty (url : string) :
  UrlFilter.url_clause EmptyString url = Some true.
Proof.
  unfold UrlFilter.url_clause, Network.url_pattern, RegExp.new_RegExp,
    RegExp.test.
  simpl. by destruct (list_ascii_of_string url).
Qed.

(** A filter with a URL clause alone keeps the entries whose URL the clause
    accepts. *)
Lemma getRequests_by_url (beyond : RegExp.Beyond) (pattern : string)
    (log : Network.RequestLog) :
  UrlFilter.in_fragment (list_ascii_of_string pattern) ->
  Network.getRequests_entries beyond
    (Some (Network.mkRequestFilter (Some pattern) None None)) log
  = Some (List.filter
            (fun e =>
               bool_decide
                 (UrlFilter.url_clause pattern (Network.req_url e.1) = Some true))
            log).
Proof.
  intros H. unfold Network.getRequests_entries. simpl.
  destruct (decide (pattern = EmptyString)) as [->|Hne].
  - f_equal. symmetry. apply bool_filter_all. intros e.
    by rewrite url_clause_empty.
  - rewrite url_pattern_fragment by done.
    f_equal. apply bool_filter_ext. intros e.
    rewrite url_clause_fragment by done. by rewrite bool_decide_Some_true.
Qed.

Lemma getResponses_by_url (beyond : RegExp.Beyond) (pattern : string)
    (log : Network.RequestLog) :
  UrlFilter.in_fragment (list_ascii_of_string pattern) ->
  Network.getResponses beyond
    (Some (Network.mkResponseFilter (Some pattern) None None)) log
  = Some (List.filter
            (fun r =>
               bool_decide
                 (UrlFilter.url_clause pattern (Network.resp_url r) = Some true))
            (Network.collect_responses log)).
Proof.
  intros H. unfold Network.getResponses. simpl.
  destruct (decide (pattern = EmptyString)) as [->|Hne].
  - f_equal. symmetry. apply bool_filter_all. intros e.
    by rewrite url_clause_empty.
  - rewrite url_pattern_fragment by done.
    f_equal. apply bool_filter_ext. intros e.
    rewrite url_clause_fragment by done. by rewrite bool_decide_Some_true.
Qed.

(** C6, as the specification has it, fails on the URL filters: the filter
    [/api/*/items] accepts a URL in which two path segments stand where the
    [*] is, and a glob whose [*] stays inside a segment finds nothing in
    that URL, neither as a whole nor in a part of it. *)
Lemma star_crosses_segments :
  UrlFilter.url_clause "/api/*/items" "http://h/api/x/y/items" = Some true /\
  Spec.glob_search "/api/*/items" "http://h/api/x/y/items" = false /\
  Spec.glob_match "/api/*/items" "http://h/api/x/y/items" = false /\
  ~ Spec.star_stays_in_segment.
Proof.
  assert (Hc : UrlFilter.url_clause "/api/*/items" "http://h/api/x/y/items"
               = Some true) by reflexivity.
  assert (Hs : Spec.glob_search "/api/*/items" "http://h/api/x/y/items" = false)
    by reflexivity.
  repeat split; try reflexivity.
  intros H. apply H in Hc. rewrite Hs in Hc. discriminate.
Qed.

(** C6, amended.  In the URL filters of [getRequests] and [getResponses] a
    pattern without other syntax characters of regular expressions always
    compiles, and it accepts a URL exactly when the pattern occurs somewhere
    in the URL with every [*] standing for any run of code units other than
    line terminators; [/] may be part of such a run, and [**] means the same
    as [*].  That test is the URL clause of both tools, whatever the engine
    does with the sources outside the fragment.  The pattern of a
    route is not interpreted at all: [route] hands it to the driver as it
    came. *)
Theorem url_filter_star_matches_any_run (pattern url : string) :
  UrlFilter.in_fragment (list_ascii_of_string pattern) ->
  (exists b,
     UrlFilter.url_clause pattern url = Some b /\
     (b = true <->
      UrlFilter.occurs_in (list_ascii_of_string pattern)
        (list_ascii_of_string url))) /\
  UrlFilter.not_terminator "/"%char /\
  (forall p body,
     UrlFilter.filter_glob ("*"%char :: "*"%char :: p) body <->
     UrlFilter.filter_glob ("*"%char :: p) body) /\
  (forall beyond log,
     Network.getRequests_entries beyond
       (Some (Network.mkRequestFilter (Some pattern) None None)) log
     = Some (List.filter
               (fun e =>
                  bool_decide
                    (UrlFilter.url_clause pattern (Network.req_url e.1)
                     = Some true))
               log) /\
     Network.getResponses beyond
       (Some (Network.mkResponseFilter (Some pattern) None None)) log
     = Some (List.filter
               (fun r =>
                  bool_decide
                    (UrlFilter.url_clause pattern (Network.resp_url r)
                     = Some true))
               (Network.collect_responses log))) /\
  (forall handler, (Network.route pattern handler).1 = (pattern, handler)).
Proof.
  intros H. split; [|split; [|split; [|split]]].
  - eexists. split; [by apply url_clause_fragment|].
    unfold RegExp.test. apply test_compile.
  - reflexivity.
  - apply double_star_is_star.
  - intros beyond log.
    split; [by apply getRequests_by_url | by apply getResponses_by_url].
  - reflexivity.
Qed.

Lemma url_filter_star_matches_any_run_witness :
  (exists b,
     UrlFilter.url_clause "*/api/*" "http://localhost/api/endpoint1" = Some b /\
     (b = true <->
      UrlFilter.occurs_in (list_ascii_of_string "*/api/*")
        (list_ascii_of_string "http://localhost/api/endpoint1"))) /\
  UrlFilter.not_terminator "/"%char /\
  (forall p body,
     UrlFilter.filter_glob ("*"%char :: "*"%char :: p) body <->
     UrlFilter.filter_glob ("*"%char :: p) body) /\
  (forall beyond log,
     Network.getRequests_entries beyond
       (Some (Network.mkRequestFilter (Some "*/api/*") None None)) log
     = Some (List.filter
               (fun e =>
                  bool_decide
                    (UrlFilter.url_clause "*/api/*" (Network.req_url e.1)
                     = Some true))
               log) /\
     Network.getResponses beyond
       (Some (Network.mkResponseFilter (Some "*/api/*") None None)) log
     = Some (List.filter
               (fun r =>
                  bool_decide
                    (UrlFilter.url_clause "*/api/*" (Network.resp_url r)
                     = Some true))
               (Network.collect_responses log))) /\
  (forall handler,
     (Network.route "*/api/*" handler).1 = ("*/api/*", handler)).
Proof.
  apply (url_filter_star_matches_any_run "*/api/*" "http://localhost/api/endpoint1").
  unfold UrlFilter.in_fragment. simpl. repeat constructor.
Defined.

(** ** [getRequests] (C2) *)

Lemma filter_filter_andb {A : Type} (p q : A -> bool) (l : list A) :
  List.filter q (List.filter p l) = List.filter (fun x => p x && q x) l.
Proof.
  induction l as [|x l IH]; [reflexivity|]. simpl.
  destruct (p x); simpl; [destruct (q x)|]; by rewrite IH.
Qed.

Lemma filter_true {A : Type} (l : list A) : List.filter (fun _ => true) l = l.
Proof. induction l as [|x l IH]; [reflexivity|]. simpl. by rewrite IH. Qed.

Lemma filter_sublist {A : Type} (p : A -> bool) (l : list A) :
  List.filter p l `sublist_of` l.
Proof.
  induction l as [|x l IH]; simpl; [constructor|].
  destruct (p x); by constructor.
Qed.

Lemma elem_of_bool_filter {A : Type} (p : A -> bool) (l : list A) (x : A) :
  x ∈ List.filter p l <-> x ∈ l /\ p x = true.
Proof. rewrite !list_elem_of_In. apply filter_In. Qed.

Lemma getRequests_entries_filter (beyond : RegExp.Beyond)
    (filter : option Network.RequestFilter) (log : Network.RequestLog)
    (pattern : option (string -> bool)) :
  Network.compiled_url_clause beyond filter = Some pattern ->
  Network.getRequests_entries beyond filter log
  = Some (List.filter (Network.entry_passes filter pattern) log).
Proof.
  unfold Network.compiled_url_clause, Network.getRequests_entries,
    Network.entry_passes.
  intros H.
  destruct (JS.truthy_str (filter ≫= Network.filter_url)) as [u|];
    [destruct (Network.url_pattern beyond u) as [re|]; [|discriminate]|];
    injection H as <-;
    destruct (JS.truthy_str (filter ≫= Network.filter_method));
    destruct (JS.truthy_str (filter ≫= Network.filter_resourceType));
    f_equal; rewrite <- (filter_true log) at 1;
    rewrite ?filter_filter_andb; apply bool_filter_ext; intros x; simpl;
    rewrite ?andb_true_r, ?andb_assoc; reflexivity.
Qed.

Lemma compiled_url_clause_fragment (beyond : RegExp.Beyond)
    (filter : Network.RequestFilter) :
  match Network.filter_url filter with
  | Some u => UrlFilter.in_fragment (list_ascii_of_string u)
  | None => True
  end ->
  exists pattern,
    Network.compiled_url_clause beyond (Some filter) = Some pattern.
Proof.
  unfold Network.compiled_url_clause. simpl.
  destruct (Network.filter_url filter) as [u|]; simpl; [|eauto].
  intros H. destruct (decide (u = EmptyString)); [eauto|].
  rewrite url_pattern_fragment by done. simpl. eauto.
Qed.

(** A URL clause that does not compile makes the tool throw, whatever the
    log and the other clauses. *)
Lemma getRequests_throws (beyond : RegExp.Beyond)
    (filter : option Network.RequestFilter) (log : Network.RequestLog) :
  Network.compiled_url_clause beyond filter = None ->
  Network.getRequests beyond filter log = None.
Proof.
  unfold Network.compiled_url_clause, Network.getRequests,
    Network.getRequests_entries.
  destruct (JS.truthy_str (filter ≫= Network.filter_url)) as [u|]; [|discriminate].
  by destruct (Network.url_pattern beyond u).
Qed.

(** C2, as the specification has it, fails on two counts.  The URL clause
    is not a glob: the filter [/api/*/items] returns an entry whose URL has
    two path segments where the [*] is, which a glob whose [*] stays inside a
    segment does not find anywhere in that URL.  And a clause that is the
    empty string is taken for absent: with an empty method clause the only
    entry of the log, a GET request, is returned, and it does not satisfy
    the clause.  Neither depends on the engine outside the fragment. *)
Lemma getRequests_clauses_differ_from_the_specified :
  ((forall beyond,
      Network.getRequests_entries beyond (Some Examples.segment_filter)
        Examples.nested_log
      = Some Examples.nested_log) /\
   List.filter
     (fun e =>
        Spec.satisfies_every_clause Spec.glob_search Examples.segment_filter e.1)
     Examples.nested_log
   = []) /\
  ((forall beyond,
      Network.getRequests_entries beyond (Some Examples.empty_method_filter)
        Examples.one_get_log
      = Some Examples.one_get_log) /\
   List.filter
     (fun e =>
        Spec.satisfies_every_clause Spec.glob_search
          Examples.empty_method_filter e.1)
     Examples.one_get_log
   = []).
Proof. repeat split; reflexivity. Qed.

Lemma entry_passes_clauses (filter : option Network.RequestFilter)
    (pattern : option (string -> bool))
    (e : Network.Request * option Network.Response) :
  Network.entry_passes filter pattern e = true <->
  match pattern with
  | Some test => test (Network.req_url e.1) = true
  | None => True
  end /\
  (forall m, JS.truthy_str (filter ≫= Network.filter_method) = Some m ->
             JS.toUpperCase (Network.req_method e.1) = JS.toUpperCase m) /\
  (forall t, JS.truthy_str (filter ≫= Network.filter_resourceType) = Some t ->
             Network.req_resourceType e.1 = t).
Proof.
  unfold Network.entry_passes. rewrite !andb_true_iff.
  destruct (JS.truthy_str (filter ≫= Network.filter_method)) as [m|];
    destruct (JS.truthy_str (filter ≫= Network.filter_resourceType)) as [t|];
    rewrite ?bool_decide_eq_true; destruct pattern as [test|]; split.
  all: try (intros ((H1 & H2) & H3); split; [done|]; split;
            [intros ? [= <-] || intros ? [=] | intros ? [= <-] || intros ? [=]];
            done).
  all: intros (H1 & H2 & H3); repeat split; auto.
Qed.

(** C2, amended.  For every log and every filter whose URL clause, if there
    is one, compiles (whatever the syntax of regular expressions it uses),
    [getRequests] returns the data of a sublist of the log in the order of
    the log, made of exactly the entries that pass every clause that is
    present and is not the empty string: the URL clause by the test of the
    regular expression that the URL with every [*] rewritten to [.*]
    compiles to, the method clause by equality of the upper-cased methods,
    the resource type clause by equality. *)
Theorem getRequests_filters_compose (beyond : RegExp.Beyond)
    (filter : option Network.RequestFilter) (log : Network.RequestLog)
    (pattern : option (string -> bool)) :
  Network.compiled_url_clause beyond filter = Some pattern ->
  exists kept,
    Network.getRequests_entries beyond filter log = Some kept /\
    Network.getRequests beyond filter log
    = Some (List.map Network.request_data kept) /\
    kept = List.filter (Network.entry_passes filter pattern) log /\
    kept `sublist_of` log /\
    (forall e, e ∈ kept <-> e ∈ log /\ Network.entry_passes filter pattern e = true) /\
    (forall e,
       e ∈ kept <->
       e ∈ log /\
       match pattern with
       | Some test => test (Network.req_url e.1) = true
       | None => True
       end /\
       (forall m, JS.truthy_str (filter ≫= Network.filter_method) = Some m ->
                  JS.toUpperCase (Network.req_method e.1) = JS.toUpperCase m) /\
       (forall t, JS.truthy_str (filter ≫= Network.filter_resourceType) = Some t ->
                  Network.req_resourceType e.1 = t)) /\
    match JS.truthy_str (filter ≫= Network.filter_url) with
    | Some u =>
        exists test,
          pattern = Some test /\
          RegExp.new_RegExp beyond (JS.replace_star (list_ascii_of_string u))
          = Some test
    | None => pattern = None
    end.
Proof.
  intros H. exists (List.filter (Network.entry_passes filter pattern) log).
  pose proof (getRequests_entries_filter beyond filter log pattern H) as He.
  split; [exact He|].
  split; [unfold Network.getRequests; by rewrite He|].
  split; [reflexivity|].
  split; [apply filter_sublist|].
  split; [intros e; apply elem_of_bool_filter|].
  split.
  - intros e. rewrite elem_of_bool_filter, entry_passes_clauses. reflexivity.
  - unfold Network.compiled_url_clause, Network.url_pattern in H.
    destruct (JS.truthy_str (filter ≫= Network.filter_url)) as [u|].
    + destruct (RegExp.new_RegExp beyond _) as [test|]; [|discriminate].
      injection H as <-. eauto.
    + by injection H as <-.
Qed.

Lemma getRequests_filters_compose_witness :
  exists kept,
    Network.getRequests_entries Examples.sample_engine Examples.query_filter
      Examples.query_log
    = Some kept /\
    Network.getRequests Examples.sample_engine Examples.query_filter
      Examples.query_log
    = Some (List.map Network.request_data kept) /\
    kept = [Examples.get_request "http://h/searchq=1"].
Proof.
  destruct (getRequests_filters_compose Examples.sample_engine
              Examples.query_filter Examples.query_log
              (Some Examples.query_test) eq_refl)
    as (kept & H1 & H2 & H3 & _).
  exists kept. split; [exact H1|]. split; [exact H2|]. exact H3.
Defined.

(** ** The route callback (C5, C10) *)

Lemma fulfill_step_stable (f : Network.FulfillParams) :
  Network.fulfill_step (Network.fulfill_step f).2
  = ((Network.fulfill_step f).1, (Network.fulfill_step f).2).
Proof.
  destruct f as [st body hs ct]. unfold Network.fulfill_step. simpl.
  destruct (JS.truthy_str ct) as [c|] eqn:Ect; [|by simpl; rewrite Ect].
  destruct hs as [hs|]; simpl; rewrite Ect; [|reflexivity].
  by rewrite insert_insert_eq.
Qed.

Lemma route_callback_stable (h : Network.RouteHandler) :
  Network.route_callback (Network.route_callback h).2
  = Network.route_callback h.
Proof.
  destruct h as [a f c]. unfold Network.route_callback. simpl.
  destruct (JS.truthy_bool a) eqn:Ea; simpl; [by rewrite Ea|].
  destruct f as [f|]; simpl.
  - pose proof (fulfill_step_stable f) as Hs.
    destruct (Network.fulfill_step f) as [o f'] eqn:Ef. simpl in *.
    rewrite Ea, Hs. reflexivity.
  - destruct c; simpl; by rewrite Ea.
Qed.

Lemma route_calls_replicate (n : nat) (h : Network.RouteHandler) :
  Network.route_calls n h = replicate n (Network.route_callback h).1.
Proof.
  revert h. induction n as [|n IH]; intros h; [reflexivity|]. simpl.
  pose proof (route_callback_stable h) as Hs.
  destruct (Network.route_callback h) as [c h'] eqn:Eh. simpl in *.
  rewrite IH, Hs. reflexivity.
Qed.

(** A [contentType] that is the empty string counts as none: the options
    go to the driver as they came. *)
Example empty_content_type_counts_as_none :
  Network.route_callback
    (Network.mkHandler None (Some Examples.blank_type_fulfill) None)
  = (Network.RouteFulfill Examples.blank_type_fulfill,
     Network.mkHandler None (Some Examples.blank_type_fulfill) None).
Proof. reflexivity. Qed.

(** C5, as the specification has it, fails for one content type: a
    [contentType] that is the empty string is not merged.  The options of
    [{ status: 200, body: '{}', contentType: '' }] reach the driver as they
    came, without headers and with the [contentType] still in place. *)
Lemma empty_content_type_is_not_merged :
  (Network.route_callback
     (Network.mkHandler None (Some Examples.blank_type_fulfill) None)).1
  = Network.RouteFulfill Examples.blank_type_fulfill /\
  Network.ful_headers Examples.blank_type_fulfill = None /\
  Network.ful_contentType Examples.blank_type_fulfill = Some EmptyString /\
  ~ Spec.content_type_merged.
Proof.
  split; [reflexivity|]. split; [reflexivity|]. split; [reflexivity|].
  intros H.
  destruct (H (Network.mkHandler None (Some Examples.blank_type_fulfill) None)
              Examples.blank_type_fulfill EmptyString eq_refl eq_refl eq_refl)
    as (options & Hcall & Hheaders).
  injection Hcall as <-. discriminate Hheaders.
Qed.

(** C5, amended.  The callback of a route applies the decision of its
    handler.  A true [abort] aborts the request.  Otherwise a [fulfill] answers it with
    exactly the given status and body and with the given headers, into which
    the [contentType], when one is supplied (in the sense of the code: a
    string other than the empty one), is written as the [content-type] entry,
    the [contentType] option being dropped; with no [contentType] the
    options are passed as given.  Otherwise a [continue] forwards the request
    with exactly the given overrides.  Every later request that the route
    intercepts gets the same call. *)
Theorem route_decision_is_applied (h : Network.RouteHandler) :
  (JS.truthy_bool (Network.h_abort h) = true ->
   (Network.route_callback h).1 = Network.RouteAbort) /\
  (forall f,
     JS.truthy_bool (Network.h_abort h) = false ->
     Network.h_fulfill h = Some f ->
     exists options,
       (Network.route_callback h).1 = Network.RouteFulfill options /\
       Network.ful_status options = Network.ful_status f /\
       Network.ful_body options = Network.ful_body f /\
       match JS.truthy_str (Network.ful_contentType f) with
       | Some ct =>
           Network.ful_headers options
           = Some (<["content-type" := ct]> (default ∅ (Network.ful_headers f))) /\
           Network.ful_contentType options = None
       | None => options = f
       end) /\
  (forall c,
     JS.truthy_bool (Network.h_abort h) = false ->
     Network.h_fulfill h = None ->
     Network.h_continue h = Some c ->
     (Network.route_callback h).1 = Network.RouteContinue (Some c)) /\
  (forall n,
     Network.route_calls n h = replicate n (Network.route_callback h).1).
Proof.
  destruct h as [a fo co]. simpl. repeat split.
  - intros Ha. unfold Network.route_callback. simpl. by rewrite Ha.
  - intros f Ha ->. unfold Network.route_callback. simpl. rewrite Ha.
    destruct f as [st body hs ct]. unfold Network.fulfill_step. simpl.
    destruct (JS.truthy_str ct) as [c|] eqn:Ect.
    + destruct hs as [hs|]; simpl; eexists; (repeat split); reflexivity.
    + simpl. eexists. repeat split; reflexivity.
  - intros c Ha -> ->. unfold Network.route_callback. simpl. by rewrite Ha.
  - intros n. apply route_calls_replicate.
Qed.

Lemma route_decision_is_applied_witness :
  exists options,
    (Network.route_callback
       (Network.mkHandler None (Some Examples.json_fulfill) None)).1
    = Network.RouteFulfill options /\
    Network.ful_status options = Some 200%Z /\
    Network.ful_body options = Some "{}" /\
    Network.ful_headers options
    = Some (<["content-type" := "application/json"]> ∅) /\
    Network.ful_contentType options = None.
Proof.
  destruct (route_decision_is_applied
              (Network.mkHandler None (Some Examples.json_fulfill) None))
    as (_ & Hf & _ & _).
  exact (Hf Examples.json_fulfill eq_refl eq_refl).
Defined.

(** C10.  The decisions of a handler are tried in the order abort, fulfill,
    continue: a true [abort] aborts whatever else the handler carries;
    without it a [fulfill] fulfills, whatever [continue] says; and a handler
    with none of the three continues the request unmodified. *)
Theorem route_decision_priority (h : Network.RouteHandler) :
  (Network.h_abort h = Some true ->
   (Network.route_callback h).1 = Network.RouteAbort) /\
  (Network.h_abort h <> Some true ->
   forall f, Network.h_fulfill h = Some f ->
   exists options, (Network.route_callback h).1 = Network.RouteFulfill options) /\
  (Network.h_abort h <> Some true ->
   Network.h_fulfill h = None ->
   Network.h_continue h = None ->
   (Network.route_callback h).1 = Network.RouteContinue None).
Proof.
  destruct h as [a fo co]. simpl.
  assert (Hfalse : a <> Some true -> JS.truthy_bool a = false).
  { destruct a as [[|]|]; simpl; congruence. }
  repeat split.
  - intros ->. reflexivity.
  - intros Ha f ->. unfold Network.route_callback. simpl. rewrite Hfalse by done.
    destruct (Network.fulfill_step f) as [o f']. eauto.
  - intros Ha -> ->. unfold Network.route_callback. simpl. by rewrite Hfalse.
Qed.

Lemma route_decision_priority_witness :
  (Network.route_callback
     (Network.mkHandler (Some true) (Some Examples.not_found_fulfill)
        (Some Examples.redirect_continue))).1
  = Network.RouteAbort /\
  (exists options,
     (Network.route_callback
        (Network.mkHandler (Some false) (Some Examples.not_found_fulfill)
           (Some Examples.redirect_continue))).1
     = Network.RouteFulfill options) /\
  (Network.route_callback (Network.mkHandler None None None)).1
  = Network.RouteContinue None.
Proof.
  split; [|split].
  - apply (route_decision_priority
             (Network.mkHandler (Some true) (Some Examples.not_found_fulfill)
                (Some Examples.redirect_continue))).
    reflexivity.
  - apply (proj1 (proj2 (route_decision_priority
                           (Network.mkHandler (Some false)
                              (Some Examples.not_found_fulfill)
                              (Some Examples.redirect_continue))))
             ltac:(discriminate) Examples.not_found_fulfill).
    reflexivity.
  - apply (route_decision_priority (Network.mkHandler None None None));
      [discriminate | reflexivity | reflexivity].
Defined.

(** ** The active tool set (C1) *)

Lemma elem_of_buildActiveSet (C : gset string) (registry : list Tools.Tool)
    (t : Tools.Tool) :
  t ∈ Tools.buildActiveSet C registry <->
  t ∈ registry /\ (Tools.tool_capability t ∈ C \/ Tools.tool_capability t = "core").
Proof.
  induction registry as [|u registry IH]; simpl.
  - split; [by intros ?%elem_of_nil | by intros [?%elem_of_nil _]].
  - destruct (decide (Tools.tool_capability u ∈ C ∪ {["core"]})) as [Hu|Hu].
    + rewrite !elem_of_cons, IH. split.
      * intros [-> | [? ?]]; [|by auto]. split; [by left|]. set_solver.
      * intros [[-> | ?] ?]; auto.
    + rewrite elem_of_cons, IH. split.
      * intros [? ?]. auto.
      * intros [[-> | ?] Ht]; [|by auto]. exfalso. apply Hu. set_solver.
Qed.

Lemma buildActiveSet_sublist (C : gset string) (registry : list Tools.Tool) :
  Tools.buildActiveSet C registry `sublist_of` registry.
Proof.
  induction registry as [|u registry IH]; simpl; [constructor|].
  destruct (decide _); by constructor.
Qed.

Lemma buildActiveSet_app (C : gset string) (r1 r2 : list Tools.Tool) :
  Tools.buildActiveSet C (r1 ++ r2)
  = Tools.buildActiveSet C r1 ++ Tools.buildActiveSet C r2.
Proof.
  induction r1 as [|u r1 IH]; simpl; [reflexivity|].
  destruct (decide _); simpl; by rewrite IH.
Qed.

Lemma find_some_elem {A : Type} (p : A -> bool) (l : list A) (x : A) :
  List.find p l = Some x -> x ∈ l /\ p x = true.
Proof. intros H. apply find_some in H as [? ?]. by rewrite list_elem_of_In. Qed.

(** C1.  The active set built from a capability set [C] holds a tool of the
    registry exactly when the capability of the tool is in [C] or is [core];
    it keeps the tools in the order of the registry (it is a sublist of the
    registry, built piece by piece along a concatenation); the names
    advertised are the names of the active set, in that order; and a lookup
    by name only ever finds a tool of the active set. *)
Theorem active_set_is_capability_filter (C : gset string)
    (registry : list Tools.Tool) :
  (forall t,
     t ∈ Tools.buildActiveSet C registry <->
     t ∈ registry /\
     (Tools.tool_capability t ∈ C \/ Tools.tool_capability t = "core")) /\
  Tools.buildActiveSet C registry `sublist_of` registry /\
  (forall r1 r2,
     registry = r1 ++ r2 ->
     Tools.buildActiveSet C registry
     = Tools.buildActiveSet C r1 ++ Tools.buildActiveSet C r2) /\
  Tools.listTools C registry
  = Tools.tool_name <$> Tools.buildActiveSet C registry /\
  (forall name t,
     Tools.dispatch_lookup C registry name = Some t ->
     t ∈ Tools.buildActiveSet C registry /\ Tools.tool_name t = name) /\
  (forall name,
     name ∉ Tools.listTools C registry ->
     Tools.dispatch_lookup C registry name = None).
Proof.
  split; [intros t; apply elem_of_buildActiveSet|].
  split; [apply buildActiveSet_sublist|].
  split; [intros r1 r2 ->; apply buildActiveSet_app|].
  split; [reflexivity|].
  split.
  - intros name t H. apply find_some_elem in H as [Hin Hname].
    split; [done|]. by apply bool_decide_eq_true in Hname.
  - intros name Hname. unfold Tools.dispatch_lookup.
    destruct (List.find _ _) as [t|] eqn:Hfind; [|reflexivity].
    apply find_some_elem in Hfind as [Hin Ht].
    apply bool_decide_eq_true in Ht. exfalso. apply Hname.
    unfold Tools.listTools. apply list_elem_of_fmap. eauto.
Qed.

Lemma active_set_is_capability_filter_witness :
  Tools.buildActiveSet {["storage"]} (Tools.pdf ++ Tools.storage true)
  = Tools.buildActiveSet {["storage"]} Tools.pdf
    ++ Tools.buildActiveSet {["storage"]} (Tools.storage true).
Proof.
  apply (active_set_is_capability_filter {["storage"]}
           (Tools.pdf ++ Tools.storage true)).
  reflexivity.
Defined.

(** With the capability [network] alone, the registry of [src/tools.ts]
    (its embedded modules) advertises the six network tools, in the order of
    their module. *)
Example network_only_session :
  Tools.listTools {["network"]} (Tools.snapshotTools Examples.no_other_modules)
  = ["mcp__playwright__browser_route";
     "mcp__playwright__browser_unroute";
     "mcp__playwright__browser_wait_for_request";
     "mcp__playwright__browser_wait_for_response";
     "mcp__playwright__browser_get_requests";
     "mcp__playwright__browser_get_responses"].
Proof. vm_compute. reflexivity. Qed.

(** ** The frame context (C4) *)

Lemma frameEvaluate_target_default (tab : Frames.Tab) (q : Frames.EvaluateParams) :
  Frames.no_frame_argument q ->
  Frames.frameEvaluate_target tab q
  = inr (default (Frames.page_mainFrame (Frames.tab_page tab))
           (Frames.tab_currentFrame tab)).
Proof.
  intros (Hs & Hn & Hi). unfold Frames.frameEvaluate_target.
  rewrite Hs, Hn, Hi. by destruct (Frames.tab_currentFrame tab).
Qed.

Lemma switchToFrame_success (tab tab' : Frames.Tab) (p : Frames.SwitchParams)
    (text : string) :
  Frames.switchToFrame tab p = inr (tab', text) ->
  exists f,
    Frames.switch_target (Frames.tab_page tab) p = inr (Some f) /\
    tab' = Frames.mkTab (Frames.tab_page tab) (Some f) /\
    text = "Switched to frame: " +:+ Frames.frame_url f.
Proof.
  unfold Frames.switchToFrame. intros H.
  destruct (Frames.switch_target (Frames.tab_page tab) p) as [e|[f|]] eqn:Et.
  - destruct (JS.truthy_str (Frames.sw_frameSelector p)),
      (JS.truthy_str (Frames.sw_frameName p)),
      (JS.truthy_str (Frames.sw_frameUrl p)), (Frames.sw_frameIndex p);
      discriminate.
  - exists f. split; [reflexivity|].
    destruct (JS.truthy_str (Frames.sw_frameSelector p)),
      (JS.truthy_str (Frames.sw_frameName p)),
      (JS.truthy_str (Frames.sw_frameUrl p)), (Frames.sw_frameIndex p);
      try discriminate; injection H as <- <-; done.
  - destruct (JS.truthy_str (Frames.sw_frameSelector p)),
      (JS.truthy_str (Frames.sw_frameName p)),
      (JS.truthy_str (Frames.sw_frameUrl p)), (Frames.sw_frameIndex p);
      discriminate.
Qed.

Lemma tab_run_snoc (tab : Frames.Tab) (evs : list Frames.TabEvent)
    (ev : Frames.TabEvent) :
  Frames.tab_run tab (evs ++ [ev]) = Frames.tab_step (Frames.tab_run tab evs) ev.
Proof. unfold Frames.tab_run. by rewrite fold_left_app. Qed.

(** [switchToFrame] by the first argument supplied, when the driver finds
    the frame. *)
Lemma switchToFrame_found (tab : Frames.Tab) (p : Frames.SwitchParams)
    (f : Frames.Frame) :
  (exists sel,
     JS.truthy_str (Frames.sw_frameSelector p) = Some sel /\
     Frames.page_content_frame (Frames.tab_page tab) sel = Some (Some f)) \/
  (JS.truthy_str (Frames.sw_frameSelector p) = None /\
   exists n,
     JS.truthy_str (Frames.sw_frameName p) = Some n /\
     Frames.page_frame_by_name (Frames.tab_page tab) n = Some f) \/
  (JS.truthy_str (Frames.sw_frameSelector p) = None /\
   JS.truthy_str (Frames.sw_frameName p) = None /\
   exists u,
     JS.truthy_str (Frames.sw_frameUrl p) = Some u /\
     Frames.page_frame_by_url (Frames.tab_page tab) u = Some f) \/
  (JS.truthy_str (Frames.sw_frameSelector p) = None /\
   JS.truthy_str (Frames.sw_frameName p) = None /\
   JS.truthy_str (Frames.sw_frameUrl p) = None /\
   exists i,
     Frames.sw_frameIndex p = Some i /\ (0 <= i)%Z /\
     Frames.page_frames (Frames.tab_page tab) !! Z.to_nat i = Some f) ->
  Frames.switchToFrame tab p
  = inr (Frames.mkTab (Frames.tab_page tab) (Some f),
         "Switched to frame: " +:+ Frames.frame_url f).
Proof.
  unfold Frames.switchToFrame, Frames.switch_target, Frames.by_selector,
    Frames.frame_at.
  intros [(sel & -> & ->)
         |[(-> & n & -> & ->)
          |[(-> & -> & u & -> & ->)
           |(-> & -> & -> & i & -> & Hi & Hf)]]].
  - by destruct (JS.truthy_str (Frames.sw_frameName p)),
      (JS.truthy_str (Frames.sw_frameUrl p)), (Frames.sw_frameIndex p).
  - by destruct (JS.truthy_str (Frames.sw_frameUrl p)), (Frames.sw_frameIndex p).
  - by destruct (Frames.sw_frameIndex p).
  - assert ((i <? 0)%Z = false) as -> by lia. by rewrite Hf.
Qed.

(** C4.  [switchToFrame] succeeds whenever the driver finds the frame that
    the first argument supplied names (the selector, else the name, else the
    URL, else the index), and makes that frame the current frame of the
    tab: a [frameEvaluate] that names no frame, which runs in the main frame
    while the tab has no current frame, runs in the selected frame from then
    on.  A navigation of the top-level frame puts the context back to the
    main frame in the very step of the event, whatever was selected before:
    right after it, a [frameEvaluate] that names no frame runs in the main
    frame of the page. *)
Theorem frame_context_follows_switch_and_navigation :
  (forall tab p f q,
     ((exists sel,
         JS.truthy_str (Frames.sw_frameSelector p) = Some sel /\
         Frames.page_content_frame (Frames.tab_page tab) sel = Some (Some f)) \/
      (JS.truthy_str (Frames.sw_frameSelector p) = None /\
       exists n,
         JS.truthy_str (Frames.sw_frameName p) = Some n /\
         Frames.page_frame_by_name (Frames.tab_page tab) n = Some f) \/
      (JS.truthy_str (Frames.sw_frameSelector p) = None /\
       JS.truthy_str (Frames.sw_frameName p) = None /\
       exists u,
         JS.truthy_str (Frames.sw_frameUrl p) = Some u /\
         Frames.page_frame_by_url (Frames.tab_page tab) u = Some f) \/
      (JS.truthy_str (Frames.sw_frameSelector p) = None /\
       JS.truthy_str (Frames.sw_frameName p) = None /\
       JS.truthy_str (Frames.sw_frameUrl p) = None /\
       exists i,
         Frames.sw_frameIndex p = Some i /\ (0 <= i)%Z /\
         Frames.page_frames (Frames.tab_page tab) !! Z.to_nat i = Some f)) ->
     Frames.no_frame_argument q ->
     exists tab',
       Frames.switchToFrame tab p
       = inr (tab', "Switched to frame: " +:+ Frames.frame_url f) /\
       Frames.tab_step tab (Frames.EvSwitchToFrame p) = tab' /\
       Frames.tab_page tab' = Frames.tab_page tab /\
       Frames.tab_currentFrame tab' = Some f /\
       Frames.frameEvaluate_target tab' q = inr f) /\
  (forall tab q,
     Frames.tab_currentFrame tab = None ->
     Frames.no_frame_argument q ->
     Frames.frameEvaluate_target tab q
     = inr (Frames.page_mainFrame (Frames.tab_page tab))) /\
  (forall tab tab' p text q,
     Frames.switchToFrame tab p = inr (tab', text) ->
     Frames.no_frame_argument q ->
     exists f,
       Frames.switch_target (Frames.tab_page tab) p = inr (Some f) /\
       Frames.tab_currentFrame tab' = Some f /\
       Frames.frameEvaluate_target tab' q = inr f /\
       forall frame_evaluate,
         Frames.frameEvaluate frame_evaluate tab' q
         = match frame_evaluate f (Frames.fe_code q)
                   (default [] (Frames.fe_args q)) with
           | JS.Resolves result => inr result
           | JS.Rejects error =>
               inl (JS.ErrorWith
                      ("Frame JavaScript execution failed: "
                         +:+ JS.error_text error))
           end) /\
  (forall tab evs page' frame q,
     Frames.is_top_level frame = true ->
     Frames.no_frame_argument q ->
     Frames.tab_currentFrame
       (Frames.tab_run tab (evs ++ [Frames.EvNavigated page' frame])) = None /\
     Frames.frameEvaluate_target
       (Frames.tab_run tab (evs ++ [Frames.EvNavigated page' frame])) q
     = inr (Frames.page_mainFrame page')).
Proof.
  split; [|split; [|split]].
  - intros tab p f q Hfound Hq.
    pose proof (switchToFrame_found tab p f Hfound) as Hsw.
    eexists. split; [exact Hsw|]. cbn [Frames.tab_step]. rewrite Hsw.
    split; [reflexivity|]. split; [reflexivity|]. split; [reflexivity|].
    by rewrite frameEvaluate_target_default.
  - intros tab q Hnone Hq. rewrite frameEvaluate_target_default by done.
    by rewrite Hnone.
  - intros tab tab' p text q Hsw Hq.
    apply switchToFrame_success in Hsw as (f & Ht & -> & _).
    exists f. split; [done|]. split; [done|].
    assert (Hf : Frames.frameEvaluate_target
                   (Frames.mkTab (Frames.tab_page tab) (Some f)) q = inr f)
      by (by rewrite frameEvaluate_target_default).
    split; [done|]. intros ev. unfold Frames.frameEvaluate. by rewrite Hf.
  - intros tab evs page' frame q Htop Hq.
    rewrite tab_run_snoc. simpl. unfold Frames.onNavigated. rewrite Htop.
    split; [reflexivity|]. by rewrite frameEvaluate_target_default.
Qed.

Lemma frame_context_follows_switch_and_navigation_witness :
  Frames.frameEvaluate_target Examples.fresh_tab Examples.evaluate_no_frame
  = inr Examples.main_frame /\
  (exists tab',
     Frames.switchToFrame Examples.fresh_tab Examples.switch_by_name
     = inr (tab', "Switched to frame: http://h/inner") /\
     Frames.tab_step Examples.fresh_tab
       (Frames.EvSwitchToFrame Examples.switch_by_name) = tab' /\
     Frames.tab_page tab' = Examples.two_frame_page /\
     Frames.tab_currentFrame tab' = Some Examples.inner_frame /\
     Frames.frameEvaluate_target tab' Examples.evaluate_no_frame
     = inr Examples.inner_frame) /\
  Frames.frameEvaluate_target
    (Frames.tab_run Examples.fresh_tab
       ([Frames.EvSwitchToFrame Examples.switch_by_name]
          ++ [Frames.EvNavigated Examples.two_frame_page Examples.main_frame]))
    Examples.evaluate_no_frame
  = inr Examples.main_frame.
Proof.
  destruct frame_context_follows_switch_and_navigation
    as (Hfound & Hmain & _ & Hnav).
  split; [|split].
  - apply (Hmain Examples.fresh_tab Examples.evaluate_no_frame eq_refl
             (conj eq_refl (conj eq_refl eq_refl))).
  - apply (Hfound Examples.fresh_tab Examples.switch_by_name
             Examples.inner_frame Examples.evaluate_no_frame).
    + right. left. split; [reflexivity|]. exists "inner". by split.
    + exact (conj eq_refl (conj eq_refl eq_refl)).
  - apply (Hnav Examples.fresh_tab
             [Frames.EvSwitchToFrame Examples.switch_by_name]
             Examples.two_frame_page Examples.main_frame
             Examples.evaluate_no_frame eq_refl
             (conj eq_refl (conj eq_refl eq_refl))).
Defined.

(** ** The flags a handler returns (C7) *)

(** C7, as the specification has it, fails: the handler of
    [waitForLoadState] sets [waitForNetwork] from the [state] it is called
    with, so two calls of the same tool disagree on what follows the action. *)
Lemma load_state_handler_decides_network_wait :
  Dispatch.handle_flags true Examples.wait_networkidle
  = Some (Dispatch.mkSyncFlags false true) /\
  Dispatch.handle_flags true Examples.wait_load
  = Some (Dispatch.mkSyncFlags false false) /\
  ~ Spec.policy_fixed_per_tool.
Proof.
  split; [reflexivity|]. split; [reflexivity|].
  intros H.
  specialize (H true Examples.wait_networkidle Examples.wait_load
                _ _ eq_refl eq_refl eq_refl).
  discriminate H.
Qed.

Lemma fixed_flags_same_tool (cs : bool) (c1 c2 : Dispatch.ToolCall)
    (f1 f2 : Dispatch.SyncFlags) :
  Dispatch.tool_of c1 = Dispatch.tool_of c2 ->
  Dispatch.input_dependent (Dispatch.tool_of c1) = false ->
  Dispatch.handle_flags cs c1 = Some f1 ->
  Dispatch.handle_flags cs c2 = Some f2 ->
  f1 = f2.
Proof.
  intros Htool Hdep H1 H2.
  destruct c1; try discriminate Hdep;
    destruct c2; try discriminate Htool; simpl in H1, H2;
    repeat match type of H1 with
           | context [match ?x with _ => _ end] => destruct x
           end;
    repeat match type of H2 with
           | context [match ?x with _ => _ end] => destruct x
           end;
    congruence.
Qed.

(** C7, amended.  What follows the action of a tool is what the object
    returned by its handler says.  For every embedded tool but three the two
    flags are fixed when the tool is built (a constant, or the argument of
    its factory) and are the same for all calls.  The handler of
    [waitForLoadState] asks for the network wait exactly when the state
    waited for is [networkidle]; the handlers of [addScriptTag] and
    [addStyleTag] ask for it exactly when a [url] is given. *)
Theorem sync_flags_come_from_the_handler (cs : bool) :
  (forall c1 c2 f1 f2,
     Dispatch.tool_of c1 = Dispatch.tool_of c2 ->
     Dispatch.input_dependent (Dispatch.tool_of c1) = false ->
     Dispatch.handle_flags cs c1 = Some f1 ->
     Dispatch.handle_flags cs c2 = Some f2 ->
     f1 = f2) /\
  (forall p,
     Dispatch.handle_flags cs (Dispatch.CallWaitForLoadState p)
     = Some (Dispatch.mkSyncFlags false
               (bool_decide (Waiting.ls_state p = Some Waiting.networkidle)))) /\
  (forall p f,
     Dispatch.handle_flags cs (Dispatch.CallAddScriptTag p) = Some f ->
     f = Dispatch.mkSyncFlags cs (Dispatch.has_url p)) /\
  (forall p f,
     Dispatch.handle_flags cs (Dispatch.CallAddStyleTag p) = Some f ->
     f = Dispatch.mkSyncFlags cs (Dispatch.has_url p)).
Proof.
  split; [intros c1 c2 f1 f2; apply fixed_flags_same_tool|].
  split.
  - intros [[[| |]|] t]; reflexivity.
  - split; intros p f; simpl; destruct (Dispatch.no_source p); congruence.
Qed.

Lemma sync_flags_come_from_the_handler_witness :
  Dispatch.mkSyncFlags true false = Dispatch.mkSyncFlags true false /\
  Dispatch.mkSyncFlags true true
  = Dispatch.mkSyncFlags true (Dispatch.has_url Examples.script_from_url).
Proof.
  destruct (sync_flags_come_from_the_handler true) as (Hfixed & _ & Hscript & _).
  split.
  - apply (Hfixed (Dispatch.CallSetStorage Storage.local ∅ None)
             (Dispatch.CallSetStorage Storage.session {["a" := "1"]} (Some true))
             _ _ eq_refl eq_refl eq_refl eq_refl).
  - apply (Hscript Examples.script_from_url _ eq_refl).
Defined.

(** ** Timeouts of the wait tools (C8) *)




(** ** Waiting for a response: the deadline (C3) *)

Lemma find_first {A : Type} (p : A -> bool) (before after : list A) (x : A) :
  (forall y, y ∈ before -> p y = false) -> p x = true ->
  List.find p (before ++ x :: after) = Some x.
Proof.
  intros Hbefore Hx. induction before as [|y before IH]; simpl.
  - by rewrite Hx.
  - rewrite (Hbefore y) by left. apply IH. intros z Hz. apply Hbefore. by right.
Qed.

Lemma find_nothing {A : Type} (p : A -> bool) (l : list A) :
  (forall y, y ∈ l -> p y = false) -> List.find p l = None.
Proof.
  intros H. induction l as [|y l IH]; [reflexivity|]. simpl.
  rewrite (H y) by left. apply IH. intros z Hz. apply H. by right.
Qed.

Lemma find_decompose {A : Type} (p : A -> bool) (l : list A) (x : A) :
  List.find p l = Some x ->
  exists before after,
    l = before ++ x :: after /\ (forall y, y ∈ before -> p y = false) /\
    p x = true.
Proof.
  induction l as [|y l IH]; simpl; [discriminate|].
  destruct (p y) eqn:Ey.
  - intros [= <-]. exists [], l. split; [reflexivity|].
    split; [by intros z ?%elem_of_nil | done].
  - intros H. apply IH in H as (before & after & -> & Hb & Hx).
    exists (y :: before), after. split; [reflexivity|]. split; [|done].
    intros z [->|Hz]%elem_of_cons; auto.
Qed.

Lemma in_time_false (matches : string -> string -> bool) (pattern : string)
    (deadline : Z) (e : PendingWait.Event) :
  PendingWait.in_time matches pattern deadline e = false <->
  (matches pattern (Network.resp_url e.2) = true -> (deadline < e.1)%Z).
Proof.
  unfold PendingWait.in_time.
  destruct (matches pattern (Network.resp_url e.2)); simpl.
  - rewrite Z.leb_gt. split; auto.
  - split; [discriminate | done].
Qed.

(** C3, as the specification has it, fails for the timeout 0: the tool
    hands the driver 30000 in its place, so a response that arrives 40 ms
    after the wait was registered resolves a wait whose timeout of 0 ms the
    specification counts as elapsed. *)
Lemma timeout_zero_waits_for_the_default :
  Spec.waitFor Samples.matches_tail "**/x" 0 Samples.arrivals
  = Spec.TimedOut /\
  (exists info,
     Network.waitForResponse
       (PendingWait.page_waitForResponse Samples.matches_tail
          (JS.ErrorWith "Timeout 30000ms exceeded.") Samples.arrivals)
       (Samples.wait_for_x (Some 0%Z))
     = inr info /\
     Network.rsi_url info = "http://h/x" /\
     Network.rsi_status info = 200%Z) /\
  ~ Spec.wait_honours_every_timeout.
Proof.
  split; [reflexivity|]. split.
  - eexists. split; [reflexivity|]. split; reflexivity.
  - intros H.
    specialize (H Samples.matches_tail "Timeout 30000ms exceeded."
                  Samples.arrivals "**/x" 0%Z eq_refl).
    destruct H as (error & H). discriminate H.
Qed.

(** C3, amended.  [waitForResponse] waits until a deadline that is the
    timeout given, or 30000 ms when the timeout is absent or 0.  With the
    driver resolving a pending wait by the first matching event at or before
    the deadline it is given: the tool resolves with the data of the first
    response whose URL matches the pattern and that arrives at or before
    that deadline; when no matching response arrives by then it fails with
    an error whose message is "Timeout waiting for response matching: "
    followed by the pattern, and returns no content; and whenever it
    resolves, it is with a matching response that arrived at or before the
    deadline, so a response that arrives later never resolves the wait. *)
Theorem waitForResponse_races_the_deadline
    (matches : string -> string -> bool) (message : string)
    (events : list PendingWait.Event) (params : Network.WaitParams) :
  JS.includes message "Timeout" = true ->
  JS.num_or (Network.wait_timeout params) 30000
  = match Network.wait_timeout params with
    | Some t => if decide (t = 0%Z) then 30000%Z else t
    | None => 30000%Z
    end /\
  (forall before t response after,
     events = before ++ (t, response) :: after ->
     (forall e, e ∈ before ->
                matches (Network.wait_urlPattern params) (Network.resp_url e.2)
                = true ->
                (JS.num_or (Network.wait_timeout params) 30000 < e.1)%Z) ->
     matches (Network.wait_urlPattern params) (Network.resp_url response) = true ->
     (t <= JS.num_or (Network.wait_timeout params) 30000)%Z ->
     exists info,
       Network.waitForResponse
         (PendingWait.page_waitForResponse matches (JS.ErrorWith message) events)
         params
       = inr info /\
       Network.rsi_url info = Network.resp_url response /\
       Network.rsi_status info = Network.resp_status response /\
       Network.rsi_statusText info = Network.resp_statusText response /\
       Network.rsi_headers info = Network.resp_headers response /\
       Network.rsi_ok info = Network.resp_ok response) /\
  ((forall e, e ∈ events ->
              matches (Network.wait_urlPattern params) (Network.resp_url e.2)
              = true ->
              (JS.num_or (Network.wait_timeout params) 30000 < e.1)%Z) ->
   Network.waitForResponse
     (PendingWait.page_waitForResponse matches (JS.ErrorWith message) events)
     params
   = inl (JS.ErrorWith
            ("Timeout waiting for response matching: "
               +:+ Network.wait_urlPattern params))) /\
  (forall info,
     Network.waitForResponse
       (PendingWait.page_waitForResponse matches (JS.ErrorWith message) events)
       params
     = inr info ->
     exists before t response after,
       events = before ++ (t, response) :: after /\
       (forall e, e ∈ before ->
                  matches (Network.wait_urlPattern params) (Network.resp_url e.2)
                  = true ->
                  (JS.num_or (Network.wait_timeout params) 30000 < e.1)%Z) /\
       matches (Network.wait_urlPattern params) (Network.resp_url response)
       = true /\
       (t <= JS.num_or (Network.wait_timeout params) 30000)%Z /\
       Network.rsi_url info = Network.resp_url response /\
       Network.rsi_status info = Network.resp_status response).
Proof.
  intros Hm. split; [|split; [|split]].
  - unfold JS.num_or, JS.truthy_num.
    destruct (Network.wait_timeout params) as [t|]; [|reflexivity].
    by destruct (decide (t = 0%Z)).
  - intros before t response after -> Hbefore Hmatch Ht.
    unfold Network.waitForResponse, PendingWait.page_waitForResponse.
    rewrite (find_first _ before after (t, response)).
    + cbn [snd]. destruct (Network.resp_text response) as [text|[m|shown]];
        eexists; repeat split; reflexivity.
    + intros e He. apply in_time_false. by apply Hbefore.
    + unfold PendingWait.in_time. cbn [fst snd]. rewrite Hmatch.
      by apply Z.leb_le.
  - intros Hnone.
    unfold Network.waitForResponse, PendingWait.page_waitForResponse.
    rewrite find_nothing.
    + by rewrite rethrow_timeout_hit.
    + intros e He. apply in_time_false. by apply Hnone.
  - intros info.
    unfold Network.waitForResponse, PendingWait.page_waitForResponse.
    destruct (List.find _ events) as [[t response]|] eqn:Efind;
      [|discriminate].
    apply find_decompose in Efind as (before & after & -> & Hbefore & Hx).
    unfold PendingWait.in_time in Hx. cbn [fst snd] in Hx.
    apply andb_true_iff in Hx as [Hmatch Ht]. apply Z.leb_le in Ht.
    cbn [snd]. intros Hinfo. exists before, t, response, after.
    split; [reflexivity|]. split.
    { intros e He. apply in_time_false. by apply Hbefore. }
    split; [done|]. split; [done|].
    destruct (Network.resp_text response) as [text|[m|shown]];
      injection Hinfo as <-; split; reflexivity.
Qed.

Lemma waitForResponse_races_the_deadline_witness :
  (exists info,
     Network.waitForResponse
       (PendingWait.page_waitForResponse Samples.matches_tail
          (JS.ErrorWith "Timeout 5000ms exceeded.") Samples.arrivals)
       (Samples.wait_for_x (Some 5000%Z))
     = inr info /\
     Network.rsi_url info = "http://h/x" /\
     Network.rsi_status info = 200%Z /\
     Network.rsi_statusText info = EmptyString /\
     Network.rsi_headers info = ∅ /\
     Network.rsi_ok info = true) /\
  Network.waitForResponse
    (PendingWait.page_waitForResponse Samples.matches_tail
       (JS.ErrorWith "Timeout 20ms exceeded.") Samples.arrivals)
    (Samples.wait_for_x (Some 20%Z))
  = inl (JS.ErrorWith "Timeout waiting for response matching: **/x").
Proof.
  split.
  - destruct (waitForResponse_races_the_deadline Samples.matches_tail
                "Timeout 5000ms exceeded." Samples.arrivals
                (Samples.wait_for_x (Some 5000%Z)) eq_refl)
      as (_ & Hfirst & _ & _).
    apply (Hfirst [(10%Z, Samples.response "http://h/other" 200)] 40%Z
             (Samples.response "http://h/x" 200)
             [(6000%Z, Samples.response "http://h/x" 404)] eq_refl).
    + intros e ->%list_elem_of_singleton. discriminate.
    + reflexivity.
    + vm_compute. discriminate.
  - destruct (waitForResponse_races_the_deadline Samples.matches_tail
                "Timeout 20ms exceeded." Samples.arrivals
                (Samples.wait_for_x (Some 20%Z)) eq_refl)
      as (_ & _ & Hnone & _).
    apply Hnone. intros e He Hmatch.
    apply elem_of_cons in He as [->|He]; [discriminate Hmatch|].
    apply elem_of_cons in He as [->|He]; [vm_compute; reflexivity|].
    apply list_elem_of_singleton in He as ->. vm_compute. reflexivity.
Defined.

(** ** Storage (C9) *)

Section StorageFacts.

Import Storage.

Lemma getItem_setItem (st : Area) (k v k' : string) :
  getItem (setItem st k v) k' = if decide (k = k') then Some v else getItem st k'.
Proof.
  induction st as [|[k0 v0] st IH]; simpl.
  - destruct (decide (k = k')); reflexivity.
  - destruct (decide (k0 = k)) as [->|Hne]; simpl.
    + destruct (decide (k = k')); reflexivity.
    + rewrite IH. destruct (decide (k0 = k')) as [->|]; [|reflexivity].
      by rewrite decide_False by done.
Qed.

Lemma getItem_write_entries (entries : list (string * string)) (st : Area)
    (k : string) :
  NoDup entries.*1 ->
  getItem (write_entries entries st) k
  = match (list_to_map entries : gmap string string) !! k with
    | Some v => Some v
    | None => getItem st k
    end.
Proof.
  revert st. induction entries as [|[k0 v0] entries IH]; intros st Hnd.
  - reflexivity.
  - apply NoDup_cons in Hnd as [Hk0 Hnd]. simpl. fold (write_entries entries).
    fold (write_entries entries (setItem st k0 v0)).
    rewrite IH by done. rewrite getItem_setItem.
    destruct (decide (k0 = k)) as [->|Hne].
    + rewrite lookup_insert_eq.
      by rewrite (not_elem_of_list_to_map_1 _ _ Hk0).
    + by rewrite lookup_insert_ne.
Qed.

Lemma key_Some_getItem (st : Area) (i : nat) (k : string) :
  key st i = Some k -> is_Some (getItem st k).
Proof.
  revert i. induction st as [|[k0 v0] st IH]; intros i; [by destruct i|].
  simpl. destruct (decide (k0 = k)) as [|Hne]; [eauto|].
  destruct i as [|i]; unfold key; simpl.
  - intros H. injection H as H. by destruct Hne.
  - apply IH.
Qed.

Lemma getItem_Some_key (st : Area) (k v : string) :
  getItem st k = Some v -> exists i, (i < area_length st)%nat /\ key st i = Some k.
Proof.
  induction st as [|[k0 v0] st IH]; simpl; [discriminate|].
  destruct (decide (k0 = k)) as [->|Hne].
  - intros _. exists 0%nat. split; [lia | reflexivity].
  - intros H. apply IH in H as (i & Hi & Hk). exists (S i).
    split; [unfold area_length in *; lia | exact Hk].
Qed.

Lemma truthy_str_Some (o : option string) (s : string) :
  JS.truthy_str o = Some s <-> o = Some s /\ s <> EmptyString.
Proof.
  unfold JS.truthy_str. destruct o as [t|].
  - destruct (decide (t = EmptyString)) as [->|Hne]; split.
    + discriminate.
    + intros [Heq Hs]. injection Heq as <-. by destruct Hs.
    + intros Heq. injection Heq as <-. done.
    + intros [Heq _]. exact Heq.
  - split; [discriminate | intros [Heq _]; discriminate].
Qed.

(** Whatever the loop has put under a key is the item of that key. *)
Lemma read_fold_sound (st : Area) (idx : list nat) (data : gmap string string)
    (k v : string) :
  fold_left (read_step st) idx data !! k = Some v ->
  data !! k = Some v \/
  (k <> EmptyString /\ k <> "__proto__" /\ getItem st k = Some v).
Proof.
  revert data. induction idx as [|i idx IH]; intros data; simpl; [auto|].
  intros H. apply IH in H as [H|H]; [|auto].
  unfold read_step in H.
  destruct (JS.truthy_str (key st i)) as [k'|] eqn:Ek; [|auto].
  apply truthy_str_Some in Ek as [_ Hne].
  destruct (getItem st k') as [v'|] eqn:Eg; [|auto].
  destruct (decide (k' = "__proto__")) as [|Hproto]; [auto|].
  destruct (decide (k' = k)) as [->|Hkk].
  - rewrite lookup_insert_eq in H. injection H as <-. auto.
  - rewrite lookup_insert_ne in H by done. auto.
Qed.

(** An entry that is right stays right. *)
Lemma read_fold_keeps (st : Area) (idx : list nat) (data : gmap string string)
    (k v : string) :
  getItem st k = Some v -> data !! k = Some v ->
  fold_left (read_step st) idx data !! k = Some v.
Proof.
  intros Hg. revert data. induction idx as [|i idx IH]; intros data Hd; simpl; [done|].
  apply IH. unfold read_step.
  destruct (JS.truthy_str (key st i)) as [k'|]; [|done].
  destruct (getItem st k') as [v'|] eqn:Eg; [|done].
  destruct (decide (k' = "__proto__")) as [|Hproto]; [done|].
  destruct (decide (k' = k)) as [->|Hkk].
  - rewrite lookup_insert_eq. congruence.
  - by rewrite lookup_insert_ne.
Qed.

(** A key that is visited gets its item, unless it is empty or [__proto__]. *)
Lemma read_fold_complete (st : Area) (idx : list nat) (data : gmap string string)
    (i : nat) (k v : string) :
  i ∈ idx -> key st i = Some k -> k <> EmptyString -> k <> "__proto__" ->
  getItem st k = Some v ->
  fold_left (read_step st) idx data !! k = Some v.
Proof.
  intros Hi Hk Hne Hproto Hg. revert data.
  induction idx as [|j idx IH]; intros data; [by apply elem_of_nil in Hi|].
  simpl. apply elem_of_cons in Hi as [<-|Hi]; [|by apply IH].
  apply read_fold_keeps; [done|]. unfold read_step.
  assert (JS.truthy_str (key st i) = Some k) as -> by (by apply truthy_str_Some).
  rewrite Hg, decide_False by done. apply lookup_insert_eq.
Qed.

(** What [getStorage] reads from an area: every item but those under the
    empty key and under [__proto__]. *)
Lemma read_area_lookup (st : Area) (k : string) :
  read_area st !! k
  = if decide (k = EmptyString \/ k = "__proto__") then None else getItem st k.
Proof.
  unfold read_area. apply option_eq. intros v. split.
  - intros H. apply read_fold_sound in H as [H|(Hne & Hproto & H)].
    + by rewrite lookup_empty in H.
    + rewrite decide_False; [done|]. by intros [?|?].
  - destruct (decide (k = EmptyString \/ k = "__proto__")) as [|Hno];
      [discriminate|].
    intros Hg. destruct (getItem_Some_key _ _ _ Hg) as (i & Hi & Hk).
    apply (read_fold_complete st _ _ i); try done; [|tauto|tauto].
    apply elem_of_seq. lia.
Qed.

Lemma area_of_with_area (type : StorageType) (st : Area) (ps : PageStorage) :
  area_of type (with_area type st ps) = st.
Proof. by destruct type. Qed.

(** After [setStorage] on an empty page, [getStorage] returns the data
    without the entries of the empty key and of [__proto__]. *)
Lemma getStorage_setStorage_lookup (type : StorageType)
    (data : gmap string string) (clear_first : option bool) (k : string) :
  getStorage type (setStorage type data clear_first empty_page).1 !! k
  = if decide (k = EmptyString \/ k = "__proto__") then None else data !! k.
Proof.
  unfold getStorage, setStorage. cbn [fst]. rewrite area_of_with_area.
  rewrite read_area_lookup.
  destruct (decide (k = EmptyString \/ k = "__proto__")); [reflexivity|].
  rewrite getItem_write_entries by apply NoDup_fst_map_to_list.
  rewrite list_to_map_to_list.
  destruct (data !! k); [reflexivity|].
  by destruct type, (JS.truthy_bool clear_first).
Qed.

(** The round trip holds for every mapping that has neither the empty key
    nor the key [__proto__]. *)
Lemma getStorage_setStorage (type : StorageType) (data : gmap string string)
    (clear_first : option bool) :
  data !! EmptyString = None ->
  data !! "__proto__" = None ->
  getStorage type (setStorage type data clear_first empty_page).1 = data.
Proof.
  intros H Hp. apply map_eq. intros k. rewrite getStorage_setStorage_lookup.
  destruct (decide (k = EmptyString \/ k = "__proto__")) as [[->| ->]|];
    [by rewrite H | by rewrite Hp | reflexivity].
Qed.

(** [clearStorage] of one area, with no list of keys, empties that area. *)
Lemma getStorage_clearStorage (type : StorageType) (ps : PageStorage) :
  getStorage type (clearStorage (Some (clear_type_of type)) None ps).1 = ∅.
Proof. by destruct type. Qed.

(** And so does [clearStorage] without a type, which clears both. *)
Lemma getStorage_clearStorage_all (type : StorageType) (ps : PageStorage) :
  getStorage type (clearStorage None None ps).1 = ∅.
Proof. by destruct type. Qed.

End StorageFacts.

(** C9.  The code breaks the round trip on one key: [setStorage] stores an
    entry under the empty string, and the loop of [getStorage] skips it,
    because its test [if (key)] takes the empty key for a missing one.  On
    an empty page, after the mapping with the single entry of the empty key
    is set, the area holds the entry and [getStorage] returns the empty
    mapping. *)
Theorem getStorage_loses_the_empty_key :
  Storage.area_of Storage.local
    (Storage.setStorage Storage.local {[EmptyString := "1"]} None Storage.empty_page).1
  = [(EmptyString, "1")] /\
  Storage.getStorage Storage.local
    (Storage.setStorage Storage.local {[EmptyString := "1"]} None Storage.empty_page).1
  = ∅ /\
  Storage.getStorage Storage.local
    (Storage.setStorage Storage.local {[EmptyString := "1"]} None Storage.empty_page).1
  <> {[EmptyString := "1"]}.
Proof.
  assert (H : Storage.getStorage Storage.local
                (Storage.setStorage Storage.local {[EmptyString := "1"]} None
                   Storage.empty_page).1 = ∅).
  { apply map_eq. intros k. rewrite getStorage_setStorage_lookup.
    rewrite lookup_empty.
    destruct (decide (k = EmptyString \/ k = "__proto__")) as [|Hne]; [done|].
    rewrite lookup_singleton_ne; [done|]. intros <-. apply Hne. by left. }
  split; [|split; [exact H|]].
  - unfold Storage.setStorage. simpl. by rewrite map_to_list_singleton.
  - rewrite H. intros Heq.
    apply (f_equal (fun m : gmap string string => m !! EmptyString)) in Heq.
    by rewrite lookup_empty, lookup_singleton_eq in Heq.
Qed.

(** * Further properties of the tools *)

(** ** Cookies *)

Section CookieFacts.

Import Cookies.

Lemma filter_if_spec {A : Type} (o : option string) (pred : string -> A -> bool)
    (l : list A) :
  filter_if o pred l
  = List.filter
      (fun x => match JS.truthy_str o with Some s => pred s x | None => true end)
      l.
Proof.
  unfold filter_if. destruct (JS.truthy_str o); [reflexivity|].
  symmetry. by apply bool_filter_all.
Qed.

Lemma to_delete_selected (params : DeleteParams) (allCookies : list Cookie) :
  to_delete params allCookies
  = List.filter (fun c => selected params c.2) (objects allCookies).
Proof.
  unfold to_delete. rewrite !filter_if_spec, !filter_filter_andb.
  apply bool_filter_ext. intros c. unfold selected.
  by rewrite ?andb_assoc.
Qed.

Lemma imap_pair_filter {A : Type} (q : A -> bool) (g : nat -> nat) (l : list A) :
  snd <$> List.filter (fun c => q c.2) (imap (fun i x => (g i, x)) l)
  = List.filter q l.
Proof.
  revert g. induction l as [|x l IH]; intros g; [reflexivity|].
  cbn [imap List.filter]. simpl. destruct (q x); simpl; f_equal; apply (IH (g ∘ S)).
Qed.

Lemma objects_filter (q : Cookie -> bool) (l : list Cookie) :
  snd <$> List.filter (fun c => q c.2) (objects l) = List.filter q l.
Proof. apply (imap_pair_filter q id). Qed.

Lemma objects_identity (l : list Cookie) (c d : nat * Cookie) :
  c ∈ objects l -> d ∈ objects l -> d.1 = c.1 -> d = c.
Proof.
  unfold objects. rewrite !elem_of_lookup_imap.
  intros (i & x & -> & Hi) (j & y & -> & Hj). simpl. intros ->.
  rewrite Hi in Hj. by injection Hj as ->.
Qed.

Lemma includes_object_filter (p : nat * Cookie -> bool) (l : list Cookie)
    (c : nat * Cookie) :
  c ∈ objects l ->
  includes_object (List.filter p (objects l)) c = p c.
Proof.
  intros Hc. unfold includes_object. apply eq_true_iff_eq.
  rewrite existsb_exists. split.
  - intros (d & Hd & Heq). apply filter_In in Hd as [Hd Hp].
    apply Nat.eqb_eq in Heq. apply list_elem_of_In in Hd.
    by rewrite <- (objects_identity l c d Hc Hd Heq).
  - intros Hp. exists c. split; [|by apply Nat.eqb_eq].
    apply filter_In. split; [by apply list_elem_of_In | done].
Qed.

Lemma bool_filter_ext_in {A : Type} (p q : A -> bool) (l : list A) :
  (forall x, x ∈ l -> p x = q x) -> List.filter p l = List.filter q l.
Proof.
  intros H. apply filter_ext_in. intros x Hx. apply H. by apply list_elem_of_In.
Qed.

Lemma filter_length_split {A : Type} (p : A -> bool) (l : list A) :
  (length (List.filter p l) + length (List.filter (fun x => negb (p x)) l)
   = length l)%nat.
Proof.
  induction l as [|x l IH]; [reflexivity|]. simpl.
  destruct (p x); simpl; lia.
Qed.

(** What [deleteCookies] does when [all] is not set, in terms of the cookies
    themselves. *)
Lemma deleteCookies_calls (allCookies : list Cookie) (params : DeleteParams) :
  JS.truthy_bool (del_all params) = false ->
  deleteCookies allCookies params
  = ((if (0 <? length (List.filter (selected params) allCookies))%nat then
        ClearCookies ::
        (if (0 <? length (List.filter (fun c => negb (selected params c))
                            allCookies))%nat
         then [AddCookies (List.filter (fun c => negb (selected params c))
                             allCookies)]
         else [])
      else []),
     "Deleted "
       +:+ JS.num_to_string
             (Z.of_nat (length (List.filter (selected params) allCookies)))
       +:+ " cookie(s)").
Proof.
  intros Hall. unfold deleteCookies. rewrite Hall, to_delete_selected.
  assert (Hlen : length (List.filter (fun c => selected params c.2)
                           (objects allCookies))
                 = length (List.filter (selected params) allCookies)).
  { by rewrite <- (objects_filter (selected params)), length_fmap. }
  assert (Hkeep :
    List.filter
      (fun c => negb (includes_object
                        (List.filter (fun c0 => selected params c0.2)
                           (objects allCookies)) c))
      (objects allCookies)
    = List.filter (fun c => negb (selected params c.2)) (objects allCookies)).
  { apply bool_filter_ext_in. intros c Hc.
    by rewrite (includes_object_filter (fun c0 => selected params c0.2)). }
  rewrite Hkeep, Hlen.
  assert (Hklen : length (List.filter (fun c => negb (selected params c.2))
                            (objects allCookies))
                  = length (List.filter (fun c => negb (selected params c))
                              allCookies)).
  { by rewrite <- (objects_filter (fun c => negb (selected params c))),
      length_fmap. }
  rewrite Hklen, (objects_filter (fun c => negb (selected params c))).
  reflexivity.
Qed.

End CookieFacts.

(** X1.  When [all] is not set, [deleteCookies] leaves exactly the cookies
    that miss one of the criteria given (name, domain or dotted domain,
    path), in the order the driver listed them: if at least one cookie meets
    them all, the jar is cleared and the others are added back in a single
    call (no call to add when none is left); if none meets them, no call is
    made at all.  The number in the text is the number of cookies removed,
    and removed and kept together are all the cookies. *)
Theorem deleteCookies_keeps_the_unselected (allCookies : list Cookies.Cookie)
    (params : Cookies.DeleteParams) :
  JS.truthy_bool (Cookies.del_all params) = false ->
  exists removed kept,
    removed = List.filter (Cookies.selected params) allCookies /\
    kept = List.filter (fun c => negb (Cookies.selected params c)) allCookies /\
    (length removed + length kept = length allCookies)%nat /\
    (Cookies.deleteCookies allCookies params).2
    = "Deleted " +:+ JS.num_to_string (Z.of_nat (length removed)) +:+ " cookie(s)" /\
    (Cookies.deleteCookies allCookies params).1
    = match removed, kept with
      | [], _ => []
      | _ :: _, [] => [Cookies.ClearCookies]
      | _ :: _, _ :: _ => [Cookies.ClearCookies; Cookies.AddCookies kept]
      end.
Proof.
  intros Hall. eexists _, _. split; [reflexivity|]. split; [reflexivity|].
  split; [apply filter_length_split|].
  rewrite deleteCookies_calls by done. split; [reflexivity|]. simpl.
  destruct (List.filter (Cookies.selected params) allCookies); [reflexivity|].
  simpl. by destruct (List.filter _ allCookies).
Qed.

Lemma deleteCookies_keeps_the_unselected_witness :
  exists removed kept,
    removed = List.filter (Cookies.selected Samples.delete_by_name) Samples.jar /\
    kept = List.filter (fun c => negb (Cookies.selected Samples.delete_by_name c))
             Samples.jar /\
    (length removed + length kept = length Samples.jar)%nat /\
    (Cookies.deleteCookies Samples.jar Samples.delete_by_name).2
    = "Deleted " +:+ JS.num_to_string (Z.of_nat (length removed)) +:+ " cookie(s)" /\
    (Cookies.deleteCookies Samples.jar Samples.delete_by_name).1
    = match removed, kept with
      | [], _ => []
      | _ :: _, [] => [Cookies.ClearCookies]
      | _ :: _, _ :: _ => [Cookies.ClearCookies; Cookies.AddCookies kept]
      end.
Proof.
  apply (deleteCookies_keeps_the_unselected Samples.jar Samples.delete_by_name).
  reflexivity.
Defined.

(** X2.  [deleteCookies] called with no usable criterion (no name, domain or
    path, or empty ones) and without [all] still deletes every cookie: on a
    jar that is not empty it clears the jar, adds nothing back and reports
    the number of cookies there were. *)
Theorem deleteCookies_without_criteria_deletes_all
    (allCookies : list Cookies.Cookie) (params : Cookies.DeleteParams) :
  JS.truthy_bool (Cookies.del_all params) = false ->
  JS.truthy_str (Cookies.del_name params) = None ->
  JS.truthy_str (Cookies.del_domain params) = None ->
  JS.truthy_str (Cookies.del_path params) = None ->
  allCookies <> [] ->
  Cookies.deleteCookies allCookies params
  = ([Cookies.ClearCookies],
     "Deleted " +:+ JS.num_to_string (Z.of_nat (length allCookies))
       +:+ " cookie(s)").
Proof.
  intros Hall Hn Hd Hp Hne. rewrite deleteCookies_calls by done.
  assert (Hsel : forall c, Cookies.selected params c = true).
  { intros c. unfold Cookies.selected. by rewrite Hn, Hd, Hp. }
  rewrite (bool_filter_all _ _ Hsel).
  assert (Hnone : List.filter (fun c => negb (Cookies.selected params c))
                    allCookies = []).
  { induction allCookies as [|c l IH]; [reflexivity|]. simpl.
    rewrite Hsel. simpl. destruct l; [reflexivity|]. by apply IH. }
  rewrite Hnone. destruct allCookies; [done|]. reflexivity.
Qed.

Lemma deleteCookies_without_criteria_deletes_all_witness :
  Cookies.deleteCookies Samples.jar Samples.delete_nothing_named
  = ([Cookies.ClearCookies],
     "Deleted " +:+ JS.num_to_string (Z.of_nat (length Samples.jar))
       +:+ " cookie(s)").
Proof.
  apply (deleteCookies_without_criteria_deletes_all Samples.jar
           Samples.delete_nothing_named); try reflexivity.
  discriminate.
Defined.

(** X3.  Without a path criterion, [deleteCookies] selects exactly the
    cookies that [getCookies] lists for the same name and domain over all
    URLs, in the same order, and reports their number. *)
Theorem deleteCookies_selects_what_getCookies_lists
    (allCookies : list Cookies.Cookie) (params : Cookies.DeleteParams) :
  JS.truthy_bool (Cookies.del_all params) = false ->
  JS.truthy_str (Cookies.del_path params) = None ->
  snd <$> Cookies.to_delete params allCookies
  = Cookies.getCookies (fun _ => allCookies)
      (Cookies.mkGetParams None (Cookies.del_name params)
         (Cookies.del_domain params)) /\
  (Cookies.deleteCookies allCookies params).2
  = "Deleted "
      +:+ JS.num_to_string
            (Z.of_nat
               (length
                  (Cookies.getCookies (fun _ => allCookies)
                     (Cookies.mkGetParams None (Cookies.del_name params)
                        (Cookies.del_domain params)))))
      +:+ " cookie(s)".
Proof.
  intros Hall Hp.
  assert (Hget : Cookies.getCookies (fun _ => allCookies)
                   (Cookies.mkGetParams None (Cookies.del_name params)
                      (Cookies.del_domain params))
                 = List.filter (Cookies.selected params) allCookies).
  { unfold Cookies.getCookies. simpl. rewrite !filter_if_spec, filter_filter_andb.
    apply bool_filter_ext. intros c. unfold Cookies.selected.
    by rewrite Hp, andb_true_r. }
  rewrite Hget. split.
  - rewrite to_delete_selected. apply objects_filter.
  - by rewrite deleteCookies_calls.
Qed.

Lemma deleteCookies_selects_what_getCookies_lists_witness :
  snd <$> Cookies.to_delete Samples.delete_by_name_and_domain Samples.jar
  = Cookies.getCookies (fun _ => Samples.jar)
      (Cookies.mkGetParams None (Some "delete_this") (Some "h")) /\
  (Cookies.deleteCookies Samples.jar Samples.delete_by_name_and_domain).2
  = "Deleted "
      +:+ JS.num_to_string
            (Z.of_nat
               (length
                  (Cookies.getCookies (fun _ => Samples.jar)
                     (Cookies.mkGetParams None (Some "delete_this") (Some "h")))))
      +:+ " cookie(s)".
Proof.
  apply (deleteCookies_selects_what_getCookies_lists Samples.jar
           Samples.delete_by_name_and_domain); reflexivity.
Defined.

(** X4.  [getCookies] returns, in the order of the driver's answer for the
    given URLs, exactly the cookies of that answer that carry the name
    asked for and whose domain is the one asked for or that one behind a
    dot; a criterion that is absent or empty excludes nothing. *)
Theorem getCookies_filters_name_and_domain
    (context_cookies : option (list string) -> list Cookies.Cookie)
    (params : Cookies.GetParams) :
  Cookies.getCookies context_cookies params
    `sublist_of` context_cookies (Cookies.get_urls params) /\
  (forall c,
     c ∈ Cookies.getCookies context_cookies params <->
     c ∈ context_cookies (Cookies.get_urls params) /\
     (forall n, JS.truthy_str (Cookies.get_name params) = Some n ->
                Cookies.c_name c = n) /\
     (forall d, JS.truthy_str (Cookies.get_domain params) = Some d ->
                Cookies.c_domain c = d \/ Cookies.c_domain c = "." +:+ d)).
Proof.
  unfold Cookies.getCookies. rewrite !filter_if_spec, filter_filter_andb.
  split; [apply filter_sublist|]. intros c.
  rewrite elem_of_bool_filter, andb_true_iff.
  destruct (JS.truthy_str (Cookies.get_name params)) as [n|];
    destruct (JS.truthy_str (Cookies.get_domain params)) as [d|];
    unfold Cookies.domain_matches;
    rewrite ?orb_true_iff, ?bool_decide_eq_true; split.
  - intros (Hc & Hn & Hd). split; [done|]. split.
    + by intros ? [= <-].
    + by intros ? [= <-].
  - intros (Hc & Hn & Hd). auto.
  - intros (Hc & Hn & _). split; [done|]. split; [by intros ? [= <-] | done].
  - intros (Hc & Hn & _). auto.
  - intros (Hc & _ & Hd). split; [done|]. split; [done | by intros ? [= <-]].
  - intros (Hc & _ & Hd). auto.
  - intros (Hc & _). done.
  - intros (Hc & _). done.
Qed.

(** ** Frames *)

Lemma str_or_same (s : string) : JS.str_or (Some s) EmptyString = s.
Proof.
  unfold JS.str_or, JS.truthy_str. by destruct (decide (s = EmptyString)) as [->|].
Qed.

Lemma frame_at_of_nat (frames : list Frames.Frame) (i : nat) :
  Frames.frame_at frames (Z.of_nat i) = frames !! i.
Proof.
  unfold Frames.frame_at.
  destruct (Z.of_nat i <? 0)%Z eqn:E; [apply Z.ltb_lt in E; lia|].
  by rewrite Nat2Z.id.
Qed.

Lemma switchToFrame_by_index (tab : Frames.Tab) (i : Z) :
  Frames.switchToFrame tab (FrameListing.by_index i)
  = match Frames.frame_at (Frames.page_frames (Frames.tab_page tab)) i with
    | Some f =>
        inr (Frames.mkTab (Frames.tab_page tab) (Some f),
             "Switched to frame: " +:+ Frames.frame_url f)
    | None => inl Frames.frame_not_found
    end.
Proof. reflexivity. Qed.

(** X5.  The indices of [listFrames] are the indices [switchToFrame] takes:
    the list has one element for each frame of the page, the element at
    place [i] carries the index [i] and the URL and name of the frame at
    that place, and switching by that index selects this very frame and
    answers with its URL. *)
Theorem listFrames_index_selects_the_listed_frame
    (is_detached : Frames.Frame -> bool) (tab : Frames.Tab) (i : nat)
    (info : FrameListing.FrameInfo) :
  FrameListing.listFrames is_detached tab !! i = Some info ->
  length (FrameListing.listFrames is_detached tab)
  = length (Frames.page_frames (Frames.tab_page tab)) /\
  FrameListing.fi_index info = i /\
  exists f,
    Frames.page_frames (Frames.tab_page tab) !! i = Some f /\
    FrameListing.fi_url info = Frames.frame_url f /\
    FrameListing.fi_name info = Frames.frame_name f /\
    Frames.switchToFrame tab
      (FrameListing.by_index (Z.of_nat (FrameListing.fi_index info)))
    = inr (Frames.mkTab (Frames.tab_page tab) (Some f),
           "Switched to frame: " +:+ FrameListing.fi_url info).
Proof.
  unfold FrameListing.listFrames. rewrite length_imap, list_lookup_imap.
  intros H. split; [reflexivity|].
  destruct (Frames.page_frames (Frames.tab_page tab) !! i) as [f|] eqn:Ef;
    [|discriminate].
  simpl in H. injection H as <-. simpl. split; [reflexivity|].
  exists f. split; [reflexivity|]. split; [reflexivity|].
  split; [apply str_or_same|].
  by rewrite switchToFrame_by_index, frame_at_of_nat, Ef.
Qed.

Lemma listFrames_index_selects_the_listed_frame_witness :
  length (FrameListing.listFrames Samples.never_detached Examples.fresh_tab)
  = length (Frames.page_frames (Frames.tab_page Examples.fresh_tab)) /\
  FrameListing.fi_index
    (FrameListing.mkFrameInfo 1 "http://h/inner" "inner" false false (Some 0%Z))
  = 1%nat /\
  exists f,
    Frames.page_frames (Frames.tab_page Examples.fresh_tab) !! 1%nat = Some f /\
    "http://h/inner" = Frames.frame_url f /\
    "inner" = Frames.frame_name f /\
    Frames.switchToFrame Examples.fresh_tab (FrameListing.by_index 1)
    = inr (Frames.mkTab (Frames.tab_page Examples.fresh_tab) (Some f),
           "Switched to frame: http://h/inner").
Proof.
  apply (listFrames_index_selects_the_listed_frame Samples.never_detached
           Examples.fresh_tab 1
           (FrameListing.mkFrameInfo 1 "http://h/inner" "inner" false false
              (Some 0%Z))).
  reflexivity.
Defined.

(** X6.  An index that is negative or not below the number of frames names
    no frame: [switchToFrame] by such an index fails with "Frame not found"
    and the frame context of the tab stays as it was; so does
    [frameEvaluate], which does not fall back to the current frame. *)
Theorem frame_index_out_of_range_is_an_error (tab : Frames.Tab) (i : Z)
    (q : Frames.EvaluateParams) :
  (i < 0 \/ Z.of_nat (length (Frames.page_frames (Frames.tab_page tab))) <= i)%Z ->
  JS.truthy_str (Frames.fe_frameSelector q) = None ->
  JS.truthy_str (Frames.fe_frameName q) = None ->
  Frames.fe_frameIndex q = Some i ->
  Frames.switchToFrame tab (FrameListing.by_index i) = inl Frames.frame_not_found /\
  Frames.tab_step tab (Frames.EvSwitchToFrame (FrameListing.by_index i)) = tab /\
  Frames.frameEvaluate_target tab q = inl Frames.frame_not_found.
Proof.
  intros Hi Hs Hn Hq.
  assert (Hat : Frames.frame_at (Frames.page_frames (Frames.tab_page tab)) i = None).
  { unfold Frames.frame_at. destruct (i <? 0)%Z eqn:E; [reflexivity|].
    apply Z.ltb_ge in E. apply lookup_ge_None. lia. }
  split; [by rewrite switchToFrame_by_index, Hat|].
  split.
  - simpl. by rewrite switchToFrame_by_index, Hat.
  - unfold Frames.frameEvaluate_target. by rewrite Hs, Hn, Hq, Hat.
Qed.

Lemma frame_index_out_of_range_is_an_error_witness :
  Frames.switchToFrame Examples.fresh_tab (FrameListing.by_index 2)
  = inl Frames.frame_not_found /\
  Frames.tab_step Examples.fresh_tab
    (Frames.EvSwitchToFrame (FrameListing.by_index 2)) = Examples.fresh_tab /\
  Frames.frameEvaluate_target Examples.fresh_tab (Samples.evaluate_at 2)
  = inl Frames.frame_not_found.
Proof.
  apply (frame_index_out_of_range_is_an_error Examples.fresh_tab 2
           (Samples.evaluate_at 2)); try reflexivity.
  right. simpl. lia.
Defined.

(** X7.  The arguments of [switchToFrame] are tried in a fixed order and the
    first one supplied decides alone: with a selector the name, URL and
    index are ignored; without a selector, with a name the URL and index
    are ignored; without both, with a URL the index is ignored. *)
Theorem switchToFrame_first_argument_decides (tab : Frames.Tab)
    (p : Frames.SwitchParams) :
  (forall sel,
     JS.truthy_str (Frames.sw_frameSelector p) = Some sel ->
     Frames.switchToFrame tab p
     = Frames.switchToFrame tab (Frames.mkSwitchParams (Some sel) None None None)) /\
  (forall n,
     JS.truthy_str (Frames.sw_frameSelector p) = None ->
     JS.truthy_str (Frames.sw_frameName p) = Some n ->
     Frames.switchToFrame tab p
     = Frames.switchToFrame tab (Frames.mkSwitchParams None (Some n) None None)) /\
  (forall u,
     JS.truthy_str (Frames.sw_frameSelector p) = None ->
     JS.truthy_str (Frames.sw_frameName p) = None ->
     JS.truthy_str (Frames.sw_frameUrl p) = Some u ->
     Frames.switchToFrame tab p
     = Frames.switchToFrame tab (Frames.mkSwitchParams None None (Some u) None)).
Proof.
  assert (Hself : forall s t, JS.truthy_str t = Some s -> JS.truthy_str (Some s) = Some s).
  { intros s t H. apply truthy_str_Some in H as [_ H].
    apply truthy_str_Some. done. }
  split; [|split].
  - intros sel H. unfold Frames.switchToFrame, Frames.switch_target.
    cbn [Frames.sw_frameSelector Frames.sw_frameName Frames.sw_frameUrl
         Frames.sw_frameIndex].
    rewrite H, (Hself _ _ H). cbn [JS.truthy_str].
    by destruct (JS.truthy_str (Frames.sw_frameName p)),
      (JS.truthy_str (Frames.sw_frameUrl p)), (Frames.sw_frameIndex p).
  - intros n Hs H. unfold Frames.switchToFrame, Frames.switch_target.
    cbn [Frames.sw_frameSelector Frames.sw_frameName Frames.sw_frameUrl
         Frames.sw_frameIndex].
    rewrite Hs, H, (Hself _ _ H). cbn [JS.truthy_str].
    by destruct (JS.truthy_str (Frames.sw_frameUrl p)), (Frames.sw_frameIndex p).
  - intros u Hs Hn H. unfold Frames.switchToFrame, Frames.switch_target.
    cbn [Frames.sw_frameSelector Frames.sw_frameName Frames.sw_frameUrl
         Frames.sw_frameIndex].
    rewrite Hs, Hn, H, (Hself _ _ H). cbn [JS.truthy_str].
    by destruct (Frames.sw_frameIndex p).
Qed.

Lemma switchToFrame_first_argument_decides_witness :
  Frames.switchToFrame Examples.fresh_tab Samples.selector_and_name
  = Frames.switchToFrame Examples.fresh_tab
      (Frames.mkSwitchParams (Some "iframe") None None None).
Proof.
  apply (switchToFrame_first_argument_decides Examples.fresh_tab
           Samples.selector_and_name).
  reflexivity.
Defined.

(** X8.  [switchToMainFrame] clears the frame context whatever it was: the
    page stays, a [frameEvaluate] that names no frame then runs in the main
    frame, a second call changes nothing more, and after a successful
    [switchToFrame] on a tab without context it gives that tab back. *)
Theorem switchToMainFrame_clears_the_context (tab : Frames.Tab) :
  Frames.tab_page (Frames.switchToMainFrame tab).1 = Frames.tab_page tab /\
  (forall q,
     Frames.no_frame_argument q ->
     Frames.frameEvaluate_target (Frames.switchToMainFrame tab).1 q
     = inr (Frames.page_mainFrame (Frames.tab_page tab))) /\
  Frames.switchToMainFrame (Frames.switchToMainFrame tab).1
  = Frames.switchToMainFrame tab /\
  (forall p tab' text,
     Frames.tab_currentFrame tab = None ->
     Frames.switchToFrame tab p = inr (tab', text) ->
     (Frames.switchToMainFrame tab').1 = tab).
Proof.
  split; [reflexivity|]. split.
  - intros q Hq. by rewrite frameEvaluate_target_default.
  - split; [reflexivity|]. intros p tab' text Hnone Hsw.
    apply switchToFrame_success in Hsw as (f & _ & -> & _).
    destruct tab as [page cur]. simpl in *. by subst cur.
Qed.

Lemma switchToMainFrame_clears_the_context_witness :
  Frames.frameEvaluate_target
    (Frames.switchToMainFrame
       (Frames.mkTab Examples.two_frame_page (Some Examples.inner_frame))).1
    Examples.evaluate_no_frame
  = inr Examples.main_frame /\
  (Frames.switchToMainFrame
     (Frames.mkTab Examples.two_frame_page (Some Examples.inner_frame))).1
  = Examples.fresh_tab.
Proof.
  split.
  - apply (switchToMainFrame_clears_the_context
             (Frames.mkTab Examples.two_frame_page (Some Examples.inner_frame))).
    repeat split.
  - apply (proj2 (proj2 (proj2 (switchToMainFrame_clears_the_context
                                  Examples.fresh_tab)))
             Examples.switch_by_name _ "Switched to frame: http://h/inner");
      reflexivity.
Defined.

(** X9.  A [frameEvaluate] that names a frame (by selector, name or index)
    never looks at the frame context of the tab: on the same page it picks
    the same frame, or fails the same way, whatever frame is current. *)
Theorem frameEvaluate_argument_overrides_context (page : Frames.Page)
    (current1 current2 : option Frames.Frame) (q : Frames.EvaluateParams) :
  ~ Frames.no_frame_argument q ->
  Frames.frameEvaluate_target (Frames.mkTab page current1) q
  = Frames.frameEvaluate_target (Frames.mkTab page current2) q.
Proof.
  intros Hq. unfold Frames.frameEvaluate_target. simpl.
  destruct (JS.truthy_str (Frames.fe_frameSelector q)) eqn:Es; [reflexivity|].
  destruct (JS.truthy_str (Frames.fe_frameName q)) eqn:En; [reflexivity|].
  destruct (Frames.fe_frameIndex q) eqn:Ei; [reflexivity|].
  destruct Hq. by repeat split.
Qed.

Lemma frameEvaluate_argument_overrides_context_witness :
  Frames.frameEvaluate_target
    (Frames.mkTab Examples.two_frame_page (Some Examples.inner_frame))
    (Samples.evaluate_at 0)
  = Frames.frameEvaluate_target (Frames.mkTab Examples.two_frame_page None)
      (Samples.evaluate_at 0).
Proof.
  apply (frameEvaluate_argument_overrides_context Examples.two_frame_page
           (Some Examples.inner_frame) None (Samples.evaluate_at 0)).
  intros (_ & _ & H). discriminate H.
Defined.

Lemma index_of_bounds (frames : list Frames.Frame) (id : nat) :
  (-1 <= FrameListing.index_of frames id < Z.of_nat (length frames))%Z.
Proof.
  induction frames as [|f frames IH]; simpl; [lia|].
  destruct (Nat.eqb (Frames.frame_id f) id); [lia|].
  destruct (FrameListing.index_of frames id <? 0)%Z eqn:E; [lia|].
  apply Z.ltb_ge in E. lia.
Qed.

Lemma index_of_found (frames : list Frames.Frame) (id : nat) :
  (0 <= FrameListing.index_of frames id)%Z ->
  exists p,
    Frames.frame_at frames (FrameListing.index_of frames id) = Some p /\
    Frames.frame_id p = id.
Proof.
  induction frames as [|f frames IH]; simpl; [lia|].
  destruct (Nat.eqb (Frames.frame_id f) id) eqn:Ef.
  - intros _. exists f. split; [reflexivity | by apply Nat.eqb_eq].
  - destruct (FrameListing.index_of frames id <? 0)%Z eqn:E; [lia|].
    apply Z.ltb_ge in E. intros _. destruct (IH E) as (p & Hp & Hid).
    exists p. split; [|done]. unfold Frames.frame_at in *.
    destruct (FrameListing.index_of frames id <? 0)%Z eqn:E1;
      [apply Z.ltb_lt in E1; lia|].
    destruct (FrameListing.index_of frames id + 1 <? 0)%Z eqn:E2;
      [apply Z.ltb_lt in E2; lia|].
    replace (Z.to_nat (FrameListing.index_of frames id + 1))
      with (S (Z.to_nat (FrameListing.index_of frames id))) by lia.
    exact Hp.
Qed.

Lemma index_of_missing (frames : list Frames.Frame) (id : nat) :
  FrameListing.index_of frames id = (-1)%Z ->
  forall p, p ∈ frames -> Frames.frame_id p <> id.
Proof.
  induction frames as [|f frames IH]; simpl; [by intros _ p ?%elem_of_nil|].
  destruct (Nat.eqb (Frames.frame_id f) id) eqn:Ef; [discriminate|].
  apply Nat.eqb_neq in Ef.
  destruct (FrameListing.index_of frames id <? 0)%Z eqn:E.
  - intros _ p [->|Hp]%elem_of_cons; [done|]. apply IH; [|done].
    pose proof (index_of_bounds frames id). apply Z.ltb_lt in E. lia.
  - apply Z.ltb_ge in E. lia.
Qed.

(** X10.  The [parentFrame] field of [listFrames] is null exactly for a
    frame without parent; otherwise it is [-1] when the parent is not among
    the frames of the page, or else an index that [switchToFrame] resolves
    to the parent frame. *)
Theorem listFrames_parent_index (is_detached : Frames.Frame -> bool)
    (tab : Frames.Tab) (i : nat) (f : Frames.Frame)
    (info : FrameListing.FrameInfo) :
  Frames.page_frames (Frames.tab_page tab) !! i = Some f ->
  FrameListing.listFrames is_detached tab !! i = Some info ->
  match Frames.frame_parent f with
  | None => FrameListing.fi_parentFrame info = None
  | Some parent =>
      exists j,
        FrameListing.fi_parentFrame info = Some j /\
        ((j = (-1)%Z /\
          forall p, p ∈ Frames.page_frames (Frames.tab_page tab) ->
                    Frames.frame_id p <> parent) \/
         (exists p,
            Frames.frame_id p = parent /\
            Frames.switchToFrame tab (FrameListing.by_index j)
            = inr (Frames.mkTab (Frames.tab_page tab) (Some p),
                   "Switched to frame: " +:+ Frames.frame_url p)))
  end.
Proof.
  intros Hf. unfold FrameListing.listFrames. rewrite list_lookup_imap, Hf.
  simpl. intros H. injection H as <-. simpl.
  destruct (Frames.frame_parent f) as [parent|]; [|reflexivity].
  eexists. split; [reflexivity|].
  pose proof (index_of_bounds (Frames.page_frames (Frames.tab_page tab)) parent)
    as Hb.
  destruct (decide (FrameListing.index_of
                      (Frames.page_frames (Frames.tab_page tab)) parent
                    = (-1)%Z)) as [Hm|Hm].
  - left. split; [done|]. by apply index_of_missing.
  - right. destruct (index_of_found (Frames.page_frames (Frames.tab_page tab))
                       parent) as (p & Hp & Hid); [lia|].
    exists p. split; [done|]. by rewrite switchToFrame_by_index, Hp.
Qed.

Lemma listFrames_parent_index_witness :
  exists j,
    FrameListing.fi_parentFrame
      (FrameListing.mkFrameInfo 1 "http://h/inner" "inner" false false (Some 0%Z))
    = Some j /\
    ((j = (-1)%Z /\
      forall p, p ∈ Frames.page_frames (Frames.tab_page Examples.fresh_tab) ->
                Frames.frame_id p <> 0%nat) \/
     (exists p,
        Frames.frame_id p = 0%nat /\
        Frames.switchToFrame Examples.fresh_tab (FrameListing.by_index j)
        = inr (Frames.mkTab (Frames.tab_page Examples.fresh_tab) (Some p),
               "Switched to frame: " +:+ Frames.frame_url p))).
Proof.
  apply (listFrames_parent_index Samples.never_detached Examples.fresh_tab 1
           Examples.inner_frame
           (FrameListing.mkFrameInfo 1 "http://h/inner" "inner" false false
              (Some 0%Z))); reflexivity.
Defined.

(** ** Storage *)

Section MoreStorageFacts.

Import Storage StorageSteps.

Lemma getItem_None (st : Area) (k : string) :
  getItem st k = None <-> k ∉ st.*1.
Proof.
  induction st as [|[k0 v0] st IH]; cbn [getItem fmap list_fmap fst].
  - split; [intros _; apply not_elem_of_nil | done].
  - destruct (decide (k0 = k)) as [->|Hne].
    + split; [discriminate|]. intros H. destruct H. by left.
    + rewrite IH, not_elem_of_cons. split; [intros H; split; [congruence|done]|].
      by intros [_ H].
Qed.

Lemma setItem_keys_old (st : Area) (k v : string) :
  k ∈ st.*1 -> (setItem st k v).*1 = st.*1.
Proof.
  induction st as [|[k0 v0] st IH]; cbn [setItem fmap list_fmap fst].
  - by intros ?%elem_of_nil.
  - destruct (decide (k0 = k)) as [->|Hne]; [reflexivity|].
    intros [->|Hin]%elem_of_cons; [done|].
    cbn [fmap list_fmap fst]. f_equal. by apply IH.
Qed.

Lemma setItem_keys_new (st : Area) (k v : string) :
  k ∉ st.*1 -> (setItem st k v).*1 = st.*1 ++ [k].
Proof.
  induction st as [|[k0 v0] st IH]; cbn [setItem fmap list_fmap fst].
  - reflexivity.
  - intros [Hk0 Hout]%not_elem_of_cons.
    rewrite decide_False by congruence.
    cbn [fmap list_fmap fst app]. f_equal. by apply IH.
Qed.

Lemma setItem_NoDup (st : Area) (k v : string) :
  NoDup st.*1 -> NoDup (setItem st k v).*1.
Proof.
  intros H. destruct (decide (k ∈ st.*1)) as [Hin|Hout].
  - by rewrite setItem_keys_old.
  - rewrite setItem_keys_new by done.
    apply NoDup_app. split; [done|]. split; [|apply NoDup_singleton].
    intros x Hx ->%list_elem_of_singleton. done.
Qed.

Lemma write_entries_NoDup (entries : list (string * string)) (st : Area) :
  NoDup st.*1 -> NoDup (write_entries entries st).*1.
Proof.
  revert st. induction entries as [|e entries IH]; intros st H; [done|].
  unfold write_entries. cbn [fold_left]. apply IH. by apply setItem_NoDup.
Qed.

Lemma removeItem_sublist (st : Area) (k : string) :
  removeItem st k `sublist_of` st.
Proof.
  induction st as [|[k0 v0] st IH]; cbn [removeItem]; [done|].
  destruct (decide (k0 = k)); by constructor.
Qed.

Lemma removeItem_NoDup (st : Area) (k : string) :
  NoDup st.*1 -> NoDup (removeItem st k).*1.
Proof.
  intros H. eapply sublist_NoDup; [exact H|].
  apply fmap_sublist, removeItem_sublist.
Qed.

Lemma getItem_removeItem_same (st : Area) (k : string) :
  NoDup st.*1 -> getItem (removeItem st k) k = None.
Proof.
  induction st as [|[k0 v0] st IH]; cbn [removeItem getItem fmap list_fmap fst];
    intros Hnd; [reflexivity|].
  apply NoDup_cons in Hnd as [Hk0 Hnd].
  destruct (decide (k0 = k)) as [->|Hne]; [by apply getItem_None|].
  cbn [getItem]. rewrite decide_False by done. by apply IH.
Qed.

Lemma getItem_removeItem_other (st : Area) (k k' : string) :
  k <> k' -> getItem (removeItem st k) k' = getItem st k'.
Proof.
  intros Hkk. induction st as [|[k0 v0] st IH]; cbn [removeItem getItem];
    [reflexivity|].
  destruct (decide (k0 = k)) as [->|Hne].
  - by rewrite decide_False by done.
  - cbn [getItem]. by rewrite IH.
Qed.

Lemma removeItem_length (st : Area) (k : string) :
  is_Some (getItem st k) -> S (length (removeItem st k)) = length st.
Proof.
  induction st as [|[k0 v0] st IH]; cbn [removeItem getItem];
    [by intros [? ?]|].
  destruct (decide (k0 = k)); [done|]. intros H. cbn [length]. by rewrite IH.
Qed.

Lemma removeKeys_spec (keys : list string) (st : Area) (count : nat) :
  NoDup st.*1 ->
  NoDup (fold_left remove_step keys (st, count)).1.*1 /\
  (forall k, k ∈ keys ->
             getItem (fold_left remove_step keys (st, count)).1 k = None) /\
  (forall k, k ∉ keys ->
             getItem (fold_left remove_step keys (st, count)).1 k = getItem st k) /\
  ((fold_left remove_step keys (st, count)).2
   + length (fold_left remove_step keys (st, count)).1
   = count + length st)%nat.
Proof.
  revert st count. induction keys as [|k0 keys IH]; intros st count Hnd;
    cbn [fold_left].
  - split; [done|]. split; [by intros k ?%elem_of_nil|]. done.
  - destruct (getItem st k0) as [v|] eqn:Eg.
    + assert (remove_step (st, count) k0 = (removeItem st k0, S count)) as ->
        by (unfold remove_step; by rewrite Eg).
      destruct (IH (removeItem st k0) (S count) (removeItem_NoDup _ _ Hnd))
        as (H1 & H2 & H3 & H4).
      split; [done|]. split; [|split].
      * intros k Hk. destruct (decide (k ∈ keys)) as [Hin|Hout]; [by apply H2|].
        apply elem_of_cons in Hk as [->|Hk]; [|done].
        rewrite H3 by done. by apply getItem_removeItem_same.
      * intros k [Hk0 Hk]%not_elem_of_cons. rewrite H3 by done.
        apply getItem_removeItem_other. congruence.
      * rewrite H4. pose proof (removeItem_length st k0 (mk_is_Some _ _ Eg)). lia.
    + assert (remove_step (st, count) k0 = (st, count)) as ->
        by (unfold remove_step; by rewrite Eg).
      destruct (IH st count Hnd) as (H1 & H2 & H3 & H4).
      split; [done|]. split; [|split; [|done]].
      * intros k Hk. destruct (decide (k ∈ keys)) as [Hin|Hout]; [by apply H2|].
        apply elem_of_cons in Hk as [->|Hk]; [|done].
        by rewrite H3.
      * intros k [Hk0 Hk]%not_elem_of_cons. by apply H3.
Qed.

Lemma fold_left_pointwise {A B : Type} (f g : A -> B -> A) (l : list B) (a : A) :
  (forall x y, f x y = g x y) -> fold_left f l a = fold_left g l a.
Proof.
  intros H. revert a. induction l as [|y l IH]; intros a; [reflexivity|].
  cbn [fold_left]. by rewrite H, IH.
Qed.

Lemma removeKeys_fold (keys : list string) (st : Area) :
  removeKeys keys st = fold_left remove_step keys (st, 0%nat).
Proof.
  unfold removeKeys. apply fold_left_pointwise. by intros [s c] k.
Qed.

Lemma removeKeys_facts (keys : list string) (st : Area) :
  NoDup st.*1 ->
  NoDup (removeKeys keys st).1.*1 /\
  (forall k, k ∈ keys -> getItem (removeKeys keys st).1 k = None) /\
  (forall k, k ∉ keys -> getItem (removeKeys keys st).1 k = getItem st k) /\
  ((removeKeys keys st).2 = length st - length (removeKeys keys st).1)%nat.
Proof.
  intros H. rewrite removeKeys_fold.
  destruct (removeKeys_spec keys st 0 H) as (H1 & H2 & H3 & H4).
  split; [done|]. split; [done|]. split; [done|]. lia.
Qed.

End MoreStorageFacts.

Lemma getStorage_lookup (type : Storage.StorageType) (ps : Storage.PageStorage)
    (k : string) :
  Storage.getStorage type ps !! k
  = if decide (k = EmptyString \/ k = "__proto__") then None
    else Storage.getItem (Storage.area_of type ps) k.
Proof. apply read_area_lookup. Qed.

(** X11.  [setStorage] merges into what the area holds: afterwards
    [getStorage] shows, for every key but the empty one and [__proto__]
    (which it never shows), the new value when the data has the key, and
    otherwise the value it showed before, or nothing when [clear] was asked
    for. *)
Theorem setStorage_merges_into_the_area (type : Storage.StorageType)
    (data : gmap string string) (clear_first : option bool)
    (ps : Storage.PageStorage) (k : string) :
  Storage.getStorage type (Storage.setStorage type data clear_first ps).1 !! k
  = if decide (k = EmptyString \/ k = "__proto__") then None
    else match data !! k with
         | Some v => Some v
         | None =>
             if JS.truthy_bool clear_first then None
             else Storage.getStorage type ps !! k
         end.
Proof.
  rewrite !getStorage_lookup.
  destruct (decide (k = EmptyString \/ k = "__proto__")); [reflexivity|].
  unfold Storage.setStorage. cbn [fst]. rewrite area_of_with_area.
  rewrite getItem_write_entries by apply NoDup_fst_map_to_list.
  rewrite list_to_map_to_list.
  destruct (data !! k); [reflexivity|].
  by destruct (JS.truthy_bool clear_first).
Qed.

(** X12.  A storage tool called for one area leaves the other alone:
    [setStorage] of [local] does not change [sessionStorage] nor the other
    way round, and the same holds for [clearStorage] with the type [local]
    or [session], with or without a list of keys. *)
Theorem storage_tools_touch_one_area (data : gmap string string)
    (clear_first : option bool) (keys : option (list string))
    (ps : Storage.PageStorage) :
  Storage.sessionStorage
    (Storage.setStorage Storage.local data clear_first ps).1
  = Storage.sessionStorage ps /\
  Storage.localStorage
    (Storage.setStorage Storage.session data clear_first ps).1
  = Storage.localStorage ps /\
  Storage.sessionStorage
    (Storage.clearStorage (Some Storage.clear_local) keys ps).1
  = Storage.sessionStorage ps /\
  Storage.localStorage
    (Storage.clearStorage (Some Storage.clear_session) keys ps).1
  = Storage.localStorage ps.
Proof.
  split; [reflexivity|]. split; [reflexivity|].
  unfold Storage.clearStorage. cbn [default Storage.touches_local
    Storage.touches_session].
  split; destruct keys as [ks|]; try reflexivity.
  - by destruct (Storage.removeKeys ks (Storage.localStorage ps)).
  - by destruct (Storage.removeKeys ks (Storage.sessionStorage ps)).
Qed.

Lemma clearStorage_keys_areas (type_opt : option Storage.ClearType)
    (keys : list string) (ps : Storage.PageStorage) :
  (Storage.clearStorage type_opt (Some keys) ps).1
  = {| Storage.localStorage :=
         if Storage.touches_local (default Storage.clear_all type_opt)
         then (Storage.removeKeys keys (Storage.localStorage ps)).1
         else Storage.localStorage ps;
       Storage.sessionStorage :=
         if Storage.touches_session (default Storage.clear_all type_opt)
         then (Storage.removeKeys keys (Storage.sessionStorage ps)).1
         else Storage.sessionStorage ps |}.
Proof.
  unfold Storage.clearStorage.
  destruct (Storage.touches_local (default Storage.clear_all type_opt)),
    (Storage.touches_session (default Storage.clear_all type_opt));
    repeat match goal with
           | |- context [Storage.removeKeys ?k ?s] =>
               destruct (Storage.removeKeys k s)
           end; reflexivity.
Qed.

(** X13.  [clearStorage] with a list of keys removes those keys and nothing
    else from each area its type names (both when the type is omitted):
    afterwards [getStorage] shows no listed key and every other key as
    before, while an area the type does not name is shown unchanged. *)
Theorem clearStorage_removes_the_listed_keys
    (type_opt : option Storage.ClearType) (keys : list string)
    (ps : Storage.PageStorage) (type : Storage.StorageType) (k : string) :
  NoDup (Storage.localStorage ps).*1 ->
  NoDup (Storage.sessionStorage ps).*1 ->
  Storage.getStorage type (Storage.clearStorage type_opt (Some keys) ps).1 !! k
  = if (match type with
        | Storage.local =>
            Storage.touches_local (default Storage.clear_all type_opt)
        | Storage.session =>
            Storage.touches_session (default Storage.clear_all type_opt)
        end) && bool_decide (k ∈ keys)
    then None
    else Storage.getStorage type ps !! k.
Proof.
  intros Hl Hs. rewrite !getStorage_lookup, clearStorage_keys_areas.
  destruct (removeKeys_facts keys _ Hl) as (_ & Hl1 & Hl2 & _).
  destruct (removeKeys_facts keys _ Hs) as (_ & Hs1 & Hs2 & _).
  destruct (decide (k = EmptyString \/ k = "__proto__")) as [|Hne].
  - by destruct (_ && _).
  - destruct type; cbn [Storage.area_of Storage.localStorage
                        Storage.sessionStorage].
    + destruct (Storage.touches_local _); [|reflexivity]. cbn [andb].
      destruct (bool_decide_reflect (k ∈ keys)); [by apply Hl1 | by apply Hl2].
    + destruct (Storage.touches_session _); [|reflexivity]. cbn [andb].
      destruct (bool_decide_reflect (k ∈ keys)); [by apply Hs1 | by apply Hs2].
Qed.

Lemma clearStorage_removes_the_listed_keys_witness :
  Storage.getStorage Storage.local
    (Storage.clearStorage None (Some ["a"; "zz"; "a"]) Samples.stocked_page).1
    !! "b"
  = if Storage.touches_local (default Storage.clear_all None)
       && bool_decide ("b" ∈ ["a"; "zz"; "a"])
    then None
    else Storage.getStorage Storage.local Samples.stocked_page !! "b".
Proof.
  apply (clearStorage_removes_the_listed_keys None ["a"; "zz"; "a"]
           Samples.stocked_page Storage.local "b").
  - refine (bool_decide_unpack _ _). vm_compute. exact I.
  - refine (bool_decide_unpack _ _). vm_compute. exact I.
Defined.

(** X14.  The number [clearStorage] reports for a list of keys is the number
    of entries that left the areas: for the type [local] or [session] the
    text is "Removed n item(s)" with [n] the shrinkage of that area, however
    often a key is listed and whether or not it was there. *)
Theorem clearStorage_reports_what_it_removed (type : Storage.StorageType)
    (keys : list string) (ps : Storage.PageStorage) :
  NoDup (Storage.area_of type ps).*1 ->
  (Storage.clearStorage (Some (Storage.clear_type_of type)) (Some keys) ps).2
  = "Removed "
      +:+ JS.num_to_string
            (Z.of_nat
               (length (Storage.area_of type ps)
                - length
                    (Storage.area_of type
                       (Storage.clearStorage
                          (Some (Storage.clear_type_of type)) (Some keys) ps).1)))
      +:+ " item(s)".
Proof.
  intros H. rewrite clearStorage_keys_areas.
  destruct (removeKeys_facts keys _ H) as (_ & _ & _ & Hcount).
  unfold Storage.clearStorage. destruct type; simpl in *.
  - destruct (Storage.removeKeys keys (Storage.localStorage ps)) as [l n].
    simpl in *. subst n. by rewrite Nat.add_0_r.
  - destruct (Storage.removeKeys keys (Storage.sessionStorage ps)) as [l n].
    simpl in *. by subst n.
Qed.

Lemma clearStorage_reports_what_it_removed_witness :
  (Storage.clearStorage (Some (Storage.clear_type_of Storage.local))
     (Some ["a"; "zz"; "a"]) Samples.stocked_page).2
  = "Removed "
      +:+ JS.num_to_string
            (Z.of_nat
               (length (Storage.area_of Storage.local Samples.stocked_page)
                - length
                    (Storage.area_of Storage.local
                       (Storage.clearStorage
                          (Some (Storage.clear_type_of Storage.local))
                          (Some ["a"; "zz"; "a"]) Samples.stocked_page).1)))
      +:+ " item(s)".
Proof.
  apply (clearStorage_reports_what_it_removed Storage.local ["a"; "zz"; "a"]
           Samples.stocked_page).
  refine (bool_decide_unpack _ _). vm_compute. exact I.
Defined.

(** X15.  The storage tools keep the keys of an area distinct: if no key
    occurs twice in either area, that is still so after [setStorage] and
    after [clearStorage], whatever their arguments. *)
Theorem storage_tools_keep_keys_distinct (ps : Storage.PageStorage) :
  NoDup (Storage.localStorage ps).*1 ->
  NoDup (Storage.sessionStorage ps).*1 ->
  (forall type data clear_first,
     NoDup (Storage.localStorage
              (Storage.setStorage type data clear_first ps).1).*1 /\
     NoDup (Storage.sessionStorage
              (Storage.setStorage type data clear_first ps).1).*1) /\
  (forall type_opt keys_opt,
     NoDup (Storage.localStorage
              (Storage.clearStorage type_opt keys_opt ps).1).*1 /\
     NoDup (Storage.sessionStorage
              (Storage.clearStorage type_opt keys_opt ps).1).*1).
Proof.
  intros Hl Hs. split.
  - intros type data clear_first. unfold Storage.setStorage. cbn [fst].
    assert (Hw : forall st : Storage.Area,
               NoDup st.*1 ->
               NoDup (Storage.write_entries (map_to_list data)
                        (if JS.truthy_bool clear_first then Storage.clear st
                         else st)).*1).
    { intros st H. apply write_entries_NoDup.
      destruct (JS.truthy_bool clear_first); [apply NoDup_nil_2 | done]. }
    destruct type; cbn [Storage.with_area Storage.localStorage
                        Storage.sessionStorage Storage.area_of]; split; auto.
  - intros type_opt [keys|].
    + rewrite clearStorage_keys_areas. cbn [Storage.localStorage
        Storage.sessionStorage].
      destruct (removeKeys_facts keys _ Hl) as (Hl' & _).
      destruct (removeKeys_facts keys _ Hs) as (Hs' & _).
      by destruct (Storage.touches_local _), (Storage.touches_session _).
    + unfold Storage.clearStorage.
      destruct (Storage.touches_local _), (Storage.touches_session _);
        cbn [fst Storage.localStorage Storage.sessionStorage Storage.clear];
        split; try done; apply NoDup_nil_2.
Qed.

Lemma storage_tools_keep_keys_distinct_witness :
  NoDup (Storage.localStorage
           (Storage.setStorage Storage.local {["a" := "9"]} None
              Samples.stocked_page).1).*1 /\
  NoDup (Storage.sessionStorage
           (Storage.setStorage Storage.local {["a" := "9"]} None
              Samples.stocked_page).1).*1.
Proof.
  apply (storage_tools_keep_keys_distinct Samples.stocked_page).
  - refine (bool_decide_unpack _ _). vm_compute. exact I.
  - refine (bool_decide_unpack _ _). vm_compute. exact I.
Defined.

(** ** Responses and requests *)

Lemma optional_clause {A : Type} (o : option A) (P : A -> Prop)
    (b : A -> bool) :
  (forall a, b a = true <-> P a) ->
  match o with Some a => b a | None => true end = true <->
  (forall a, o = Some a -> P a).
Proof.
  intros H. destruct o as [a|]; split.
  - intros Hb a' Heq. injection Heq as <-. by apply H.
  - intros Hp. apply H. by apply Hp.
  - intros _ a Heq. discriminate Heq.
  - reflexivity.
Qed.

Lemma collect_responses_omap (log : Network.RequestLog) :
  Network.collect_responses log = omap snd log.
Proof.
  induction log as [|[r [resp|]] log IH]; cbn [Network.collect_responses];
    [reflexivity| |]; cbn [omap list_omap snd]; by rewrite IH.
Qed.

Lemma getResponses_filter (beyond : RegExp.Beyond)
    (filter : option Network.ResponseFilter) (log : Network.RequestLog)
    (pattern : option (string -> bool)) :
  Responses.compiled_url_clause beyond filter = Some pattern ->
  Network.getResponses beyond filter log
  = Some (List.filter (Responses.response_passes filter pattern)
            (Network.collect_responses log)).
Proof.
  unfold Responses.compiled_url_clause, Network.getResponses,
    Responses.response_passes, Responses.in_range.
  intros H.
  destruct (JS.truthy_str (filter ≫= Network.rfilter_url)) as [u|];
    [destruct (Network.url_pattern beyond u) as [re|]; [|discriminate]|];
    injection H as <-;
    destruct (JS.truthy_num (filter ≫= Network.rfilter_status));
    destruct (filter ≫= Network.rfilter_statusRange);
    f_equal; rewrite <- (filter_true (Network.collect_responses log)) at 1;
    rewrite ?filter_filter_andb; apply bool_filter_ext; intros x; simpl;
    rewrite ?andb_true_r, ?andb_assoc; reflexivity.
Qed.

Lemma getResponses_throws (beyond : RegExp.Beyond)
    (filter : option Network.ResponseFilter) (log : Network.RequestLog) :
  Responses.compiled_url_clause beyond filter = None ->
  Network.getResponses beyond filter log = None.
Proof.
  unfold Responses.compiled_url_clause, Network.getResponses.
  destruct (JS.truthy_str (filter ≫= Network.rfilter_url)) as [u|]; [|discriminate].
  by destruct (Network.url_pattern beyond u).
Qed.

(** X16.  [getResponses] looks only at the entries of the log that have a
    response, in the order of the log, and returns (when the URL clause, if
    any, compiles, whatever syntax of regular expressions it uses) exactly
    those responses that pass every clause given: the test of the regular
    expression that the URL with every [*] rewritten to [.*] compiles to,
    equality with a status other than 0, and a status between the bounds of
    the range, bounds included.  When the URL clause does not compile the
    tool throws. *)
Theorem getResponses_filters_compose (beyond : RegExp.Beyond)
    (filter : option Network.ResponseFilter) (log : Network.RequestLog) :
  match Responses.compiled_url_clause beyond filter with
  | Some pattern =>
      exists kept,
        Network.getResponses beyond filter log = Some kept /\
        kept `sublist_of` omap snd log /\
        (forall r,
           r ∈ kept <->
           r ∈ omap snd log /\
           match pattern with
           | Some test => test (Network.resp_url r) = true
           | None => True
           end /\
           (forall s, JS.truthy_num (filter ≫= Network.rfilter_status) = Some s ->
                      Network.resp_status r = s) /\
           (forall rg, filter ≫= Network.rfilter_statusRange = Some rg ->
                       (Network.range_min rg <= Network.resp_status r
                        <= Network.range_max rg)%Z)) /\
        match JS.truthy_str (filter ≫= Network.rfilter_url) with
        | Some u =>
            exists test,
              pattern = Some test /\
              RegExp.new_RegExp beyond (JS.replace_star (list_ascii_of_string u))
              = Some test
        | None => pattern = None
        end
  | None => Network.getResponses beyond filter log = None
  end.
Proof.
  destruct (Responses.compiled_url_clause beyond filter) as [pattern|] eqn:H;
    [|by apply getResponses_throws].
  eexists. split; [by apply getResponses_filter|].
  rewrite <- collect_responses_omap. split; [apply filter_sublist|]. split.
  - intros r. rewrite elem_of_bool_filter. unfold Responses.response_passes.
    rewrite !andb_true_iff.
    rewrite (optional_clause _ (fun s => Network.resp_status r = s))
      by (intros s; apply bool_decide_eq_true).
    rewrite (optional_clause _
               (fun rg => (Network.range_min rg <= Network.resp_status r
                           <= Network.range_max rg)%Z))
      by (intros rg; unfold Responses.in_range;
          by rewrite andb_true_iff, !Z.leb_le).
    destruct pattern as [re|]; split.
    + intros (Hr & (H1 & H2) & H3). done.
    + intros (Hr & H1 & H2 & H3). done.
    + intros (Hr & (_ & H2) & H3). done.
    + intros (Hr & _ & H2 & H3). done.
  - unfold Responses.compiled_url_clause, Network.url_pattern in H.
    destruct (JS.truthy_str (filter ≫= Network.rfilter_url)) as [u|].
    + destruct (RegExp.new_RegExp beyond _) as [test|]; [|discriminate].
      injection H as <-. eauto.
    + by injection H as <-.
Qed.

Lemma getResponses_filters_compose_witness :
  exists kept,
    Network.getResponses Examples.sample_engine Samples.error_range_filter
      Samples.answered_log
    = Some kept /\
    kept `sublist_of` omap snd Samples.answered_log /\
    (forall r,
       r ∈ kept <->
       r ∈ omap snd Samples.answered_log /\
       True /\
       (forall s,
          JS.truthy_num (Samples.error_range_filter ≫= Network.rfilter_status)
          = Some s ->
          Network.resp_status r = s) /\
       (forall rg,
          Samples.error_range_filter ≫= Network.rfilter_statusRange = Some rg ->
          (Network.range_min rg <= Network.resp_status r
           <= Network.range_max rg)%Z)).
Proof.
  destruct (getResponses_filters_compose Examples.sample_engine
              Samples.error_range_filter Samples.answered_log)
    as (kept & H1 & H2 & H3 & _).
  exists kept. split; [exact H1|]. split; [exact H2|]. exact H3.
Defined.

(** X17.  A status range whose lower bound is above its upper bound selects
    nothing: whenever the URL clause is absent or compiles, [getResponses]
    returns the empty list, for every log and whatever the status clause
    is; when the URL clause does not compile the tool throws, as it does
    without the range. *)
Theorem getResponses_inverted_range_is_empty (beyond : RegExp.Beyond)
    (filter : Network.ResponseFilter) (rg : Network.StatusRange)
    (log : Network.RequestLog) :
  Network.rfilter_statusRange filter = Some rg ->
  (Network.range_max rg < Network.range_min rg)%Z ->
  Network.getResponses beyond (Some filter) log
  = match Responses.compiled_url_clause beyond (Some filter) with
    | Some _ => Some []
    | None => None
    end.
Proof.
  intros Hrg Hlt.
  destruct (Responses.compiled_url_clause beyond (Some filter))
    as [pattern|] eqn:Hc; [|by apply getResponses_throws].
  rewrite (getResponses_filter _ _ _ _ Hc). f_equal.
  induction (Network.collect_responses log) as [|r l IH]; [reflexivity|].
  cbn [List.filter].
  assert (Responses.response_passes (Some filter) pattern r = false) as ->;
    [|exact IH].
  unfold Responses.response_passes. simpl. rewrite Hrg.
  unfold Responses.in_range.
  destruct (Network.range_min rg <=? Network.resp_status r)%Z eqn:E1;
    [|by rewrite !andb_false_r].
  destruct (Network.resp_status r <=? Network.range_max rg)%Z eqn:E2;
    [|by rewrite !andb_false_r].
  apply Z.leb_le in E1, E2. lia.
Qed.

Lemma getResponses_inverted_range_is_empty_witness :
  Network.getResponses Examples.sample_engine
    (Some Samples.inverted_range_filter) Samples.answered_log
  = Some [].
Proof.
  apply (getResponses_inverted_range_is_empty Examples.sample_engine
           Samples.inverted_range_filter
           (Network.mkStatusRange 599 400) Samples.answered_log);
    [reflexivity | simpl; lia].
Defined.

Lemma upper_char_idempotent (c : ascii) :
  JS.upper_char (JS.upper_char c) = JS.upper_char c.
Proof. destruct c as [[] [] [] [] [] [] [] []]; reflexivity. Qed.

Lemma toUpperCase_idempotent (s : string) :
  JS.toUpperCase (JS.toUpperCase s) = JS.toUpperCase s.
Proof.
  induction s as [|c s IH]; [reflexivity|]. simpl.
  by rewrite upper_char_idempotent, IH.
Qed.

Lemma truthy_str_value (s : string) :
  s <> EmptyString -> JS.truthy_str (Some s) = Some s.
Proof. intros H. by apply truthy_str_Some. Qed.

(** X18.  The method clause of [getRequests] does not look at the case of
    letters: two filters that differ only in their methods, both given and
    equal once upper-cased, return the same entries. *)
Theorem getRequests_method_ignores_case (beyond : RegExp.Beyond)
    (f : Network.RequestFilter) (m1 m2 : string) (log : Network.RequestLog) :
  m1 <> EmptyString -> m2 <> EmptyString ->
  JS.toUpperCase m1 = JS.toUpperCase m2 ->
  Network.getRequests beyond
    (Some (Network.mkRequestFilter (Network.filter_url f) (Some m1)
             (Network.filter_resourceType f))) log
  = Network.getRequests beyond
      (Some (Network.mkRequestFilter (Network.filter_url f) (Some m2)
               (Network.filter_resourceType f))) log.
Proof.
  intros H1 H2 Hup. unfold Network.getRequests, Network.getRequests_entries.
  cbn [mbind option_bind Network.filter_url Network.filter_method
       Network.filter_resourceType].
  rewrite (truthy_str_value m1 H1), (truthy_str_value m2 H2), Hup.
  reflexivity.
Qed.

Lemma getRequests_method_ignores_case_witness :
  Network.getRequests Examples.sample_engine
    (Some (Network.mkRequestFilter
             (Network.filter_url (Samples.post_filter "post")) (Some "post")
             (Network.filter_resourceType (Samples.post_filter "post"))))
    Examples.api_log
  = Network.getRequests Examples.sample_engine
      (Some (Network.mkRequestFilter
               (Network.filter_url (Samples.post_filter "post")) (Some "Post")
               (Network.filter_resourceType (Samples.post_filter "post"))))
      Examples.api_log.
Proof.
  apply (getRequests_method_ignores_case Examples.sample_engine
           (Samples.post_filter "post")
           "post" "Post" Examples.api_log); [discriminate | discriminate |].
  reflexivity.
Defined.

(** ** Waiting: errors other than timeouts, and the answer of [waitForResponse] *)




(** X20.  When [waitForResponse] succeeds, its answer has the URL, status,
    status text, headers and [ok] of the response the driver resolved with,
    and exactly one of [body] and [bodyError]: [body] is the text of the
    response when reading it worked; otherwise [bodyError] is the message of
    the failure when an [Error] was thrown, and the fixed text "Failed to
    get response body" when something else was thrown. *)
Theorem waitForResponse_body_or_error
    (page_waitForResponse : string -> Z -> JS.Settled Network.Response)
    (params : Network.WaitParams) (response : Network.Response) :
  page_waitForResponse (Network.wait_urlPattern params)
    (JS.num_or (Network.wait_timeout params) 30000)
  = JS.Resolves response ->
  exists info,
    Network.waitForResponse page_waitForResponse params = inr info /\
    Network.rsi_url info = Network.resp_url response /\
    Network.rsi_status info = Network.resp_status response /\
    Network.rsi_statusText info = Network.resp_statusText response /\
    Network.rsi_headers info = Network.resp_headers response /\
    Network.rsi_ok info = Network.resp_ok response /\
    match Network.resp_text response with
    | JS.Resolves text =>
        Network.rsi_body info = Some text /\ Network.rsi_bodyError info = None
    | JS.Rejects (JS.ErrorWith message) =>
        Network.rsi_body info = None /\
        Network.rsi_bodyError info = Some message
    | JS.Rejects (JS.OtherValue _) =>
        Network.rsi_body info = None /\
        Network.rsi_bodyError info = Some "Failed to get response body"
    end.
Proof.
  intros H. unfold Network.waitForResponse. rewrite H.
  destruct (Network.resp_text response) as [text|[m|shown]]; eexists;
    (repeat split); reflexivity.
Qed.

Lemma waitForResponse_body_or_error_witness :
  exists info,
    Network.waitForResponse
      (fun u _ => JS.Resolves (Samples.unread_response u 200))
      Examples.delayed_wait
    = inr info /\
    Network.rsi_url info = "**/api/delayed" /\
    Network.rsi_status info = 200%Z /\
    Network.rsi_statusText info = EmptyString /\
    Network.rsi_headers info = ∅ /\
    Network.rsi_ok info = true /\
    Network.rsi_body info = None /\
    Network.rsi_bodyError info = Some "Response body is unavailable".
Proof.
  apply (waitForResponse_body_or_error
           (fun u _ => JS.Resolves (Samples.unread_response u 200))
           Examples.delayed_wait (Samples.unread_response "**/api/delayed" 200)).
  reflexivity.
Defined.

(** ** URL filters: stars at the ends, and patterns without wildcards *)

Lemma list_ascii_append (a b : string) :
  list_ascii_of_string (a +:+ b)
  = list_ascii_of_string a ++ list_ascii_of_string b.
Proof. induction a as [|c a IH]; [reflexivity|]. simpl. by rewrite IH. Qed.

Lemma occurs_in_leading_star (p u : list ascii) :
  UrlFilter.occurs_in ("*"%char :: p) u <-> UrlFilter.occurs_in p u.
Proof.
  unfold UrlFilter.occurs_in. split.
  - intros (before & body & after & -> & H).
    inversion H as [|p1 run s Hrun Hs| |]; subst; [|discriminate].
    exists (before ++ run), s, after. split; [|done].
    by rewrite <- !app_assoc.
  - intros (before & body & after & -> & H).
    exists before, body, after. split; [done|].
    apply (UrlFilter.fg_star p [] body); [constructor | done].
Qed.

Lemma filter_glob_add_star (p s : list ascii) :
  UrlFilter.filter_glob p s -> UrlFilter.filter_glob (p ++ ["*"%char]) s.
Proof.
  induction 1 as [|p run s Hrun Hs IH|p c s Hc Hs IH|p c s H1 H2 Hs IH]; simpl.
  - apply (UrlFilter.fg_star [] [] []); constructor.
  - by constructor.
  - by constructor.
  - by constructor.
Qed.

Lemma filter_glob_drop_star (p body : list ascii) :
  UrlFilter.filter_glob (p ++ ["*"%char]) body ->
  exists s run, body = s ++ run /\ UrlFilter.filter_glob p s.
Proof.
  revert body. induction p as [|c p IH]; intros body H; simpl in H.
  - exists [], body. split; [done | constructor].
  - inversion H as [|p1 run s Hrun Hs|p1 d s Hd Hs|p1 d s H1 H2 Hs]; subst.
    + destruct (IH _ Hs) as (s1 & run1 & -> & H1).
      exists (run ++ s1), run1. split; [by rewrite app_assoc|]. by constructor.
    + destruct (IH _ Hs) as (s1 & run1 & -> & H1).
      exists (d :: s1), run1. split; [done|]. by constructor.
    + destruct (IH _ Hs) as (s1 & run1 & -> & H3).
      exists (c :: s1), run1. split; [done|]. by constructor.
Qed.

Lemma occurs_in_trailing_star (p u : list ascii) :
  UrlFilter.occurs_in (p ++ ["*"%char]) u <-> UrlFilter.occurs_in p u.
Proof.
  unfold UrlFilter.occurs_in. split.
  - intros (before & body & after & -> & H).
    destruct (filter_glob_drop_star _ _ H) as (s & run & -> & Hs).
    exists before, s, (run ++ after). split; [|done].
    by rewrite <- !app_assoc.
  - intros (before & body & after & -> & H).
    exists before, body, after. split; [done|]. by apply filter_glob_add_star.
Qed.

Lemma in_fragment_stars (p : list ascii) :
  UrlFilter.in_fragment p -> UrlFilter.in_fragment ("*"%char :: p ++ ["*"%char]).
Proof.
  intros H. unfold UrlFilter.in_fragment in *.
  apply Forall_cons. split; [reflexivity|].
  apply Forall_app. split; [done|]. by apply Forall_singleton.
Qed.

(** X21.  In a URL filter a [*] at the start or at the end of the pattern
    changes nothing: for a pattern without other syntax characters of
    regular expressions, the pattern wrapped in stars accepts a URL exactly
    when the bare pattern does. *)
Theorem url_filter_outer_stars_are_redundant (pattern url : string) :
  UrlFilter.in_fragment (list_ascii_of_string pattern) ->
  UrlFilter.url_clause ("*" +:+ pattern +:+ "*") url
  = UrlFilter.url_clause pattern url.
Proof.
  intros H.
  assert (Hl : list_ascii_of_string ("*" +:+ pattern +:+ "*")
               = "*"%char :: list_ascii_of_string pattern ++ ["*"%char]).
  { by rewrite !list_ascii_append. }
  rewrite !url_clause_fragment; [|done|rewrite Hl; by apply in_fragment_stars].
  f_equal. apply eq_true_iff_eq. unfold RegExp.test.
  rewrite !test_compile, Hl, occurs_in_leading_star.
  apply occurs_in_trailing_star.
Qed.

Lemma url_filter_outer_stars_are_redundant_witness :
  UrlFilter.url_clause ("*" +:+ "/api/" +:+ "*") "http://h/api/endpoint1"
  = UrlFilter.url_clause "/api/" "http://h/api/endpoint1".
Proof.
  apply (url_filter_outer_stars_are_redundant "/api/" "http://h/api/endpoint1").
  unfold UrlFilter.in_fragment. simpl. repeat constructor.
Defined.

Lemma prefix_spec (a b : string) :
  String.prefix a b = true <->
  exists rest, list_ascii_of_string b = list_ascii_of_string a ++ rest.
Proof.
  revert b. induction a as [|c a IH]; intros b; simpl.
  - split; [|intros _; by destruct b]. intros _.
    by exists (list_ascii_of_string b).
  - destruct b as [|d b]; simpl.
    + split; [discriminate | intros (rest & H); discriminate H].
    + destruct (ascii_dec c d) as [->|Hne].
      * rewrite IH. split; intros (rest & H); exists rest.
        -- by rewrite H.
        -- by injection H.
      * split; [discriminate|]. intros (rest & H). injection H as -> _. done.
Qed.

Lemma includes_unfold (hay needle : string) :
  JS.includes hay needle
  = String.prefix needle hay
    || match hay with
       | EmptyString => false
       | String _ hay' => JS.includes hay' needle
       end.
Proof. destruct hay; reflexivity. Qed.

Lemma includes_spec (hay needle : string) :
  JS.includes hay needle = true <->
  exists before after,
    list_ascii_of_string hay
    = before ++ list_ascii_of_string needle ++ after.
Proof.
  induction hay as [|c hay IH]; rewrite includes_unfold, orb_true_iff, prefix_spec;
    cbn [list_ascii_of_string].
  - split.
    + intros [(rest & H)|H]; [|discriminate]. by exists [], rest.
    + intros (before & after & H). left.
      symmetry in H. apply app_eq_nil in H as [-> H]. by exists after.
  - rewrite IH. split.
    + intros [(rest & H)|(before & after & H)].
      * by exists [], rest.
      * exists (c :: before), after. by rewrite H.
    + intros (before & after & H). destruct before as [|d before].
      * left. by exists after.
      * right. simpl in H. injection H as -> H. eauto.
Qed.

Lemma filter_glob_literal (p body : list ascii) :
  Forall (fun c => RegExp.is_star c = false /\ RegExp.is_dot c = false) p ->
  UrlFilter.filter_glob p body <-> body = p.
Proof.
  intros Hp. revert body. induction Hp as [|c p [Hs Hd] Hp IH]; intros body.
  - split; [by inversion 1 | intros ->; constructor].
  - split.
    + inversion 1 as [|p1 run s Hrun Hs1|p1 d s Hd1 Hs1|p1 d s H1 H2 Hs1]; subst.
      * discriminate Hs.
      * discriminate Hd.
      * f_equal. by apply IH.
    + intros ->. constructor; [done|done|]. by apply IH.
Qed.

(** X22.  A URL filter without wildcards is a substring test: for a pattern
    made of characters that mean nothing special in a regular expression,
    [getRequests] and [getResponses] accept a URL exactly when the URL
    contains the pattern. *)
Theorem url_filter_without_wildcards_is_includes (pattern url : string) :
  Forall
    (fun c =>
       RegExp.is_star c = false /\ RegExp.is_dot c = false /\
       RegExp.is_other_syntax c = false)
    (list_ascii_of_string pattern) ->
  UrlFilter.url_clause pattern url = Some (JS.includes url pattern).
Proof.
  intros H.
  assert (Hfrag : UrlFilter.in_fragment (list_ascii_of_string pattern)).
  { eapply Forall_impl; [exact H|]. by intros c (_ & _ & ?). }
  assert (Hlit : Forall (fun c => RegExp.is_star c = false
                                  /\ RegExp.is_dot c = false)
                   (list_ascii_of_string pattern)).
  { eapply Forall_impl; [exact H|]. by intros c (? & ? & _). }
  rewrite url_clause_fragment by done. f_equal. apply eq_true_iff_eq.
  unfold RegExp.test. rewrite test_compile, includes_spec.
  unfold UrlFilter.occurs_in. split.
  - intros (before & body & after & Hu & Hb).
    apply (filter_glob_literal _ _ Hlit) in Hb as ->. eauto.
  - intros (before & after & Hu).
    exists before, (list_ascii_of_string pattern), after.
    split; [exact Hu|]. by apply filter_glob_literal.
Qed.

Lemma url_filter_without_wildcards_is_includes_witness :
  UrlFilter.url_clause "/api/" "http://h/api/endpoint1"
  = Some (JS.includes "http://h/api/endpoint1" "/api/").
Proof.
  apply (url_filter_without_wildcards_is_includes "/api/"
           "http://h/api/endpoint1").
  simpl. repeat constructor.
Defined.

(** ** The data of [getRequests], and its agreement with [getResponses] *)

(** X23.  For every filter whose URL clause is absent or compiles,
    [getRequests] returns one record for each entry of the log that passes
    the filter, in the order of the log, with the URL, method, headers, post
    data and resource type of the request.  A request still in flight (one
    that has no response yet) is listed like any other when it passes the
    filter, its record having [response] null; every other record carries
    the status and status text of the response. *)
Theorem getRequests_lists_requests_in_flight (beyond : RegExp.Beyond)
    (filter : option Network.RequestFilter) (log : Network.RequestLog)
    (pattern : option (string -> bool)) :
  Network.compiled_url_clause beyond filter = Some pattern ->
  exists (data : list Network.RequestData)
         (kept : list (Network.Request * option Network.Response)),
    Network.getRequests beyond filter log = Some data /\
    kept = List.filter (Network.entry_passes filter pattern) log /\
    length data = length kept /\
    (forall i e,
       kept !! i = Some e ->
       exists d,
         data !! i = Some d /\
         Network.rd_url d = Network.req_url e.1 /\
         Network.rd_method d = Network.req_method e.1 /\
         Network.rd_headers d = Network.req_headers e.1 /\
         Network.rd_postData d = Network.req_postData e.1 /\
         Network.rd_resourceType d = Network.req_resourceType e.1 /\
         Network.rd_response d
         = (fun r => (Network.resp_status r, Network.resp_statusText r)) <$> e.2) /\
    (forall request,
       (request, None) ∈ log ->
       Network.entry_passes filter pattern (request, None) = true ->
       exists d,
         d ∈ data /\
         Network.rd_url d = Network.req_url request /\
         Network.rd_response d = None).
Proof.
  intros H. unfold Network.getRequests.
  rewrite (getRequests_entries_filter _ _ _ _ H). cbn [option_map].
  set (kept := List.filter (Network.entry_passes filter pattern) log).
  exists (List.map Network.request_data kept), kept.
  split; [reflexivity|]. split; [reflexivity|].
  split; [apply length_map|]. split.
  - intros i e He. exists (Network.request_data e). split.
    + change (List.map Network.request_data kept)
        with (Network.request_data <$> kept).
      unfold Network.RequestLog in *. by rewrite list_lookup_fmap, He.
    + by destruct e as [r [resp|]].
  - intros request Hin Hpass.
    exists (Network.request_data (request, None)). split; [|done].
    change (List.map Network.request_data kept)
      with (Network.request_data <$> kept).
    apply list_elem_of_fmap. exists (request, None). split; [reflexivity|].
    by apply elem_of_bool_filter.
Qed.

Lemma getRequests_lists_requests_in_flight_witness :
  exists d,
    d ∈ List.map Network.request_data
          [Examples.get_request "http://h/searchq=1"] /\
    Network.rd_url d = "http://h/searchq=1" /\
    Network.rd_response d = None.
Proof.
  destruct (getRequests_lists_requests_in_flight Examples.sample_engine
              Examples.query_filter Examples.query_log
              (Some Examples.query_test) eq_refl)
    as (data & kept & Hdata & Hkept & _ & _ & Hflight).
  injection Hdata as <-.
  apply (Hflight (Network.mkRequest "http://h/searchq=1" "GET" ∅ None "fetch" false)).
  - apply list_elem_of_further, list_elem_of_here.
  - reflexivity.
Defined.

Lemma omap_response_data (log : Network.RequestLog) :
  omap Network.rd_response (List.map Network.request_data log)
  = (fun r => (Network.resp_status r, Network.resp_statusText r))
      <$> Network.collect_responses log.
Proof.
  induction log as [|[r [resp|]] log IH]; [reflexivity| |];
    cbn [List.map Network.collect_responses omap list_omap
         Network.request_data Network.rd_response snd fmap list_fmap];
    by rewrite IH.
Qed.

(** X24.  Without filters the two listings agree: the responses that
    [getRequests] attaches to its records are, in order, the status and
    status text of the responses that [getResponses] returns. *)
Theorem getRequests_and_getResponses_agree (beyond : RegExp.Beyond)
    (log : Network.RequestLog)
    (data : list Network.RequestData) (responses : list Network.Response) :
  Network.getRequests beyond None log = Some data ->
  Network.getResponses beyond None log = Some responses ->
  omap Network.rd_response data
  = (fun r => (Network.resp_status r, Network.resp_statusText r)) <$> responses.
Proof.
  intros Hd Hr. injection Hd as <-. injection Hr as <-.
  apply omap_response_data.
Qed.

Lemma getRequests_and_getResponses_agree_witness :
  omap Network.rd_response
    (List.map Network.request_data Samples.answered_log)
  = (fun r => (Network.resp_status r, Network.resp_statusText r))
      <$> Network.collect_responses Samples.answered_log.
Proof.
  apply (getRequests_and_getResponses_agree Examples.sample_engine
           Samples.answered_log
           (List.map Network.request_data Samples.answered_log)
           (Network.collect_responses Samples.answered_log));
    reflexivity.
Defined.

(** ** Errors under [frameEvaluate] *)

(** X25.  When the code run by [frameEvaluate] fails in the frame, the tool
    fails with an error whose message is "Frame JavaScript execution
    failed: " followed by the text of the failure, which it therefore
    contains; when the code succeeds, the result is passed on as it is. *)
Theorem frameEvaluate_wraps_the_failure
    (frame_evaluate : Frames.Frame -> string -> list string -> JS.Settled string)
    (tab : Frames.Tab) (q : Frames.EvaluateParams) (f : Frames.Frame) :
  Frames.frameEvaluate_target tab q = inr f ->
  match frame_evaluate f (Frames.fe_code q) (default [] (Frames.fe_args q)) with
  | JS.Resolves result => Frames.frameEvaluate frame_evaluate tab q = inr result
  | JS.Rejects error =>
      exists message,
        Frames.frameEvaluate frame_evaluate tab q = inl (JS.ErrorWith message) /\
        message = "Frame JavaScript execution failed: " +:+ JS.error_text error /\
        JS.includes message (JS.error_text error) = true
  end.
Proof.
  intros Hf. unfold Frames.frameEvaluate. rewrite Hf.
  destruct (frame_evaluate f _ _) as [result|error]; [reflexivity|].
  eexists. split; [reflexivity|]. split; [reflexivity|]. apply includes_suffix.
Qed.

Lemma frameEvaluate_wraps_the_failure_witness :
  exists message,
    Frames.frameEvaluate
      (fun _ _ _ => JS.Rejects (JS.ErrorWith "x is not defined"))
      Examples.fresh_tab Examples.evaluate_no_frame
    = inl (JS.ErrorWith message) /\
    message = "Frame JavaScript execution failed: " +:+ "x is not defined" /\
    JS.includes message "x is not defined" = true.
Proof.
  apply (frameEvaluate_wraps_the_failure
           (fun _ _ _ => JS.Rejects (JS.ErrorWith "x is not defined"))
           Examples.fresh_tab Examples.evaluate_no_frame Examples.main_frame).
  reflexivity.
Defined.

(** ** Tools that never ask for a snapshot *)

(** X26.  The tools of the modules [networkInterception] and
    [advancedWaiting] never ask for a snapshot: whatever argument their
    factory is given (the registry gives [true]) and whatever the call, the
    object their handler returns has [captureSnapshot] false. *)
Theorem network_and_wait_tools_never_snapshot (cs : bool)
    (call : Dispatch.ToolCall) (flags : Dispatch.SyncFlags) :
  Dispatch.tool_of call
    ∈ Tools.tool_name <$> (Tools.networkInterception cs ++ Tools.advancedWaiting cs) ->
  Dispatch.handle_flags cs call = Some flags ->
  Dispatch.captureSnapshot flags = false.
Proof.
  intros Hin Hf.
  apply (bool_decide_pack _) in Hin.
  destruct call; simpl in Hf; try (injection Hf as <-; reflexivity);
    exfalso; destruct cs; vm_compute in Hin; exact Hin.
Qed.

Lemma network_and_wait_tools_never_snapshot_witness :
  Dispatch.captureSnapshot (Dispatch.mkSyncFlags false true) = false.
Proof.
  apply (network_and_wait_tools_never_snapshot true Examples.wait_networkidle
           (Dispatch.mkSyncFlags false true)).
  - refine (bool_decide_unpack _ _). vm_compute. exact I.
  - reflexivity.
Defined.

(** ** Calls without usable arguments, and the registry *)

(** X27.  [switchToFrame] refuses a call with "Must provide frameSelector,
    frameName, frameUrl, or frameIndex" exactly when the call has no
    selector, name or URL other than the empty string and no index (the
    index 0 counts as given); this is also exactly when its handler throws
    before it returns its flags. *)
Theorem switchToFrame_requires_an_argument (tab : Frames.Tab)
    (p : Frames.SwitchParams) (cs : bool) :
  (Frames.switchToFrame tab p
   = inl (JS.ErrorWith
            "Must provide frameSelector, frameName, frameUrl, or frameIndex")
   <->
   JS.truthy_str (Frames.sw_frameSelector p) = None /\
   JS.truthy_str (Frames.sw_frameName p) = None /\
   JS.truthy_str (Frames.sw_frameUrl p) = None /\
   Frames.sw_frameIndex p = None) /\
  (Dispatch.handle_flags cs (Dispatch.CallSwitchToFrame p) = None <->
   JS.truthy_str (Frames.sw_frameSelector p) = None /\
   JS.truthy_str (Frames.sw_frameName p) = None /\
   JS.truthy_str (Frames.sw_frameUrl p) = None /\
   Frames.sw_frameIndex p = None).
Proof.
  split.
  - unfold Frames.switchToFrame, Frames.switch_target, Frames.by_selector,
      Frames.frame_not_found.
    destruct (JS.truthy_str (Frames.sw_frameSelector p)) as [sel|];
      destruct (JS.truthy_str (Frames.sw_frameName p)) as [n|];
      destruct (JS.truthy_str (Frames.sw_frameUrl p)) as [u|];
      destruct (Frames.sw_frameIndex p) as [i|];
      (split; [|intros (H1 & H2 & H3 & H4); done || discriminate]);
      try done;
      try destruct (Frames.page_content_frame (Frames.tab_page tab) sel)
        as [[f|]|];
      repeat match goal with
             | |- context [match ?x with _ => _ end] => destruct x
             end;
      intros H; cbn in H; discriminate H.
  - simpl.
    destruct (JS.truthy_str (Frames.sw_frameSelector p)) as [sel|];
      destruct (JS.truthy_str (Frames.sw_frameName p)) as [n|];
      destruct (JS.truthy_str (Frames.sw_frameUrl p)) as [u|];
      destruct (Frames.sw_frameIndex p) as [i|];
      split; try done; intros (H1 & H2 & H3 & H4); discriminate.
Qed.

Ltac find_in_registry :=
  rewrite !fmap_app, !elem_of_app;
  repeat first [ left; solve [simpl; repeat constructor] | right ];
  solve [simpl; repeat constructor].

(** X28.  No embedded tool is left out of the registry: the name of every
    tool whose handler is embedded is among the names of [snapshotTools] and
    among those of [visionTools], whatever the other modules contribute. *)
Theorem embedded_tools_are_registered (o : Tools.OtherModules)
    (call : Dispatch.ToolCall) :
  Dispatch.tool_of call ∈ Tools.tool_name <$> Tools.snapshotTools o /\
  Dispatch.tool_of call ∈ Tools.tool_name <$> Tools.visionTools o.
Proof.
  split; unfold Tools.snapshotTools, Tools.visionTools;
    destruct call; cbn [Dispatch.tool_of]; find_in_registry.
Qed.
